(** * Analytics aggregation engine of the call-center dashboard

    A shallow embedding of the pure core of the dashboard's library code
    (the modules imported as [@/lib/utils] and [@/lib/clickhouse], both
    held in [src/lib/colors.ts], and the route [src/app/api/kpis/route.ts]):
    metric derivation, the period reducer, calendar windows, the change and
    score computation, row parsing and the fetch orchestration, followed by
    the properties the specification states about them.

    Number model.  A JavaScript [number] is embedded twice.  Where a
    property does not depend on the rounding of an operation (formulas of
    the derivation, ranges, the change and trend computation, parsing and
    routing, the orchestration) it is an exact rational extended with the
    three IEEE special values the code can produce or has to avoid
    ([NaN], [+Infinity], [-Infinity]); arithmetic on finite values is
    exact there.  Where rounding decides the outcome (the reducer, the
    recalculation after a reduction, the overall score) it is an IEEE 754
    binary64 value, Rocq's primitive [float]: module [Binary64].

    Date model.  A [Date] is a time value in milliseconds or the Invalid
    Date; local time is UTC.

    The outside world enters as parameters: the data store as a function
    from a query's arguments to its rows or a failure, the host functions
    [parseInt], [parseFloat], [toLowerCase] and the date parser as
    functions, the clock as a date. *)

From Stdlib Require Import ZArith QArith Qcanon Qround Qabs Qpower.
From Stdlib Require Import Bool List Lia Lqa.
From Stdlib Require Import Permutation.
From Stdlib Require Import String Ascii DecimalString.
From Stdlib Require Floats.
From Equations Require Import Equations.
Import ListNotations.

(* ================================================================== *)
(** ** JavaScript numbers *)
(* ================================================================== *)

Module JS.

Inductive number : Type :=
| Fin (q : Qc)
| PosInf
| NegInf
| NaN.

Definition ofZ (z : Z) : number := Fin (Q2Qc (inject_Z z)).
Definition ofQ (q : Q) : number := Fin (Q2Qc q).

Definition zero : number := ofZ 0.


Definition Qc_eqb (a b : Qc) : bool :=
  match (a ?= b)%Qc with Eq => true | _ => false end.
Definition Qc_ltb (a b : Qc) : bool :=
  match (a ?= b)%Qc with Lt => true | _ => false end.

Definition Qc0 : Qc := Q2Qc 0.

(** Unary minus. *)
Definition neg (x : number) : number :=
  match x with
  | Fin q => Fin (- q)%Qc
  | PosInf => NegInf
  | NegInf => PosInf
  | NaN => NaN
  end.

(** [x + y] *)
Definition add (x y : number) : number :=
  match x, y with
  | NaN, _ | _, NaN => NaN
  | PosInf, NegInf | NegInf, PosInf => NaN
  | PosInf, _ | _, PosInf => PosInf
  | NegInf, _ | _, NegInf => NegInf
  | Fin a, Fin b => Fin (a + b)%Qc
  end.

(** [x - y] *)
Definition sub (x y : number) : number := add x (neg y).

(** Sign of a value that is neither NaN nor zero: [true] for negative. *)
Definition is_neg (x : number) : bool :=
  match x with
  | Fin q => Qc_ltb q Qc0
  | NegInf => true
  | _ => false
  end.

Definition is_zero (x : number) : bool :=
  match x with
  | Fin q => Qc_eqb q Qc0
  | _ => false
  end.

Definition signed_inf (negative : bool) : number :=
  if negative then NegInf else PosInf.

(** [x * y] *)
Definition mul (x y : number) : number :=
  match x, y with
  | NaN, _ | _, NaN => NaN
  | Fin a, Fin b => Fin (a * b)%Qc
  | _, _ =>
      if is_zero x || is_zero y then NaN
      else signed_inf (xorb (is_neg x) (is_neg y))
  end.

(** [x / y]: a finite non-zero value over zero is an infinity, [0 / 0] and
    [Infinity / Infinity] are [NaN]. *)
Definition div (x y : number) : number :=
  match x, y with
  | NaN, _ | _, NaN => NaN
  | Fin a, Fin b =>
      if Qc_eqb b Qc0 then
        if Qc_eqb a Qc0 then NaN else signed_inf (Qc_ltb a Qc0)
      else Fin (a / b)%Qc
  | Fin _, _ => zero
  | _, Fin _ => signed_inf (xorb (is_neg x) (is_neg y))
  | _, _ => NaN
  end.

(** [x === y] on numbers: [NaN] is different from everything. *)
Definition strict_eq (x y : number) : bool :=
  match x, y with
  | Fin a, Fin b => Qc_eqb a b
  | PosInf, PosInf | NegInf, NegInf => true
  | _, _ => false
  end.

(** [x < y]; every comparison with [NaN] is false. *)
Definition lt (x y : number) : bool :=
  match x, y with
  | NaN, _ | _, NaN => false
  | Fin a, Fin b => Qc_ltb a b
  | NegInf, NegInf => false
  | NegInf, _ => true
  | _, PosInf => negb (strict_eq x PosInf)
  | _, _ => false
  end.

Definition gt (x y : number) : bool := lt y x.

(** [x <= y] *)
Definition le (x y : number) : bool :=
  match x, y with
  | NaN, _ | _, NaN => false
  | _, _ => negb (lt y x)
  end.

Definition ge (x y : number) : bool := le y x.

(** [Math.max(x, y)] and [Math.min(x, y)]. *)
Definition max (x y : number) : number :=
  match x, y with
  | NaN, _ | _, NaN => NaN
  | _, _ => if lt x y then y else x
  end.

Definition min (x y : number) : number :=
  match x, y with
  | NaN, _ | _, NaN => NaN
  | _, _ => if lt y x then y else x
  end.

(** [Math.round(x)]: the integer nearest to [x], ties towards +Infinity,
    that is [floor (x + 1/2)]. *)
Definition round (x : number) : number :=
  match x with
  | Fin q => ofZ (Qfloor (this q + (1 # 2)))
  | _ => x
  end.

(** Truthiness of a number: [0] and [NaN] are falsy. *)
Definition truthy (x : number) : bool :=
  match x with
  | NaN => false
  | Fin q => negb (Qc_eqb q Qc0)
  | _ => true
  end.

(** [x || y] on numbers. *)
Definition or_else (x y : number) : number :=
  if truthy x then x else y.

End JS.

Import JS.

Declare Scope js_scope.
Delimit Scope js_scope with js.
Bind Scope js_scope with number.
Infix "+" := add : js_scope.
Infix "-" := sub : js_scope.
Infix "*" := mul : js_scope.
Infix "/" := div : js_scope.
Notation "x === y" := (strict_eq x y) (at level 70, no associativity) : js_scope.
Notation "x <? y" := (lt x y) : js_scope.
Notation "x >? y" := (gt x y) : js_scope.
Notation "x <=? y" := (le x y) : js_scope.
Notation "x >=? y" := (ge x y) : js_scope.

(** Numeric literals of the source. *)
Definition n0 : number := ofZ 0.
Definition n60 : number := ofZ 60.
Definition n100 : number := ofZ 100.

Open Scope js_scope.

(* ================================================================== *)
(** ** Metric records ([src/types/index.ts]) *)
(* ================================================================== *)

Record CollectionsMetrics : Type := mkCollectionsMetrics {
  accounts : number;
  calls : number;
  callsPerAccount : number;
  connects : number;
  connectRate : number;
  rpcs : number;
  rpcRate : number;
  promises : number;
  promisesPerRpc : number;
  cashPayments : number;
  cashPerRpc : number;
  cashPerPromises : number;
  transfers : number;
  transfersPerRpc : number;
  timeOnCallHours : number;
  avgTimePerCallMin : number;
  dollarPromised : number;
  dollarCollected : number;
  avgPaymentAmount : number;
  dollarPerRpc : number
}.

Record WelcomeVerificationMetrics : Type := mkWelcomeVerificationMetrics {
  wv_accounts : number;
  wv_calls : number;
  wv_callsPerAccount : number;
  wv_connects : number;
  wv_connectRate : number;
  wv_rpcs : number;
  wv_rpcRate : number;
  wv_eligible : number;
  wv_eligiblePerRpc : number;
  wv_completed : number;
  wv_completedPerEligible : number;
  wv_completedPerRpc : number;
  wv_incomplete : number
}.

Record PeriodKPIs : Type := mkPeriodKPIs {
  collections : CollectionsMetrics;
  inbound : CollectionsMetrics;
  welcome : WelcomeVerificationMetrics;
  verification : WelcomeVerificationMetrics
}.

(** The anonymous argument type of [calculateDerivedCollectionsMetrics]. *)
Record CollectionsRaw : Type := mkCollectionsRaw {
  raw_accounts : number;
  raw_calls : number;
  raw_connects : number;
  raw_rpcs : number;
  raw_promises : number;
  raw_cashPayments : number;
  raw_transfers : number;
  raw_durationMinutes : number;
  raw_dollarPromised : number;
  raw_dollarCollected : number
}.

(** The anonymous argument type of [calculateDerivedWelcomeMetrics]. *)
Record WelcomeRaw : Type := mkWelcomeRaw {
  wraw_accounts : number;
  wraw_calls : number;
  wraw_connects : number;
  wraw_rpcs : number;
  wraw_eligible : number;
  wraw_completed : number
}.

(* ================================================================== *)
(** ** Metric derivation and the reducer *)
(* ================================================================== *)

Definition emptyCollectionsMetrics : CollectionsMetrics :=
  {| accounts := n0; calls := n0; callsPerAccount := n0;
     connects := n0; connectRate := n0;
     rpcs := n0; rpcRate := n0;
     promises := n0; promisesPerRpc := n0;
     cashPayments := n0; cashPerRpc := n0; cashPerPromises := n0;
     transfers := n0; transfersPerRpc := n0;
     timeOnCallHours := n0; avgTimePerCallMin := n0;
     dollarPromised := n0; dollarCollected := n0;
     avgPaymentAmount := n0; dollarPerRpc := n0 |}.

Definition emptyWelcomeVerificationMetrics : WelcomeVerificationMetrics :=
  {| wv_accounts := n0; wv_calls := n0; wv_callsPerAccount := n0;
     wv_connects := n0; wv_connectRate := n0;
     wv_rpcs := n0; wv_rpcRate := n0;
     wv_eligible := n0; wv_eligiblePerRpc := n0;
     wv_completed := n0; wv_completedPerEligible := n0;
     wv_completedPerRpc := n0; wv_incomplete := n0 |}.

Definition emptyPeriodKPIs : PeriodKPIs :=
  {| collections := emptyCollectionsMetrics;
     inbound := emptyCollectionsMetrics;
     welcome := emptyWelcomeVerificationMetrics;
     verification := emptyWelcomeVerificationMetrics |}.

(** [if (denominator === 0) return 0; return numerator / denominator;] *)
Definition safeDivide (numerator denominator : number) : number :=
  if denominator === n0 then n0 else numerator / denominator.

Definition calculateDerivedCollectionsMetrics (raw : CollectionsRaw)
  : CollectionsMetrics :=
  {| accounts := raw_accounts raw;
     calls := raw_calls raw;
     callsPerAccount := safeDivide (raw_calls raw) (raw_accounts raw);
     connects := raw_connects raw;
     connectRate := safeDivide (raw_connects raw) (raw_calls raw) * n100;
     rpcs := raw_rpcs raw;
     rpcRate := safeDivide (raw_rpcs raw) (raw_connects raw) * n100;
     promises := raw_promises raw;
     promisesPerRpc := safeDivide (raw_promises raw) (raw_rpcs raw) * n100;
     cashPayments := raw_cashPayments raw;
     cashPerRpc := safeDivide (raw_cashPayments raw) (raw_rpcs raw) * n100;
     cashPerPromises :=
       safeDivide (raw_cashPayments raw) (raw_promises raw) * n100;
     transfers := raw_transfers raw;
     transfersPerRpc := safeDivide (raw_transfers raw) (raw_rpcs raw) * n100;
     timeOnCallHours := raw_durationMinutes raw / n60;
     avgTimePerCallMin := safeDivide (raw_durationMinutes raw) (raw_calls raw);
     dollarPromised := raw_dollarPromised raw;
     dollarCollected := raw_dollarCollected raw;
     avgPaymentAmount :=
       safeDivide (raw_dollarCollected raw) (raw_cashPayments raw);
     dollarPerRpc := safeDivide (raw_dollarCollected raw) (raw_rpcs raw) |}.

Definition calculateDerivedWelcomeMetrics (raw : WelcomeRaw)
  : WelcomeVerificationMetrics :=
  {| wv_accounts := wraw_accounts raw;
     wv_calls := wraw_calls raw;
     wv_callsPerAccount := safeDivide (wraw_calls raw) (wraw_accounts raw);
     wv_connects := wraw_connects raw;
     wv_connectRate := safeDivide (wraw_connects raw) (wraw_calls raw) * n100;
     wv_rpcs := wraw_rpcs raw;
     wv_rpcRate := safeDivide (wraw_rpcs raw) (wraw_connects raw) * n100;
     wv_eligible := wraw_eligible raw;
     wv_eligiblePerRpc :=
       safeDivide (wraw_eligible raw) (wraw_rpcs raw) * n100;
     wv_completed := wraw_completed raw;
     wv_completedPerEligible :=
       safeDivide (wraw_completed raw) (wraw_eligible raw) * n100;
     wv_completedPerRpc :=
       safeDivide (wraw_completed raw) (wraw_rpcs raw) * n100;
     wv_incomplete := wraw_eligible raw - wraw_completed raw |}.

(** One branch of [sumPeriodKPIs] for a collections-shaped category: raw
    fields are added, every rate field is set to the literal [0]. *)
Definition sumCollections (a b : CollectionsMetrics) : CollectionsMetrics :=
  {| accounts := accounts a + accounts b;
     calls := calls a + calls b;
     callsPerAccount := n0;
     connects := connects a + connects b;
     connectRate := n0;
     rpcs := rpcs a + rpcs b;
     rpcRate := n0;
     promises := promises a + promises b;
     promisesPerRpc := n0;
     cashPayments := cashPayments a + cashPayments b;
     cashPerRpc := n0;
     cashPerPromises := n0;
     transfers := transfers a + transfers b;
     transfersPerRpc := n0;
     timeOnCallHours := timeOnCallHours a + timeOnCallHours b;
     avgTimePerCallMin := n0;
     dollarPromised := dollarPromised a + dollarPromised b;
     dollarCollected := dollarCollected a + dollarCollected b;
     avgPaymentAmount := n0;
     dollarPerRpc := n0 |}.

(** One branch of [sumPeriodKPIs] for a welcome-shaped category. *)
Definition sumWelcome (a b : WelcomeVerificationMetrics)
  : WelcomeVerificationMetrics :=
  {| wv_accounts := wv_accounts a + wv_accounts b;
     wv_calls := wv_calls a + wv_calls b;
     wv_callsPerAccount := n0;
     wv_connects := wv_connects a + wv_connects b;
     wv_connectRate := n0;
     wv_rpcs := wv_rpcs a + wv_rpcs b;
     wv_rpcRate := n0;
     wv_eligible := wv_eligible a + wv_eligible b;
     wv_eligiblePerRpc := n0;
     wv_completed := wv_completed a + wv_completed b;
     wv_completedPerEligible := n0;
     wv_completedPerRpc := n0;
     wv_incomplete := wv_incomplete a + wv_incomplete b |}.

Definition sumPeriodKPIs (a b : PeriodKPIs) : PeriodKPIs :=
  {| collections := sumCollections (collections a) (collections b);
     inbound := sumCollections (inbound a) (inbound b);
     welcome := sumWelcome (welcome a) (welcome b);
     verification := sumWelcome (verification a) (verification b) |}.

(** The raw record [recalculateDerivedMetrics] rebuilds from a metrics
    record; the duration is recovered as [timeOnCallHours * 60]. *)
Definition rawOfCollections (m : CollectionsMetrics) : CollectionsRaw :=
  {| raw_accounts := accounts m;
     raw_calls := calls m;
     raw_connects := connects m;
     raw_rpcs := rpcs m;
     raw_promises := promises m;
     raw_cashPayments := cashPayments m;
     raw_transfers := transfers m;
     raw_durationMinutes := timeOnCallHours m * n60;
     raw_dollarPromised := dollarPromised m;
     raw_dollarCollected := dollarCollected m |}.

Definition rawOfWelcome (m : WelcomeVerificationMetrics) : WelcomeRaw :=
  {| wraw_accounts := wv_accounts m;
     wraw_calls := wv_calls m;
     wraw_connects := wv_connects m;
     wraw_rpcs := wv_rpcs m;
     wraw_eligible := wv_eligible m;
     wraw_completed := wv_completed m |}.

Definition recalculateDerivedMetrics (kpis : PeriodKPIs) : PeriodKPIs :=
  {| collections :=
       calculateDerivedCollectionsMetrics (rawOfCollections (collections kpis));
     inbound :=
       calculateDerivedCollectionsMetrics (rawOfCollections (inbound kpis));
     welcome := calculateDerivedWelcomeMetrics (rawOfWelcome (welcome kpis));
     verification :=
       calculateDerivedWelcomeMetrics (rawOfWelcome (verification kpis)) |}.

(** The four accumulators of [parseKPIResults] ([collectionsRaw],
    [inboundRaw], [welcomeRaw], [verificationRaw]). *)
Record RawAccumulators : Type := mkRawAccumulators {
  collectionsRaw : CollectionsRaw;
  inboundRaw : CollectionsRaw;
  welcomeRaw : WelcomeRaw;
  verificationRaw : WelcomeRaw
}.

Definition zeroCollectionsRaw : CollectionsRaw :=
  {| raw_accounts := n0; raw_calls := n0; raw_connects := n0;
     raw_rpcs := n0; raw_promises := n0; raw_cashPayments := n0;
     raw_transfers := n0; raw_durationMinutes := n0;
     raw_dollarPromised := n0; raw_dollarCollected := n0 |}.

Definition zeroWelcomeRaw : WelcomeRaw :=
  {| wraw_accounts := n0; wraw_calls := n0; wraw_connects := n0;
     wraw_rpcs := n0; wraw_eligible := n0; wraw_completed := n0 |}.

Definition zeroAccumulators : RawAccumulators :=
  {| collectionsRaw := zeroCollectionsRaw;
     inboundRaw := zeroCollectionsRaw;
     welcomeRaw := zeroWelcomeRaw;
     verificationRaw := zeroWelcomeRaw |}.

(** The last four assignments of [parseKPIResults]: each accumulator is
    turned into its metrics record. *)
Definition deriveKPIs (acc : RawAccumulators) : PeriodKPIs :=
  {| collections := calculateDerivedCollectionsMetrics (collectionsRaw acc);
     inbound := calculateDerivedCollectionsMetrics (inboundRaw acc);
     welcome := calculateDerivedWelcomeMetrics (welcomeRaw acc);
     verification := calculateDerivedWelcomeMetrics (verificationRaw acc) |}.





(* ================================================================== *)
(** ** Result-code taxonomy and the aggregate columns of
       [buildClientKPIQuery] *)
(* ================================================================== *)

Open Scope string_scope.






Close Scope string_scope.









Definition ofNat (n : nat) : number := ofZ (Z.of_nat n).


(* ================================================================== *)
(** ** Change, trend and health score *)
(* ================================================================== *)

(** ['up' | 'down' | 'neutral'] *)
Inductive TrendDirection : Type := trend_up | trend_down | trend_neutral.

(** ['good' | 'warning' | 'critical' | 'neutral'] *)
Inductive HealthStatus : Type :=
  status_good | status_warning | status_critical | status_neutral.

Record MoMChange : Type := mkMoMChange {
  value : number;
  trend : TrendDirection
}.

Record ScorecardMetric : Type := mkScorecardMetric {
  sm_current : number;
  sm_baseline : number;
  sm_change : number;
  sm_trend : TrendDirection;
  sm_status : HealthStatus
}.

Definition half : number := ofQ (1 # 2).

(** [if (change > 0.5) trend = 'up'; else if (change < -0.5) trend = 'down';]
    with ['neutral'] as the initial value; the conditional expression of
    [createScorecardMetric] is the same decision. *)
Definition trendOfChange (change : number) : TrendDirection :=
  if change >? half then trend_up
  else if change <? neg half then trend_down
  else trend_neutral.

Definition calculateMoMChange (current previous : number) : MoMChange :=
  if (negb (truthy previous) || (previous === n0))%bool then
    {| value := n0; trend := trend_neutral |}
  else
    let change := ((current - previous) / previous) * n100 in
    {| value := change; trend := trendOfChange change |}.

Definition getHealthStatus (change : number) (invertLogic : bool)
  : HealthStatus :=
  let adjustedChange := if invertLogic then neg change else change in
  if adjustedChange <=? ofZ (-15) then status_critical
  else if adjustedChange <? ofZ (-5) then status_warning
  else if adjustedChange >? ofZ 5 then status_good
  else status_neutral.

Definition createScorecardMetric (current baseline : number)
  (invertLogic : bool) : ScorecardMetric :=
  let change :=
    if baseline >? n0 then ((current - baseline) / baseline) * n100
    else n0 in
  {| sm_current := current;
     sm_baseline := baseline;
     sm_change := change;
     sm_trend := trendOfChange change;
     sm_status := getHealthStatus change invertLogic |}.

(** The argument of [calculateOverallScore]. *)
Record ScorecardMetrics : Type := mkScorecardMetrics {
  sc_callVolume : ScorecardMetric;
  sc_connectRate : ScorecardMetric;
  sc_rpcRate : ScorecardMetric;
  sc_promiseRate : ScorecardMetric;
  sc_paymentSuccess : ScorecardMetric;
  sc_dollarCollected : ScorecardMetric
}.

(** The [weights] object, as the decimal fractions it is written with
    ([Binary64] below has the binary64 values and their rounded sums). *)
Definition weight_callVolume : number := ofQ (10 # 100).
Definition weight_connectRate : number := ofQ (15 # 100).
Definition weight_rpcRate : number := ofQ (20 # 100).
Definition weight_promiseRate : number := ofQ (15 # 100).
Definition weight_paymentSuccess : number := ofQ (20 # 100).
Definition weight_dollarCollected : number := ofQ (20 # 100).

Definition n50 : number := ofZ 50.

(** [getScore]: [50 + Math.max(-50, Math.min(50, change))]. *)
Definition getScore (change : number) : number :=
  let clampedChange := JS.max (ofZ (-50)) (JS.min n50 change) in
  n50 + clampedChange.

Definition calculateOverallScore (metrics : ScorecardMetrics) : number :=
  let weightedScore :=
    weight_callVolume * getScore (sm_change (sc_callVolume metrics)) +
    weight_connectRate * getScore (sm_change (sc_connectRate metrics)) +
    weight_rpcRate * getScore (sm_change (sc_rpcRate metrics)) +
    weight_promiseRate * getScore (sm_change (sc_promiseRate metrics)) +
    weight_paymentSuccess * getScore (sm_change (sc_paymentSuccess metrics)) +
    weight_dollarCollected * getScore (sm_change (sc_dollarCollected metrics))
  in
  JS.round (JS.max n0 (JS.min n100 weightedScore)).

Definition getOverallStatusFromScore (score : number) : HealthStatus :=
  if score >=? ofZ 55 then status_good
  else if score >=? ofZ 45 then status_neutral
  else if score >=? ofZ 35 then status_warning
  else status_critical.

(** *** The same computations on rationals, as the specification words
        them *)


(* ================================================================== *)
(** ** JavaScript dates *)
(* ================================================================== *)

(** A [Date] is a time value in milliseconds since the epoch, or the
    Invalid Date (time value [NaN]).  The abstract operations follow
    ECMAScript's [Day], [TimeWithinDay], [MakeDay], [MakeTime], [MakeDate],
    [YearFromTime], [MonthFromTime], [DateFromTime] and [WeekDay] on the
    proleptic Gregorian calendar.  The local time zone is taken to be UTC
    without daylight saving, so local and UTC getters agree. *)

Module JSDate.

Local Open Scope Z_scope.

Definition msPerDay : Z := 86400000.

Definition Day (t : Z) : Z := t / msPerDay.
Definition TimeWithinDay (t : Z) : Z := t mod msPerDay.

(** Day number of the civil date [y]-[m]-[d], [m] in 1..12. *)
Definition days_from_civil (y m d : Z) : Z :=
  let y' := if m <=? 2 then y - 1 else y in
  let era := y' / 400 in
  let yoe := y' - era * 400 in
  let mp := (m + 9) mod 12 in
  let doy := (153 * mp + 2) / 5 + d - 1 in
  let doe := yoe * 365 + yoe / 4 - yoe / 100 + doy in
  era * 146097 + doe - 719468.

(** Civil date (year, month in 1..12, day of month) of a day number. *)
Definition civil_from_days (z : Z) : Z * Z * Z :=
  let z' := z + 719468 in
  let era := z' / 146097 in
  let doe := z' - era * 146097 in
  let yoe := (doe - doe / 1460 + doe / 36524 - doe / 146096) / 365 in
  let y := yoe + era * 400 in
  let doy := doe - (365 * yoe + yoe / 4 - yoe / 100) in
  let mp := (5 * doy + 2) / 153 in
  let d := doy - (153 * mp + 2) / 5 + 1 in
  let m := if mp <? 10 then mp + 3 else mp - 9 in
  (if m <=? 2 then y + 1 else y, m, d).

Definition YearFromTime (t : Z) : Z :=
  let '(y, _, _) := civil_from_days (Day t) in y.
(** Month number, 0 = January. *)
Definition MonthFromTime (t : Z) : Z :=
  let '(_, m, _) := civil_from_days (Day t) in m - 1.
Definition DateFromTime (t : Z) : Z :=
  let '(_, _, d) := civil_from_days (Day t) in d.
(** 0 = Sunday; day 0 of the epoch is a Thursday. *)
Definition WeekDay (t : Z) : Z := (Day t + 4) mod 7.

(** [MakeDay]: months outside 0..11 carry into the year, and the day of
    month is an offset from the first of that month, so a day past the end
    of the month rolls over into the following month. *)
Definition MakeDay (year month date : Z) : Z :=
  let ym := year + month / 12 in
  let mn := month mod 12 in
  days_from_civil ym (mn + 1) 1 + date - 1.

Definition MakeTime (hour min sec ms : Z) : Z :=
  hour * 3600000 + min * 60000 + sec * 1000 + ms.

Definition MakeDate (day time : Z) : Z := day * msPerDay + time.

Inductive Date : Type :=
| DateAt (t : Z)
| InvalidDate.

(** [TimeClip] *)
Definition timeClip (t : Z) : Date :=
  if Z.abs t <=? 8640000000000000 then DateAt t else InvalidDate.

(** Getters; [None] stands for the [NaN] an Invalid Date returns. *)
Definition getter (f : Z -> Z) (d : Date) : option Z :=
  match d with DateAt t => Some (f t) | InvalidDate => None end.

Definition getFullYear : Date -> option Z := getter YearFromTime.
Definition getMonth : Date -> option Z := getter MonthFromTime.
Definition getDate : Date -> option Z := getter DateFromTime.
Definition getDay : Date -> option Z := getter WeekDay.

(** Arithmetic on getter results; [NaN] is absorbing. *)
Definition oadd (a b : option Z) : option Z :=
  match a, b with Some x, Some y => Some (x + y) | _, _ => None end.
Definition osub (a b : option Z) : option Z :=
  match a, b with Some x, Some y => Some (x - y) | _, _ => None end.

(** [d.setDate(n)] *)
Definition setDate (d : Date) (n : option Z) : Date :=
  match d, n with
  | DateAt t, Some n =>
      timeClip (MakeDate (MakeDay (YearFromTime t) (MonthFromTime t) n)
                         (TimeWithinDay t))
  | _, _ => InvalidDate
  end.

(** [d.setMonth(m)] *)
Definition setMonth (d : Date) (m : option Z) : Date :=
  match d, m with
  | DateAt t, Some m =>
      timeClip (MakeDate (MakeDay (YearFromTime t) m (DateFromTime t))
                         (TimeWithinDay t))
  | _, _ => InvalidDate
  end.

(** [d.setHours(h, m, s, ms)] *)
Definition setHours (d : Date) (h m s ms : Z) : Date :=
  match d with
  | DateAt t => timeClip (MakeDate (Day t) (MakeTime h m s ms))
  | InvalidDate => InvalidDate
  end.

(** [new Date(year, month, date)]; a year in 0..99 means 1900 + year. *)
Definition newDate (year month date : option Z) : Date :=
  match year, month, date with
  | Some y, Some m, Some d =>
      let yr := if (0 <=? y) && (y <=? 99) then 1900 + y else y in
      timeClip (MakeDate (MakeDay yr m d) 0)
  | _, _, _ => InvalidDate
  end.

(** [new Date(year, month, date, h, m, s, ms)] *)
Definition newDateTime (year month date h m s ms : Z) : Date :=
  setHours (newDate (Some year) (Some month) (Some date)) h m s ms.

End JSDate.

Import JSDate.

(* ================================================================== *)
(** ** Date ranges and period configuration *)
(* ================================================================== *)

Open Scope string_scope.

Definition string_of_Z (z : Z) : string :=
  DecimalString.NilZero.string_of_int (Z.to_int z).

(** Template-literal rendering of a getter result. *)
Definition numToString (n : option Z) : string :=
  match n with Some z => string_of_Z z | None => "NaN" end.

Definition months : list string :=
  ["Jan"; "Feb"; "Mar"; "Apr"; "May"; "Jun";
   "Jul"; "Aug"; "Sep"; "Oct"; "Nov"; "Dec"].

(** [`${months[i]}`]: an index that is [NaN] or out of range renders as
    [undefined]. *)
Definition monthName (i : option Z) : string :=
  match i with
  | Some z => if (z <? 0)%Z then "undefined"
              else nth (Z.to_nat z) months "undefined"
  | None => "undefined"
  end.

(** [s.slice(-2)] *)
Definition sliceLast2 (s : string) : string :=
  let n := String.length s in
  substring (n - 2) 2 s.

(** [String(n).padStart(2, '0')] *)
Definition pad2 (n : option Z) : string :=
  let s := numToString n in
  if (String.length s <? 2)%nat then "0" ++ s else s.

(** [a === b] on getter results. *)
Definition oeqb (a b : option Z) : bool :=
  match a, b with Some x, Some y => (x =? y)%Z | _, _ => false end.

(** [a > b] on getter results. *)
Definition ogtb (a b : option Z) : bool :=
  match a, b with Some x, Some y => (y <? x)%Z | _, _ => false end.

Record DateRange : Type := mkDateRange {
  range_start : Date;
  range_end : Date;
  label : string
}.

Record PeriodConfig : Type := mkPeriodConfig {
  periodType : string;
  currentRange : DateRange;
  comparisonRange : DateRange;
  comparisonLabel : string
}.

Definition formatMonthYear (date : Date) : string :=
  let year := sliceLast2 (numToString (getFullYear date)) in
  monthName (getMonth date) ++ "-" ++ year.

Definition formatDateRange (start end_ : Date) : string :=
  let sameMonth :=
    oeqb (getMonth start) (getMonth end_) &&
    oeqb (getFullYear start) (getFullYear end_) in
  if sameMonth then
    monthName (getMonth start) ++ " " ++ numToString (getDate start) ++ "-"
      ++ numToString (getDate end_) ++ ", " ++ numToString (getFullYear start)
  else
    let sameYear := oeqb (getFullYear start) (getFullYear end_) in
    if sameYear then
      monthName (getMonth start) ++ " " ++ numToString (getDate start)
        ++ " - " ++ monthName (getMonth end_) ++ " "
        ++ numToString (getDate end_) ++ ", "
        ++ numToString (getFullYear start)
    else
      monthName (getMonth start) ++ " " ++ numToString (getDate start)
        ++ ", " ++ numToString (getFullYear start) ++ " - "
        ++ monthName (getMonth end_) ++ " " ++ numToString (getDate end_)
        ++ ", " ++ numToString (getFullYear end_).

Definition formatDateForQuery (date : Date) : string :=
  numToString (getFullYear date) ++ "-"
    ++ pad2 (oadd (getMonth date) (Some 1%Z)) ++ "-" ++ pad2 (getDate date).

Definition formatDateTimeForQuery (date : Date) : string :=
  formatDateForQuery date ++ " 00:00:00".

Definition formatDateTimeEndForQuery (date : Date) : string :=
  formatDateForQuery date ++ " 23:59:59".

Definition getWeekRange (date : Date) : DateRange :=
  let d := date in
  let day := getDay d in
  let sunday := setDate d (osub (getDate d) day) in
  let sunday := setHours sunday 0 0 0 0 in
  let saturday := setDate sunday (oadd (getDate sunday) (Some 6%Z)) in
  let saturday := setHours saturday 23 59 59 999 in
  {| range_start := sunday; range_end := saturday;
     label := formatDateRange sunday saturday |}.

Definition getWeekToDateRange (date : Date) : DateRange :=
  let d := date in
  let day := getDay d in
  let sunday := setDate d (osub (getDate d) day) in
  let sunday := setHours sunday 0 0 0 0 in
  let endDate := setHours d 23 59 59 999 in
  {| range_start := sunday; range_end := endDate;
     label := formatDateRange sunday endDate |}.

Definition getMonthToDateRange (date : Date) : DateRange :=
  let d := date in
  let monthStart := newDate (getFullYear d) (getMonth d) (Some 1%Z) in
  let monthStart := setHours monthStart 0 0 0 0 in
  let current := setHours d 23 59 59 999 in
  {| range_start := monthStart; range_end := current;
     label := formatDateRange monthStart current |}.

Definition getPreviousWeekRange (date : Date) : DateRange :=
  let currentWeek := getWeekRange date in
  let prevSunday := range_start currentWeek in
  let prevSunday := setDate prevSunday (osub (getDate prevSunday) (Some 7%Z)) in
  let prevSaturday :=
    setDate prevSunday (oadd (getDate prevSunday) (Some 6%Z)) in
  let prevSaturday := setHours prevSaturday 23 59 59 999 in
  {| range_start := prevSunday; range_end := prevSaturday;
     label := formatDateRange prevSunday prevSaturday |}.

Definition getSamePeriodLastMonth (range : DateRange) : DateRange :=
  let startPrevMonth := range_start range in
  let startPrevMonth :=
    setMonth startPrevMonth (osub (getMonth startPrevMonth) (Some 1%Z)) in
  let endPrevMonth := range_end range in
  let endPrevMonth :=
    setMonth endPrevMonth (osub (getMonth endPrevMonth) (Some 1%Z)) in
  let daysInPrevMonth :=
    getDate (newDate (getFullYear startPrevMonth)
                     (oadd (getMonth startPrevMonth) (Some 1%Z))
                     (Some 0%Z)) in
  let endPrevMonth :=
    if ogtb (getDate endPrevMonth) daysInPrevMonth
    then setDate endPrevMonth daysInPrevMonth
    else endPrevMonth in
  {| range_start := startPrevMonth; range_end := endPrevMonth;
     label := formatDateRange startPrevMonth endPrevMonth |}.

Definition getWeeklyAverageRange (date : Date) (weeks : Z) : DateRange :=
  let currentWeek := getWeekRange date in
  let startDate := range_start currentWeek in
  let startDate :=
    setDate startDate (osub (getDate startDate) (Some (weeks * 7)%Z)) in
  let endDate := range_start currentWeek in
  let endDate := setDate endDate (osub (getDate endDate) (Some 1%Z)) in
  let endDate := setHours endDate 23 59 59 999 in
  {| range_start := startDate; range_end := endDate;
     label := "Past " ++ string_of_Z weeks ++ " weeks avg" |}.

Definition getMonthRange (date : Date) : DateRange :=
  let monthStart := newDate (getFullYear date) (getMonth date) (Some 1%Z) in
  let monthStart := setHours monthStart 0 0 0 0 in
  let monthEnd :=
    newDate (getFullYear date) (oadd (getMonth date) (Some 1%Z)) (Some 0%Z) in
  let monthEnd := setHours monthEnd 23 59 59 999 in
  {| range_start := monthStart; range_end := monthEnd;
     label := formatMonthYear date |}.

Definition getPreviousMonthRange (date : Date) : DateRange :=
  let prevMonth :=
    newDate (getFullYear date) (osub (getMonth date) (Some 1%Z)) (Some 1%Z) in
  getMonthRange prevMonth.

Definition getRolling7DayRange (date : Date) : DateRange :=
  let end_ := setHours date 23 59 59 999 in
  let start := setDate date (osub (getDate date) (Some 6%Z)) in
  let start := setHours start 0 0 0 0 in
  {| range_start := start; range_end := end_;
     label := formatDateRange start end_ |}.

(** The ['mom'] case of [getPeriodConfig], which its [default] case
    re-enters through [getPeriodConfig('mom', referenceDate)]. *)
Definition periodConfigMoM (referenceDate : Date) : PeriodConfig :=
  let currentRange := getMonthRange referenceDate in
  let comparisonRange := getPreviousMonthRange referenceDate in
  {| periodType := "mom";
     currentRange := currentRange;
     comparisonRange := comparisonRange;
     comparisonLabel := "vs " ++ label comparisonRange |}.

(** [comparisonType] is a string at run time; the [ComparisonType] union
    is erased, so any string can reach the [switch]. *)
Definition getPeriodConfig (comparisonType : string) (referenceDate : Date)
  : PeriodConfig :=
  if comparisonType =? "mom" then periodConfigMoM referenceDate
  else if comparisonType =? "wow" then
    let currentRange := getWeekRange referenceDate in
    let comparisonRange := getPreviousWeekRange referenceDate in
    {| periodType := "wow";
       currentRange := currentRange;
       comparisonRange := comparisonRange;
       comparisonLabel := "vs last week" |}
  else if comparisonType =? "mtd" then
    let currentRange := getMonthToDateRange referenceDate in
    let comparisonRange := getSamePeriodLastMonth currentRange in
    {| periodType := "mtd";
       currentRange := currentRange;
       comparisonRange := comparisonRange;
       comparisonLabel := "vs " ++ label comparisonRange |}
  else if comparisonType =? "wtd" then
    let currentRange := getWeekToDateRange referenceDate in
    let comparisonRange := getWeeklyAverageRange referenceDate 4 in
    {| periodType := "wtd";
       currentRange := currentRange;
       comparisonRange := comparisonRange;
       comparisonLabel := "vs 4-week avg" |}
  else periodConfigMoM referenceDate.

Close Scope string_scope.

(** Calendar fields of a date: year, month (0 = January), day of month. *)
Definition civilOf (d : Date) : option Z * option Z * option Z :=
  (getFullYear d, getMonth d, getDate d).

(** A month-to-date style range: the first of month [m] through day [d]
    of the same month, end of day. *)
Definition rangeOfMonthDays (y m d : Z) : DateRange :=
  let start := newDateTime y m 1 0 0 0 0 in
  let end_ := newDateTime y m d 23 59 59 999 in
  {| range_start := start; range_end := end_;
     label := formatDateRange start end_ |}.

(** *** "Same period last month" as the specification words it *)

Definition spec_isLeapYear (y : Z) : bool :=
  ((y mod 4 =? 0) && negb (y mod 100 =? 0) || (y mod 400 =? 0))%Z%bool.

(** Number of days of month [m] (0 = January) of year [y]. *)
Definition spec_daysInMonth (y m : Z) : Z :=
  (if m =? 1 then (if spec_isLeapYear y then 29 else 28)
   else if (m =? 3) || (m =? 5) || (m =? 8) || (m =? 10) then 30
   else 31)%Z.

(** One month earlier, the day number clamped to the last day of the
    target month. *)
Definition spec_sameDayLastMonth (y m d : Z) : Z * Z * Z :=
  let '(y', m') := (if m =? 0 then (y - 1, 11) else (y, m - 1))%Z in
  (y', m', Z.min d (spec_daysInMonth y' m')).

Definition civilSome (c : Z * Z * Z) : option Z * option Z * option Z :=
  let '(y, m, d) := c in (Some y, Some m, Some d).

Definition civil_eqb (a b : option Z * option Z * option Z) : bool :=
  let '(ay, am, ad) := a in
  let '(by_, bm, bd) := b in
  oeqb ay by_ && oeqb am bm && oeqb ad bd.

(** Does the end of [getSamePeriodLastMonth] applied to the range
    [1..d] of month [m] of year [y] fall on the clamped day? *)
Definition endIsClamped (y m d : Z) : bool :=
  civil_eqb (civilOf (range_end (getSamePeriodLastMonth (rangeOfMonthDays y m d))))
            (civilSome (spec_sameDayLastMonth y m d)).

(** Integers [lo, lo+1, ..., lo+n-1]. *)
Definition Zrange (lo : Z) (n : nat) : list Z :=
  map (fun i => (lo + Z.of_nat i)%Z) (seq 0 n).

(** Over the years 2020..2031: the end is the clamped day exactly when day
    [d] exists in the previous month. *)
Definition clampedExactlyWhenDayExists : bool :=
  forallb (fun y =>
    forallb (fun m =>
      forallb (fun d =>
        let '(y', m', _) := spec_sameDayLastMonth y m d in
        Bool.eqb (endIsClamped y m d) (d <=? spec_daysInMonth y' m')%Z)
        (Zrange 1 (Z.to_nat (spec_daysInMonth y m))))
      (Zrange 0 12))
    (Zrange 2020 12).

(* ================================================================== *)
(** ** Parsing query rows ([parseKPIResults]) *)
(* ================================================================== *)

(** One row of the query result.  Every column arrives as a string; [None]
    stands for a [null] or missing column. *)
Record RawKPIRow : Type := mkRawKPIRow {
  row_model : option string;
  row_direction : option string;
  row_accounts : option string;
  row_calls : option string;
  row_connects : option string;
  row_rpcs : option string;
  row_promises : option string;
  row_cash_payments : option string;
  row_transfers : option string;
  row_duration_minutes : option string;
  row_completed_verifications : option string;
  row_dollar_promised : option string;
  row_dollar_collected : option string;
  row_payment_attempts : option string;
  row_payment_successful : option string;
  row_payment_declined : option string;
  row_payment_api_failed : option string
}.

(** The values parsed from one row at the top of the loop body. *)
Record ParsedRow : Type := mkParsedRow {
  p_accounts : number;
  p_calls : number;
  p_connects : number;
  p_rpcs : number;
  p_promises : number;
  p_cashPayments : number;
  p_transfers : number;
  p_durationMinutes : number;
  p_completedVerifications : number;
  p_dollarPromised : number;
  p_dollarCollected : number
}.

(** [raw.x += ...] for the ten fields of a collections accumulator. *)
Definition addCollectionsRow (raw : CollectionsRaw) (p : ParsedRow)
  : CollectionsRaw :=
  {| raw_accounts := raw_accounts raw + p_accounts p;
     raw_calls := raw_calls raw + p_calls p;
     raw_connects := raw_connects raw + p_connects p;
     raw_rpcs := raw_rpcs raw + p_rpcs p;
     raw_promises := raw_promises raw + p_promises p;
     raw_cashPayments := raw_cashPayments raw + p_cashPayments p;
     raw_transfers := raw_transfers raw + p_transfers p;
     raw_durationMinutes := raw_durationMinutes raw + p_durationMinutes p;
     raw_dollarPromised := raw_dollarPromised raw + p_dollarPromised p;
     raw_dollarCollected := raw_dollarCollected raw + p_dollarCollected p |}.

(** The welcome / verification accumulation: every RPC is eligible. *)
Definition addWelcomeRow (raw : WelcomeRaw) (p : ParsedRow) : WelcomeRaw :=
  {| wraw_accounts := wraw_accounts raw + p_accounts p;
     wraw_calls := wraw_calls raw + p_calls p;
     wraw_connects := wraw_connects raw + p_connects p;
     wraw_rpcs := wraw_rpcs raw + p_rpcs p;
     wraw_eligible := wraw_eligible raw + p_rpcs p;
     wraw_completed := wraw_completed raw + p_completedVerifications p |}.

Section Parsing.

(** The host functions [parseInt], [parseFloat] (applied to a possibly
    missing column) and [String.prototype.toLowerCase]. *)
Variable parseInt : option string -> number.
Variable parseFloat : option string -> number.
Variable toLowerCase : string -> string.

(** [row.model?.toLowerCase() || ''] *)
Definition lowerOrEmpty (s : option string) : string :=
  match s with
  | Some s => toLowerCase s
  | None => EmptyString
  end.

Definition parseRow (row : RawKPIRow) : ParsedRow :=
  {| p_accounts := or_else (parseInt (row_accounts row)) n0;
     p_calls := or_else (parseInt (row_calls row)) n0;
     p_connects := or_else (parseInt (row_connects row)) n0;
     p_rpcs := or_else (parseInt (row_rpcs row)) n0;
     p_promises := or_else (parseInt (row_promises row)) n0;
     p_cashPayments := or_else (parseInt (row_cash_payments row)) n0;
     p_transfers := or_else (parseInt (row_transfers row)) n0;
     p_durationMinutes := or_else (parseFloat (row_duration_minutes row)) n0;
     p_completedVerifications :=
       or_else (parseInt (row_completed_verifications row)) n0;
     p_dollarPromised := or_else (parseFloat (row_dollar_promised row)) n0;
     p_dollarCollected := or_else (parseFloat (row_dollar_collected row)) n0 |}.

(** The body of [for (const row of rows)]. *)
Definition accumulateRow (acc : RawAccumulators) (row : RawKPIRow)
  : RawAccumulators :=
  let model := lowerOrEmpty (row_model row) in
  let direction := lowerOrEmpty (row_direction row) in
  let p := parseRow row in
  if (model =? "collections")%string then
    if (direction =? "inbound")%string then
      {| collectionsRaw := collectionsRaw acc;
         inboundRaw := addCollectionsRow (inboundRaw acc) p;
         welcomeRaw := welcomeRaw acc;
         verificationRaw := verificationRaw acc |}
    else
      {| collectionsRaw := addCollectionsRow (collectionsRaw acc) p;
         inboundRaw := inboundRaw acc;
         welcomeRaw := welcomeRaw acc;
         verificationRaw := verificationRaw acc |}
  else if (model =? "welcome")%string then
    {| collectionsRaw := collectionsRaw acc;
       inboundRaw := inboundRaw acc;
       welcomeRaw := addWelcomeRow (welcomeRaw acc) p;
       verificationRaw := verificationRaw acc |}
  else if (model =? "verification")%string then
    {| collectionsRaw := collectionsRaw acc;
       inboundRaw := inboundRaw acc;
       welcomeRaw := welcomeRaw acc;
       verificationRaw := addWelcomeRow (verificationRaw acc) p |}
  else if (model =? "inbound")%string then
    {| collectionsRaw := collectionsRaw acc;
       inboundRaw := addCollectionsRow (inboundRaw acc) p;
       welcomeRaw := welcomeRaw acc;
       verificationRaw := verificationRaw acc |}
  else acc.

(** The accumulators after the loop. *)
Definition accumulateRows (rows : list RawKPIRow) : RawAccumulators :=
  fold_left accumulateRow rows zeroAccumulators.

Definition parseKPIResults (rows : list RawKPIRow) : PeriodKPIs :=
  deriveKPIs (accumulateRows rows).

End Parsing.

(** *** Accumulation, as the claim about routing words it *)

(** What a parsed column contributes to a sum: its value, and [0] when the
    text does not parse as a number ([NaN]). *)
Definition spec_contribution (parsed : number) : number :=
  match parsed with
  | NaN => n0
  | _ => parsed
  end.

Section RowContribution.

Variable parseInt : option string -> number.
Variable parseFloat : option string -> number.

(** The collections-shaped accumulator [after] is [before] with the ten
    columns of [row] added, each as its contribution. *)
Definition spec_collectionsRowAdded (before after : CollectionsRaw)
  (row : RawKPIRow) : Prop :=
  raw_accounts after
  = raw_accounts before + spec_contribution (parseInt (row_accounts row)) /\
  raw_calls after
  = raw_calls before + spec_contribution (parseInt (row_calls row)) /\
  raw_connects after
  = raw_connects before + spec_contribution (parseInt (row_connects row)) /\
  raw_rpcs after
  = raw_rpcs before + spec_contribution (parseInt (row_rpcs row)) /\
  raw_promises after
  = raw_promises before + spec_contribution (parseInt (row_promises row)) /\
  raw_cashPayments after
  = raw_cashPayments before
    + spec_contribution (parseInt (row_cash_payments row)) /\
  raw_transfers after
  = raw_transfers before + spec_contribution (parseInt (row_transfers row)) /\
  raw_durationMinutes after
  = raw_durationMinutes before
    + spec_contribution (parseFloat (row_duration_minutes row)) /\
  raw_dollarPromised after
  = raw_dollarPromised before
    + spec_contribution (parseFloat (row_dollar_promised row)) /\
  raw_dollarCollected after
  = raw_dollarCollected before
    + spec_contribution (parseFloat (row_dollar_collected row)).

(** The welcome-shaped accumulator [after] is [before] with the columns of
    [row] added; the RPCs count as eligible. *)
Definition spec_welcomeRowAdded (before after : WelcomeRaw)
  (row : RawKPIRow) : Prop :=
  wraw_accounts after
  = wraw_accounts before + spec_contribution (parseInt (row_accounts row)) /\
  wraw_calls after
  = wraw_calls before + spec_contribution (parseInt (row_calls row)) /\
  wraw_connects after
  = wraw_connects before + spec_contribution (parseInt (row_connects row)) /\
  wraw_rpcs after
  = wraw_rpcs before + spec_contribution (parseInt (row_rpcs row)) /\
  wraw_eligible after
  = wraw_eligible before + spec_contribution (parseInt (row_rpcs row)) /\
  wraw_completed after
  = wraw_completed before
    + spec_contribution (parseInt (row_completed_verifications row)).

(** A count column of [row] whose text does not parse leaves its field
    as it was from [before] to [after]. *)
Definition spec_unparsedCountsAddNothing (before after : CollectionsRaw)
  (row : RawKPIRow) : Prop :=
  (parseInt (row_accounts row) = NaN ->
     raw_accounts after = raw_accounts before) /\
  (parseInt (row_calls row) = NaN -> raw_calls after = raw_calls before) /\
  (parseInt (row_connects row) = NaN ->
     raw_connects after = raw_connects before) /\
  (parseInt (row_rpcs row) = NaN -> raw_rpcs after = raw_rpcs before) /\
  (parseInt (row_promises row) = NaN ->
     raw_promises after = raw_promises before) /\
  (parseInt (row_cash_payments row) = NaN ->
     raw_cashPayments after = raw_cashPayments before) /\
  (parseInt (row_transfers row) = NaN ->
     raw_transfers after = raw_transfers before).

End RowContribution.

(** *** The host functions on 8-bit strings

    Executable models of [parseInt] (radix argument absent),
    [parseFloat] and [toLowerCase] following ECMAScript, restricted to
    strings of 8-bit characters: only ASCII white space is skipped and
    only ASCII letters change case.  Parsed values are exact. *)

Module Host.

Local Open Scope Z_scope.

Definition codeOf (c : ascii) : Z := Z.of_nat (nat_of_ascii c).

Definition isWhiteSpace (c : ascii) : bool :=
  let n := codeOf c in
  ((9 <=? n) && (n <=? 13)) || (n =? 32).

Fixpoint trimStart (s : string) : string :=
  match s with
  | String c r => if isWhiteSpace c then trimStart r else s
  | EmptyString => s
  end.

(** Value of a character as a digit of the given radix. *)
Definition digitValue (radix : Z) (c : ascii) : option Z :=
  let n := codeOf c in
  let v :=
    if (48 <=? n) && (n <=? 57) then n - 48
    else if (97 <=? n) && (n <=? 122) then n - 87
    else if (65 <=? n) && (n <=? 90) then n - 55
    else radix in
  if v <? radix then Some v else None.

(** Longest prefix of digits: its value, its length, and the rest. *)
Fixpoint spanDigits (radix : Z) (s : string) (acc : Z) (len : nat)
  : Z * nat * string :=
  match s with
  | String c r =>
      match digitValue radix c with
      | Some v => spanDigits radix r (acc * radix + v) (S len)
      | None => (acc, len, s)
      end
  | EmptyString => (acc, len, s)
  end.

(** Optional sign: the factor and the rest. *)
Definition stripSign (s : string) : Z * string :=
  match s with
  | String "-"%char r => (-1, r)
  | String "+"%char r => (1, r)
  | _ => (1, s)
  end.

(** [ToString] of the argument: a missing column reads ["undefined"]. *)
Definition toStringArg (s : option string) : string :=
  match s with Some s => s | None => "undefined"%string end.

Definition parseInt (arg : option string) : number :=
  let s := trimStart (toStringArg arg) in
  let '(sign, s) := stripSign s in
  let '(radix, s) :=
    match s with
    | String "0"%char (String "x"%char r) => (16, r)
    | String "0"%char (String "X"%char r) => (16, r)
    | _ => (10, s)
    end in
  let '(v, len, _) := spanDigits radix s 0 0 in
  match len with
  | O => NaN
  | S _ => ofZ (sign * v)
  end.

(** [mant * 10 ^ e] as a rational. *)
Definition scale10 (mant e : Z) : Q :=
  if 0 <=? e then inject_Z (mant * 10 ^ e)
  else Qmake mant (Z.to_pos (10 ^ (- e))).

(** The exponent part [e|E [+|-] digits], when present and well formed. *)
Definition exponentPart (s : string) : Z :=
  match s with
  | String c r =>
      if (codeOf c =? 101) || (codeOf c =? 69) then
        let '(sign, r) := stripSign r in
        let '(v, len, _) := spanDigits 10 r 0 0 in
        match len with O => 0 | S _ => sign * v end
      else 0
  | EmptyString => 0
  end.

Definition parseFloat (arg : option string) : number :=
  let s := trimStart (toStringArg arg) in
  let '(sign, s) := stripSign s in
  if prefix "Infinity" s then (if sign <? 0 then NegInf else PosInf)
  else
    let '(ip, ilen, s) := spanDigits 10 s 0 0 in
    let '(mant, flen, s) :=
      match s with
      | String "."%char r => spanDigits 10 r ip 0
      | _ => (ip, O, s)
      end in
    match (ilen + flen)%nat with
    | O => NaN
    | S _ => ofQ (scale10 (sign * mant) (exponentPart s - Z.of_nat flen))
    end.

Definition lowerChar (c : ascii) : ascii :=
  let n := codeOf c in
  if (65 <=? n) && (n <=? 90) then ascii_of_nat (Z.to_nat (n + 32)) else c.

Fixpoint toLowerCase (s : string) : string :=
  match s with
  | String c r => String (lowerChar c) (toLowerCase r)
  | EmptyString => EmptyString
  end.

End Host.

(** A row with the given model, direction and the same text in every
    numeric column. *)
Definition uniformRow (model direction : option string) (text : string)
  : RawKPIRow :=
  {| row_model := model; row_direction := direction;
     row_accounts := Some text; row_calls := Some text;
     row_connects := Some text; row_rpcs := Some text;
     row_promises := Some text; row_cash_payments := Some text;
     row_transfers := Some text; row_duration_minutes := Some text;
     row_completed_verifications := Some text;
     row_dollar_promised := Some text; row_dollar_collected := Some text;
     row_payment_attempts := Some text; row_payment_successful := Some text;
     row_payment_declined := Some text;
     row_payment_api_failed := Some text |}.

(* ================================================================== *)
(** ** The KPI route handler ([src/app/api/kpis/route.ts]) *)
(* ================================================================== *)

(** The query parameters [GET] reads; [None] is the [null] of
    [searchParams.get]. *)
Record KPIRequest : Type := mkKPIRequest {
  q_view : option string;
  q_client : option string;
  q_month : option string;
  q_excludeWestlake : option string;
  q_periodType : option string;
  q_referenceDate : option string
}.

(** The fetch function [GET] calls, with its arguments. *)
Inductive FetchCall : Type :=
| CallFetchPerClientKPIsWithDateRange
    (client : string) (current comparison : DateRange) (periodType : string)
| CallFetchConsolidatedKPIsWithDateRange
    (current comparison : DateRange) (periodType : string)
    (excludeWestlake : bool)
| CallFetchPerClientKPIs (client month : string)
| CallFetchConsolidatedKPIs (month : string) (excludeWestlake : bool).

(** What the handler does first: it either issues a fetch or answers
    with an error without having fetched. *)
Inductive FirstStep : Type :=
| IssueFetch (call : FetchCall)
| RespondError (status : Z) (message : string).

(** [s || fallback] on a nullable string: [null] and the empty string are
    falsy. *)
Definition strOr (s : option string) (fallback : string) : string :=
  match s with
  | Some EmptyString | None => fallback
  | Some s => s
  end.

Section Route.

(** [new Date(referenceDateStr)]: the host's date parser, which yields the
    Invalid Date on a string it does not recognise. *)
Variable Date_parse : string -> Date.

(** [new Date().toISOString().slice(0, 7)] at the time of the request. *)
Variable currentMonth : string.

Definition GET (req : KPIRequest) : FirstStep :=
  let viewType := strOr (q_view req) "per-client" in
  let client := strOr (q_client req) "exeter" in
  let month := strOr (q_month req) currentMonth in
  let excludeWestlake :=
    match q_excludeWestlake req with
    | Some s => (s =? "true")%string
    | None => false
    end in
  let periodType := strOr (q_periodType req) EmptyString in
  let referenceDateStr := strOr (q_referenceDate req) EmptyString in
  if negb (periodType =? "")%string && negb (referenceDateStr =? "")%string
  then
    let referenceDate := Date_parse referenceDateStr in
    let periodConfig := getPeriodConfig periodType referenceDate in
    if (viewType =? "per-client")%string then
      IssueFetch (CallFetchPerClientKPIsWithDateRange
                    client (currentRange periodConfig)
                    (comparisonRange periodConfig) periodType)
    else
      IssueFetch (CallFetchConsolidatedKPIsWithDateRange
                    (currentRange periodConfig)
                    (comparisonRange periodConfig) periodType excludeWestlake)
  else
    if (viewType =? "per-client")%string then
      IssueFetch (CallFetchPerClientKPIs client month)
    else
      IssueFetch (CallFetchConsolidatedKPIs month excludeWestlake).

End Route.

(** A date parser that recognises no string. *)
Definition rejectingParser (s : string) : Date := InvalidDate.

Definition isKnownComparisonType (s : string) : bool :=
  ((s =? "mom") || (s =? "wow") || (s =? "mtd") || (s =? "wtd"))%string.

(* ================================================================== *)
(** ** Fetch orchestration ([fetchConsolidatedKPIsWithDateRange]) *)
(* ================================================================== *)

(** Outcome of an [async] function: the value it resolves to, or the error
    it rejects with. *)
Inductive Result (A : Type) : Type :=
| Ok (a : A)
| Err (message : string).
Arguments Ok {A} a.
Arguments Err {A} message.

(** The slices [l.slice(i, i + size)] for [i = 0, size, 2 * size, ...]
    visited by the batching loops (the source uses sizes 5 and 30; a size
    of 0 is read as 1). *)
Equations? batches {A : Type} (size : nat) (l : list A) : list (list A)
  by wf (List.length l) Nat.lt :=
  batches size [] := [];
  batches size (x :: r) :=
    firstn (S (Nat.pred size)) (x :: r)
      :: batches size (skipn (S (Nat.pred size)) (x :: r)).
Proof.
  simpl. pose proof (length_skipn (Nat.pred size) r). lia.
Qed.

Record ConsolidatedViewData : Type := mkConsolidatedViewData {
  currentPeriod : PeriodKPIs;
  previousPeriod : PeriodKPIs;
  currentPeriodLabel : string;
  previousPeriodLabel : string;
  comparisonType : string;
  comparisonContext : string
}.

(** The [period] tag of a batch result. *)
Inductive PeriodTag : Type := tag_current | tag_comparison.

Section Orchestrator.

Variable parseInt : option string -> number.
Variable parseFloat : option string -> number.
Variable toLowerCase : string -> string.

(** The data store: the rows answered to the query built by
    [buildClientKPIQuery(client, startDate, endDate)], or [None] when
    [clickhouse.query] or [result.json] rejects (network, timeout or store
    error). *)
Variable query : string -> string -> string -> option (list RawKPIRow).

(** The [try ... catch] of [fetchClientData] and of the scorecard task. *)
Definition fetchClientData (client startDate endDate : string) : PeriodKPIs :=
  match query client startDate endDate with
  | Some rows => parseKPIResults parseInt parseFloat toLowerCase rows
  | None => emptyPeriodKPIs
  end.

(** [batch.flatMap(client => [current fetch, comparison fetch])] awaited by
    [Promise.all]: no task rejects, so the results arrive in task order. *)
Definition fetchBatch (currentStart currentEnd compStart compEnd : string)
  (batch : list string) : list (PeriodTag * PeriodKPIs) :=
  flat_map (fun client =>
              [ (tag_current, fetchClientData client currentStart currentEnd);
                (tag_comparison, fetchClientData client compStart compEnd) ])
           batch.

(** [for (const { period, kpis } of batchResults)] *)
Definition addBatchResult (totals : PeriodKPIs * PeriodKPIs)
  (r : PeriodTag * PeriodKPIs) : PeriodKPIs * PeriodKPIs :=
  let '(currentTotal, comparisonTotal) := totals in
  match fst r with
  | tag_current => (sumPeriodKPIs currentTotal (snd r), comparisonTotal)
  | tag_comparison => (currentTotal, sumPeriodKPIs comparisonTotal (snd r))
  end.

(** [for (let i = 0; i < clients.length; i += 5)] *)
Definition sumClientBatches
  (currentStart currentEnd compStart compEnd : string)
  (clients : list string) : PeriodKPIs * PeriodKPIs :=
  fold_left
    (fun totals batch =>
       fold_left addBatchResult
         (fetchBatch currentStart currentEnd compStart compEnd batch) totals)
    (batches 5 clients)
    (emptyPeriodKPIs, emptyPeriodKPIs).

(** [fetchConsolidatedKPIsWithDateRange]; [availableClients] is the outcome
    of [getAvailableClients], the only awaited call outside a [try/catch]. *)
Definition fetchConsolidatedKPIsWithDateRange
  (availableClients : Result (list string))
  (currentRange comparisonRange : DateRange) (comparisonType : string)
  (excludeWestlake : bool) : Result ConsolidatedViewData :=
  let currentStart := formatDateTimeForQuery (range_start currentRange) in
  let currentEnd := formatDateTimeEndForQuery (range_end currentRange) in
  let compStart := formatDateTimeForQuery (range_start comparisonRange) in
  let compEnd := formatDateTimeEndForQuery (range_end comparisonRange) in
  match availableClients with
  | Err message => Err message
  | Ok availableClients =>
      let clients :=
        if excludeWestlake
        then filter (fun c => negb (c =? "westlake")%string) availableClients
        else availableClients in
      let '(currentTotal, comparisonTotal) :=
        sumClientBatches currentStart currentEnd compStart compEnd clients in
      let currentTotal := recalculateDerivedMetrics currentTotal in
      let comparisonTotal := recalculateDerivedMetrics comparisonTotal in
      Ok {| currentPeriod := currentTotal;
            previousPeriod := comparisonTotal;
            currentPeriodLabel := label currentRange;
            previousPeriodLabel := label comparisonRange;
            comparisonType := comparisonType;
            comparisonContext := ("vs " ++ label comparisonRange)%string |}
  end.

End Orchestrator.

(* ================================================================== *)
(** ** Scorecard batch ([fetchAllClientsScorecardData]) *)
(* ================================================================== *)

(** [total.x / divisor] on the raw fields, rates set to [0]. *)
Definition averageCollections (total : CollectionsMetrics) (divisor : number)
  : CollectionsMetrics :=
  {| accounts := accounts total / divisor;
     calls := calls total / divisor;
     callsPerAccount := n0;
     connects := connects total / divisor;
     connectRate := n0;
     rpcs := rpcs total / divisor;
     rpcRate := n0;
     promises := promises total / divisor;
     promisesPerRpc := n0;
     cashPayments := cashPayments total / divisor;
     cashPerRpc := n0;
     cashPerPromises := n0;
     transfers := transfers total / divisor;
     transfersPerRpc := n0;
     timeOnCallHours := timeOnCallHours total / divisor;
     avgTimePerCallMin := n0;
     dollarPromised := dollarPromised total / divisor;
     dollarCollected := dollarCollected total / divisor;
     avgPaymentAmount := n0;
     dollarPerRpc := n0 |}.

Definition averageWelcome (total : WelcomeVerificationMetrics)
  (divisor : number) : WelcomeVerificationMetrics :=
  {| wv_accounts := wv_accounts total / divisor;
     wv_calls := wv_calls total / divisor;
     wv_callsPerAccount := n0;
     wv_connects := wv_connects total / divisor;
     wv_connectRate := n0;
     wv_rpcs := wv_rpcs total / divisor;
     wv_rpcRate := n0;
     wv_eligible := wv_eligible total / divisor;
     wv_eligiblePerRpc := n0;
     wv_completed := wv_completed total / divisor;
     wv_completedPerEligible := n0;
     wv_completedPerRpc := n0;
     wv_incomplete := wv_incomplete total / divisor |}.

Definition averageWeeklyKPIs (weeklyKPIs : list PeriodKPIs) : PeriodKPIs :=
  match weeklyKPIs with
  | [] => emptyPeriodKPIs
  | _ :: _ =>
      let total := fold_left sumPeriodKPIs weeklyKPIs emptyPeriodKPIs in
      let divisor := ofNat (List.length weeklyKPIs) in
      let averaged :=
        {| collections := averageCollections (collections total) divisor;
           inbound := averageCollections (inbound total) divisor;
           welcome := averageWelcome (welcome total) divisor;
           verification := averageWelcome (verification total) divisor |} in
      recalculateDerivedMetrics averaged
  end.

Record ClientScorecardData : Type := mkClientScorecardData {
  sd_client : string;
  sd_displayName : string;
  sd_callVolume : ScorecardMetric;
  sd_connectRate : ScorecardMetric;
  sd_rpcRate : ScorecardMetric;
  sd_promiseRate : ScorecardMetric;
  sd_paymentSuccess : ScorecardMetric;
  sd_dollarCollected : ScorecardMetric;
  sd_overallScore : number;
  sd_overallStatus : HealthStatus;
  sd_currentPeriodLabel : string;
  sd_comparisonLabel : string
}.

Record AllClientsScorecardData : Type := mkAllClientsScorecardData {
  sc_clients : list ClientScorecardData;
  sc_currentRange : DateRange;
  sc_comparisonDescription : string;
  sc_generatedAt : string
}.

(** [type QueryTask] *)
Record QueryTask : Type := mkQueryTask {
  task_client : string;
  task_weekIndex : nat;
  task_range : string * string
}.

(** The [Map<string, PeriodKPIs[]>] named [queryResults]: keys in insertion
    order, each with its array of slots ([None] is [null]). *)
Definition KpiMap : Type := list (string * list (option PeriodKPIs)).

Fixpoint mapGet (m : KpiMap) (k : string) : option (list (option PeriodKPIs)) :=
  match m with
  | [] => None
  | (k', v) :: r => if (k' =? k)%string then Some v else mapGet r k
  end.

Fixpoint mapSet (m : KpiMap) (k : string) (v : list (option PeriodKPIs))
  : KpiMap :=
  match m with
  | [] => [(k, v)]
  | (k', v') :: r =>
      if (k' =? k)%string then (k, v) :: r else (k', v') :: mapSet r k v
  end.

(** [arr[i] = v]; an index past the end extends the array with holes. *)
Definition arraySet {A : Type} (arr : list (option A)) (i : nat) (v : A)
  : list (option A) :=
  firstn i (arr ++ repeat None (i - List.length arr))
    ++ Some v :: skipn (S i) arr.

(** [a > 0 ? (b / a) * 100 : 0] *)
Definition rateOrZero (b a : number) : number :=
  if a >? n0 then (b / a) * n100 else n0.

(** The body of [availableClients.map((client) => ...)], given the
    client's current and baseline KPIs. *)
Definition buildScorecard (displayName : string) (currentLabel : string)
  (client : string) (current baseline : PeriodKPIs) : ClientScorecardData :=
  let currentCalls := calls (collections current) + calls (inbound current) in
  let baselineCalls :=
    calls (collections baseline) + calls (inbound baseline) in
  let currentConnects :=
    connects (collections current) + connects (inbound current) in
  let baselineConnects :=
    connects (collections baseline) + connects (inbound baseline) in
  let currentRpcs := rpcs (collections current) + rpcs (inbound current) in
  let baselineRpcs := rpcs (collections baseline) + rpcs (inbound baseline) in
  let currentPromises :=
    promises (collections current) + promises (inbound current) in
  let baselinePromises :=
    promises (collections baseline) + promises (inbound baseline) in
  let currentPayments :=
    cashPayments (collections current) + cashPayments (inbound current) in
  let baselinePayments :=
    cashPayments (collections baseline) + cashPayments (inbound baseline) in
  let currentDollars :=
    dollarCollected (collections current) + dollarCollected (inbound current) in
  let baselineDollars :=
    dollarCollected (collections baseline)
    + dollarCollected (inbound baseline) in
  let currentConnectRate := rateOrZero currentConnects currentCalls in
  let baselineConnectRate := rateOrZero baselineConnects baselineCalls in
  let currentRpcRate := rateOrZero currentRpcs currentConnects in
  let baselineRpcRate := rateOrZero baselineRpcs baselineConnects in
  let currentPromiseRate := rateOrZero currentPromises currentRpcs in
  let baselinePromiseRate := rateOrZero baselinePromises baselineRpcs in
  let currentPaymentRate := rateOrZero currentPayments currentRpcs in
  let baselinePaymentRate := rateOrZero baselinePayments baselineRpcs in
  let callVolume := createScorecardMetric currentCalls baselineCalls false in
  let connectRate :=
    createScorecardMetric currentConnectRate baselineConnectRate false in
  let rpcRate := createScorecardMetric currentRpcRate baselineRpcRate false in
  let promiseRate :=
    createScorecardMetric currentPromiseRate baselinePromiseRate false in
  let paymentSuccess :=
    createScorecardMetric currentPaymentRate baselinePaymentRate false in
  let dollarCollected :=
    createScorecardMetric currentDollars baselineDollars false in
  let overallScore :=
    calculateOverallScore
      {| sc_callVolume := callVolume; sc_connectRate := connectRate;
         sc_rpcRate := rpcRate; sc_promiseRate := promiseRate;
         sc_paymentSuccess := paymentSuccess;
         sc_dollarCollected := dollarCollected |} in
  {| sd_client := client;
     sd_displayName := displayName;
     sd_callVolume := callVolume;
     sd_connectRate := connectRate;
     sd_rpcRate := rpcRate;
     sd_promiseRate := promiseRate;
     sd_paymentSuccess := paymentSuccess;
     sd_dollarCollected := dollarCollected;
     sd_overallScore := overallScore;
     sd_overallStatus := getOverallStatusFromScore overallScore;
     sd_currentPeriodLabel := currentLabel;
     sd_comparisonLabel := "vs 4-week avg" |}.

(** [for (let w = 1; w <= 4; w++)]: the baseline windows, each ending the
    day before the previous one starts. *)
Definition baselineRange (currentRange : DateRange) (w : Z) : string * string :=
  let periodEnd := range_start currentRange in
  let periodEnd :=
    setDate periodEnd
      (osub (osub (getDate periodEnd) (Some ((w - 1) * 7)%Z)) (Some 1%Z)) in
  let periodRange := getRolling7DayRange periodEnd in
  (formatDateTimeForQuery (range_start periodRange),
   formatDateTimeEndForQuery (range_end periodRange)).

Definition scorecardWeekRanges (currentRange : DateRange)
  : list (string * string) :=
  (formatDateTimeForQuery (range_start currentRange),
   formatDateTimeEndForQuery (range_end currentRange))
    :: map (baselineRange currentRange) [1; 2; 3; 4]%Z.

(** Sequencing of steps that may throw. *)
Definition bindResult {A B : Type} (r : Result A) (f : A -> Result B)
  : Result B :=
  match r with Ok a => f a | Err message => Err message end.

Fixpoint mapResult {A B : Type} (f : A -> Result B) (l : list A)
  : Result (list B) :=
  match l with
  | [] => Ok []
  | x :: r =>
      bindResult (f x) (fun y =>
      bindResult (mapResult f r) (fun ys => Ok (y :: ys)))
  end.

Section Scorecard.

Variable parseInt : option string -> number.
Variable parseFloat : option string -> number.
Variable toLowerCase : string -> string.
Variable query : string -> string -> string -> option (list RawKPIRow).
(** [getClientDisplayName] of [utils.ts]. *)
Variable getClientDisplayName : string -> string.
(** [new Date()] at the start of the call, and the later
    [new Date().toISOString()]. *)
Variable now : Date.
Variable generatedAt : string.

(** One task of [taskBatch.map(async (task) => ...)], with its
    [try ... catch]. *)
Definition runQueryTask (task : QueryTask) : QueryTask * PeriodKPIs :=
  (task,
   fetchClientData parseInt parseFloat toLowerCase query
     (task_client task) (fst (task_range task)) (snd (task_range task))).

(** [const clientResults = queryResults.get(client)!;
     clientResults[weekIndex] = kpis;]
    Reading an index of [undefined] throws. *)
Definition storeResult (m : Result KpiMap) (r : QueryTask * PeriodKPIs)
  : Result KpiMap :=
  bindResult m (fun m =>
    match mapGet m (task_client (fst r)) with
    | Some clientResults =>
        Ok (mapSet m (task_client (fst r))
              (arraySet clientResults (task_weekIndex (fst r)) (snd r)))
    | None => Err "TypeError"
    end).

Definition allQueryTasks (availableClients : list string)
  (weekRanges : list (string * string)) : list QueryTask :=
  flat_map (fun client =>
              map (fun '(weekIndex, range) =>
                     {| task_client := client; task_weekIndex := weekIndex;
                        task_range := range |})
                  (combine (seq 0 (List.length weekRanges)) weekRanges))
           availableClients.

Definition initialResults (availableClients : list string) (slots : nat)
  : KpiMap :=
  fold_left (fun m client => mapSet m client (repeat None slots))
            availableClients [].

(** [for (let i = 0; i < allQueryTasks.length; i += QUERY_BATCH_SIZE)] *)
Definition runQueryBatches (tasks : list QueryTask) (m : KpiMap)
  : Result KpiMap :=
  fold_left
    (fun m taskBatch => fold_left storeResult (map runQueryTask taskBatch) m)
    (batches 30 tasks)
    (Ok m).

(** Current and baseline KPIs of one client, as stored in
    [clientCurrentData] and [clientBaselineData] and read back by the
    final [map]. *)
Definition clientPeriods (m : KpiMap) (client : string)
  : Result (PeriodKPIs * PeriodKPIs) :=
  match mapGet m client with
  | None => Err "TypeError"
  | Some weekResults =>
      let currentKPIs :=
        match nth 0 weekResults None with
        | Some k => k
        | None => emptyPeriodKPIs
        end in
      let baselineKPIs :=
        averageWeeklyKPIs
          (flat_map (fun slot => match slot with Some k => [k] | None => [] end)
                    (skipn 1 weekResults)) in
      Ok (currentKPIs, baselineKPIs)
  end.

Definition fetchAllClientsScorecardData
  (availableClients : Result (list string)) : Result AllClientsScorecardData :=
  let currentRange := getRolling7DayRange now in
  let weekRanges := scorecardWeekRanges currentRange in
  bindResult availableClients (fun availableClients =>
  let tasks := allQueryTasks availableClients weekRanges in
  let queryResults :=
    initialResults availableClients (List.length weekRanges) in
  bindResult (runQueryBatches tasks queryResults) (fun queryResults =>
  bindResult
    (mapResult (fun client =>
                  bindResult (clientPeriods queryResults client)
                    (fun p => Ok (client, p)))
               availableClients)
    (fun periods =>
       Ok {| sc_clients :=
               map (fun '(client, (current, baseline)) =>
                      buildScorecard (getClientDisplayName client)
                        (label currentRange) client current baseline)
                   periods;
             sc_currentRange := currentRange;
             sc_comparisonDescription :=
               "Last 7 days vs 4-week rolling average";
             sc_generatedAt := generatedAt |}))).

End Scorecard.

(** *** Vocabulary for the orchestration properties *)

(** A data store on which every query fails. *)
Definition failingStore (client startDate endDate : string)
  : option (list RawKPIRow) := None.

(** The store that answers no rows wherever [query] fails. *)
Definition maskFailures (query : string -> string -> string
                                 -> option (list RawKPIRow))
  (client startDate endDate : string) : option (list RawKPIRow) :=
  match query client startDate endDate with
  | Some rows => Some rows
  | None => Some []
  end.

(** Every key of [ks] is bound in the map. *)
Definition keysPresent (m : KpiMap) (ks : list string) : Prop :=
  forall k, In k ks -> mapGet m k <> None.

(** Every slot of every array of the map satisfies [P]. *)
Definition allSlots (P : option PeriodKPIs -> Prop) (m : KpiMap) : Prop :=
  forall k arr, mapGet m k = Some arr -> Forall P arr.

(** A slot that is [null] or holds the all-zero record. *)
Definition emptySlot (slot : option PeriodKPIs) : Prop :=
  slot = None \/ slot = Some emptyPeriodKPIs.

(** The consolidated view in which both periods are all zero. *)
Definition zeroConsolidatedView (currentRange comparisonRange : DateRange)
  (comparisonType : string) : ConsolidatedViewData :=
  {| currentPeriod := emptyPeriodKPIs;
     previousPeriod := emptyPeriodKPIs;
     currentPeriodLabel := label currentRange;
     previousPeriodLabel := label comparisonRange;
     comparisonType := comparisonType;
     comparisonContext := ("vs " ++ label comparisonRange)%string |}.

(** The scorecard of a client whose current and baseline KPIs are all
    zero. *)
Definition zeroScorecard (getClientDisplayName : string -> string)
  (now : Date) (client : string) : ClientScorecardData :=
  buildScorecard (getClientDisplayName client)
    (label (getRolling7DayRange now)) client
    emptyPeriodKPIs emptyPeriodKPIs.

Definition isOk {A : Type} (r : Result A) : bool :=
  match r with Ok _ => true | Err _ => false end.

(** The raw aggregate of the derivation tests: integer counts and a
    duration, no dollar amounts. *)
Definition rawOfCounts (acc cl cn rp pr ca tr du : Z) : CollectionsRaw :=
  {| raw_accounts := ofZ acc; raw_calls := ofZ cl; raw_connects := ofZ cn;
     raw_rpcs := ofZ rp; raw_promises := ofZ pr; raw_cashPayments := ofZ ca;
     raw_transfers := ofZ tr; raw_durationMinutes := ofZ du;
     raw_dollarPromised := n0; raw_dollarCollected := n0 |}.

(* ================================================================== *)
(** ** The reducer, the derivation and the score over binary64 *)
(* ================================================================== *)

(** Sums of fractional values, the round trip of a duration through
    [timeOnCallHours] and the weighted score at a tie depend on the
    rounding of each operation.  [Binary64] embeds the functions concerned
    once more with a JavaScript [number] as an IEEE 754 binary64 value:
    Rocq's primitive [float], whose [+], [-], [*] and [/] round to nearest,
    ties to even, and whose comparisons are the IEEE ones ([NaN] unordered,
    [-0] equal to [+0]).  The function bodies are those of the source, as
    in the embedding over exact numbers above. *)

Module Binary64.

Import PrimFloat SpecFloat FloatOps.

Local Open Scope float_scope.

Definition number : Type := float.

(** The binary64 value nearest to an integer (the integer itself below
    2^53 in absolute value). *)
Definition ofZ (n : Z) : number :=
  SF2Prim (binary_normalize prec emax n 0 false).

(** Numeric literals of the source. *)
Definition n0 : number := 0.
Definition n5 : number := 5.
Definition n15 : number := 15.
Definition n35 : number := 35.
Definition n45 : number := 45.
Definition n50 : number := 50.
Definition n55 : number := 55.
Definition n60 : number := 60.
Definition n100 : number := 100.
Definition half : number := 0.5.

(** [x === y] on numbers. *)
Definition strict_eq (x y : number) : bool := x =? y.

(** [x > y] and [x >= y]. *)
Definition gt (x y : number) : bool := y <? x.
Definition ge (x y : number) : bool := y <=? x.

(** [Math.max(x, y)]: [NaN] if either is [NaN]; [+0] is larger than [-0]. *)
Definition Math_max (x y : number) : number :=
  if PrimFloat.is_nan x || PrimFloat.is_nan y then PrimFloat.nan
  else if x <? y then y
  else if y <? x then x
  else if PrimFloat.get_sign x then y else x.

(** [Math.min(x, y)]: [NaN] if either is [NaN]; [-0] is smaller than [+0]. *)
Definition Math_min (x y : number) : number :=
  if PrimFloat.is_nan x || PrimFloat.is_nan y then PrimFloat.nan
  else if x <? y then x
  else if y <? x then y
  else if PrimFloat.get_sign x then x else y.

(** [floor(v + 1/2)] for the value [v] of sign [s], mantissa [m] and
    exponent [e]. *)
Definition roundHalfUp (s : bool) (m : positive) (e : Z) : Z :=
  let M := cond_Zopp s (Zpos m) in
  match e with
  | Zneg k => ((2 * M + 2 ^ Zpos k) / 2 ^ (Zpos k + 1))%Z
  | _ => (M * 2 ^ e)%Z
  end.

(** [Math.round(x)]: the integer nearest to [x], a tie going towards
    [+Infinity]; zeros, infinities and [NaN] are returned unchanged, and a
    result of zero keeps the sign of [x]. *)
Definition Math_round (x : number) : number :=
  match Prim2SF x with
  | S754_finite s m e =>
      let n := roundHalfUp s m e in
      if (n =? 0)%Z then (if s then PrimFloat.neg_zero else 0) else ofZ n
  | _ => x
  end.

(** *** Metric records *)

Record CollectionsMetrics : Type := mkCollectionsMetrics {
  accounts : number;
  calls : number;
  callsPerAccount : number;
  connects : number;
  connectRate : number;
  rpcs : number;
  rpcRate : number;
  promises : number;
  promisesPerRpc : number;
  cashPayments : number;
  cashPerRpc : number;
  cashPerPromises : number;
  transfers : number;
  transfersPerRpc : number;
  timeOnCallHours : number;
  avgTimePerCallMin : number;
  dollarPromised : number;
  dollarCollected : number;
  avgPaymentAmount : number;
  dollarPerRpc : number
}.

Record WelcomeVerificationMetrics : Type := mkWelcomeVerificationMetrics {
  wv_accounts : number;
  wv_calls : number;
  wv_callsPerAccount : number;
  wv_connects : number;
  wv_connectRate : number;
  wv_rpcs : number;
  wv_rpcRate : number;
  wv_eligible : number;
  wv_eligiblePerRpc : number;
  wv_completed : number;
  wv_completedPerEligible : number;
  wv_completedPerRpc : number;
  wv_incomplete : number
}.

Record PeriodKPIs : Type := mkPeriodKPIs {
  collections : CollectionsMetrics;
  inbound : CollectionsMetrics;
  welcome : WelcomeVerificationMetrics;
  verification : WelcomeVerificationMetrics
}.

Record CollectionsRaw : Type := mkCollectionsRaw {
  raw_accounts : number;
  raw_calls : number;
  raw_connects : number;
  raw_rpcs : number;
  raw_promises : number;
  raw_cashPayments : number;
  raw_transfers : number;
  raw_durationMinutes : number;
  raw_dollarPromised : number;
  raw_dollarCollected : number
}.

Record WelcomeRaw : Type := mkWelcomeRaw {
  wraw_accounts : number;
  wraw_calls : number;
  wraw_connects : number;
  wraw_rpcs : number;
  wraw_eligible : number;
  wraw_completed : number
}.

Record RawAccumulators : Type := mkRawAccumulators {
  collectionsRaw : CollectionsRaw;
  inboundRaw : CollectionsRaw;
  welcomeRaw : WelcomeRaw;
  verificationRaw : WelcomeRaw
}.

(** *** Derivation and reducer *)

(** [if (denominator === 0) return 0; return numerator / denominator;] *)
Definition safeDivide (numerator denominator : number) : number :=
  if strict_eq denominator n0 then n0 else numerator / denominator.

Definition calculateDerivedCollectionsMetrics (raw : CollectionsRaw)
  : CollectionsMetrics :=
  {| accounts := raw_accounts raw;
     calls := raw_calls raw;
     callsPerAccount := safeDivide (raw_calls raw) (raw_accounts raw);
     connects := raw_connects raw;
     connectRate := safeDivide (raw_connects raw) (raw_calls raw) * n100;
     rpcs := raw_rpcs raw;
     rpcRate := safeDivide (raw_rpcs raw) (raw_connects raw) * n100;
     promises := raw_promises raw;
     promisesPerRpc := safeDivide (raw_promises raw) (raw_rpcs raw) * n100;
     cashPayments := raw_cashPayments raw;
     cashPerRpc := safeDivide (raw_cashPayments raw) (raw_rpcs raw) * n100;
     cashPerPromises :=
       safeDivide (raw_cashPayments raw) (raw_promises raw) * n100;
     transfers := raw_transfers raw;
     transfersPerRpc := safeDivide (raw_transfers raw) (raw_rpcs raw) * n100;
     timeOnCallHours := raw_durationMinutes raw / n60;
     avgTimePerCallMin := safeDivide (raw_durationMinutes raw) (raw_calls raw);
     dollarPromised := raw_dollarPromised raw;
     dollarCollected := raw_dollarCollected raw;
     avgPaymentAmount :=
       safeDivide (raw_dollarCollected raw) (raw_cashPayments raw);
     dollarPerRpc := safeDivide (raw_dollarCollected raw) (raw_rpcs raw) |}.

Definition calculateDerivedWelcomeMetrics (raw : WelcomeRaw)
  : WelcomeVerificationMetrics :=
  {| wv_accounts := wraw_accounts raw;
     wv_calls := wraw_calls raw;
     wv_callsPerAccount := safeDivide (wraw_calls raw) (wraw_accounts raw);
     wv_connects := wraw_connects raw;
     wv_connectRate := safeDivide (wraw_connects raw) (wraw_calls raw) * n100;
     wv_rpcs := wraw_rpcs raw;
     wv_rpcRate := safeDivide (wraw_rpcs raw) (wraw_connects raw) * n100;
     wv_eligible := wraw_eligible raw;
     wv_eligiblePerRpc :=
       safeDivide (wraw_eligible raw) (wraw_rpcs raw) * n100;
     wv_completed := wraw_completed raw;
     wv_completedPerEligible :=
       safeDivide (wraw_completed raw) (wraw_eligible raw) * n100;
     wv_completedPerRpc :=
       safeDivide (wraw_completed raw) (wraw_rpcs raw) * n100;
     wv_incomplete := wraw_eligible raw - wraw_completed raw |}.

Definition sumCollections (a b : CollectionsMetrics) : CollectionsMetrics :=
  {| accounts := accounts a + accounts b;
     calls := calls a + calls b;
     callsPerAccount := n0;
     connects := connects a + connects b;
     connectRate := n0;
     rpcs := rpcs a + rpcs b;
     rpcRate := n0;
     promises := promises a + promises b;
     promisesPerRpc := n0;
     cashPayments := cashPayments a + cashPayments b;
     cashPerRpc := n0;
     cashPerPromises := n0;
     transfers := transfers a + transfers b;
     transfersPerRpc := n0;
     timeOnCallHours := timeOnCallHours a + timeOnCallHours b;
     avgTimePerCallMin := n0;
     dollarPromised := dollarPromised a + dollarPromised b;
     dollarCollected := dollarCollected a + dollarCollected b;
     avgPaymentAmount := n0;
     dollarPerRpc := n0 |}.

Definition sumWelcome (a b : WelcomeVerificationMetrics)
  : WelcomeVerificationMetrics :=
  {| wv_accounts := wv_accounts a + wv_accounts b;
     wv_calls := wv_calls a + wv_calls b;
     wv_callsPerAccount := n0;
     wv_connects := wv_connects a + wv_connects b;
     wv_connectRate := n0;
     wv_rpcs := wv_rpcs a + wv_rpcs b;
     wv_rpcRate := n0;
     wv_eligible := wv_eligible a + wv_eligible b;
     wv_eligiblePerRpc := n0;
     wv_completed := wv_completed a + wv_completed b;
     wv_completedPerEligible := n0;
     wv_completedPerRpc := n0;
     wv_incomplete := wv_incomplete a + wv_incomplete b |}.

Definition sumPeriodKPIs (a b : PeriodKPIs) : PeriodKPIs :=
  {| collections := sumCollections (collections a) (collections b);
     inbound := sumCollections (inbound a) (inbound b);
     welcome := sumWelcome (welcome a) (welcome b);
     verification := sumWelcome (verification a) (verification b) |}.

Definition rawOfCollections (m : CollectionsMetrics) : CollectionsRaw :=
  {| raw_accounts := accounts m;
     raw_calls := calls m;
     raw_connects := connects m;
     raw_rpcs := rpcs m;
     raw_promises := promises m;
     raw_cashPayments := cashPayments m;
     raw_transfers := transfers m;
     raw_durationMinutes := timeOnCallHours m * n60;
     raw_dollarPromised := dollarPromised m;
     raw_dollarCollected := dollarCollected m |}.

Definition rawOfWelcome (m : WelcomeVerificationMetrics) : WelcomeRaw :=
  {| wraw_accounts := wv_accounts m;
     wraw_calls := wv_calls m;
     wraw_connects := wv_connects m;
     wraw_rpcs := wv_rpcs m;
     wraw_eligible := wv_eligible m;
     wraw_completed := wv_completed m |}.

Definition recalculateDerivedMetrics (kpis : PeriodKPIs) : PeriodKPIs :=
  {| collections :=
       calculateDerivedCollectionsMetrics (rawOfCollections (collections kpis));
     inbound :=
       calculateDerivedCollectionsMetrics (rawOfCollections (inbound kpis));
     welcome := calculateDerivedWelcomeMetrics (rawOfWelcome (welcome kpis));
     verification :=
       calculateDerivedWelcomeMetrics (rawOfWelcome (verification kpis)) |}.

(** The last four assignments of [parseKPIResults]. *)
Definition deriveKPIs (acc : RawAccumulators) : PeriodKPIs :=
  {| collections := calculateDerivedCollectionsMetrics (collectionsRaw acc);
     inbound := calculateDerivedCollectionsMetrics (inboundRaw acc);
     welcome := calculateDerivedWelcomeMetrics (welcomeRaw acc);
     verification := calculateDerivedWelcomeMetrics (verificationRaw acc) |}.

Definition emptyCollectionsMetrics : CollectionsMetrics :=
  {| accounts := n0; calls := n0; callsPerAccount := n0;
     connects := n0; connectRate := n0;
     rpcs := n0; rpcRate := n0;
     promises := n0; promisesPerRpc := n0;
     cashPayments := n0; cashPerRpc := n0; cashPerPromises := n0;
     transfers := n0; transfersPerRpc := n0;
     timeOnCallHours := n0; avgTimePerCallMin := n0;
     dollarPromised := n0; dollarCollected := n0;
     avgPaymentAmount := n0; dollarPerRpc := n0 |}.

Definition emptyWelcomeVerificationMetrics : WelcomeVerificationMetrics :=
  {| wv_accounts := n0; wv_calls := n0; wv_callsPerAccount := n0;
     wv_connects := n0; wv_connectRate := n0;
     wv_rpcs := n0; wv_rpcRate := n0;
     wv_eligible := n0; wv_eligiblePerRpc := n0;
     wv_completed := n0; wv_completedPerEligible := n0;
     wv_completedPerRpc := n0; wv_incomplete := n0 |}.

Definition emptyPeriodKPIs : PeriodKPIs :=
  {| collections := emptyCollectionsMetrics;
     inbound := emptyCollectionsMetrics;
     welcome := emptyWelcomeVerificationMetrics;
     verification := emptyWelcomeVerificationMetrics |}.

(** *** Counters

    The fields of a record that hold whole numbers of accounts or calls,
    category by category in declaration order.  The remaining summed
    fields ([timeOnCallHours], [dollarPromised], [dollarCollected]) hold
    fractional amounts. *)
Definition countersOfCollections (m : CollectionsMetrics) : list number :=
  [accounts m; calls m; connects m; rpcs m; promises m; cashPayments m;
   transfers m].

Definition countersOfWelcome (m : WelcomeVerificationMetrics) : list number :=
  [wv_accounts m; wv_calls m; wv_connects m; wv_rpcs m; wv_eligible m;
   wv_completed m; wv_incomplete m].

Definition countersOf (k : PeriodKPIs) : list number :=
  countersOfCollections (collections k) ++ countersOfCollections (inbound k)
  ++ countersOfWelcome (welcome k) ++ countersOfWelcome (verification k).

Definition amountsOfCollections (m : CollectionsMetrics) : list number :=
  [timeOnCallHours m; dollarPromised m; dollarCollected m].

(** The integer part of a number (rounded down); [0] for zeros,
    infinities and [NaN]. *)
Definition toZ (x : number) : Z :=
  match Prim2SF x with
  | S754_finite s m e =>
      let M := cond_Zopp s (Zpos m) in
      match e with
      | Zneg k => (M / 2 ^ Zpos k)%Z
      | _ => (M * 2 ^ e)%Z
      end
  | _ => 0%Z
  end.

(** [x] is an integer of absolute value at most [B]. *)
Definition isCount (B : Z) (x : number) : Prop :=
  x = ofZ (toZ x) /\ (Z.abs (toZ x) <= B)%Z.

(** Every counter of [k] is an integer of absolute value at most [B]. *)
Definition countsWithin (B : Z) (k : PeriodKPIs) : Prop :=
  Forall (isCount B) (countersOf k).

(** The integers held by the counters of [k]. *)
Definition intCountersOf (k : PeriodKPIs) : list Z := map toZ (countersOf k).

(** Element-wise sum of two lists of integers. *)
Definition addCounters (xs ys : list Z) : list Z :=
  map (fun p => (fst p + snd p)%Z) (combine xs ys).

(** *** Sample records *)

Definition zeroCollectionsRaw : CollectionsRaw :=
  {| raw_accounts := n0; raw_calls := n0; raw_connects := n0;
     raw_rpcs := n0; raw_promises := n0; raw_cashPayments := n0;
     raw_transfers := n0; raw_durationMinutes := n0;
     raw_dollarPromised := n0; raw_dollarCollected := n0 |}.

Definition zeroWelcomeRaw : WelcomeRaw :=
  {| wraw_accounts := n0; wraw_calls := n0; wraw_connects := n0;
     wraw_rpcs := n0; wraw_eligible := n0; wraw_completed := n0 |}.

(** A raw collections aggregate given by its calls, its connects and its
    duration in minutes. *)
Definition rawCallsConnects (nCalls nConnects minutes : Z) : CollectionsRaw :=
  {| raw_accounts := n0; raw_calls := ofZ nCalls;
     raw_connects := ofZ nConnects;
     raw_rpcs := n0; raw_promises := n0; raw_cashPayments := n0;
     raw_transfers := n0; raw_durationMinutes := ofZ minutes;
     raw_dollarPromised := n0; raw_dollarCollected := n0 |}.

(** The record [parseKPIResults] derives when only outbound collections
    rows were seen. *)
Definition kpisOfCollections (raw : CollectionsRaw) : PeriodKPIs :=
  deriveKPIs {| collectionsRaw := raw; inboundRaw := zeroCollectionsRaw;
                welcomeRaw := zeroWelcomeRaw;
                verificationRaw := zeroWelcomeRaw |}.

(** *** Recombination, as the specification words it *)

(** [x / y], and [0] when [y] is zero. *)
Definition spec_ratio (x y : number) : number :=
  if PrimFloat.is_zero y then 0 else x / y.

(** [x / y] on the 0-100 scale. *)
Definition spec_percent (x y : number) : number := spec_ratio x y * 100.

(** [r] is recombined from [a] and [b]: every counter and amount of [r] is
    the sum of those of [a] and [b], and every rate of [r] is computed from
    these sums.  The records carry the talk time as [timeOnCallHours] only,
    so the duration in minutes behind the two time fields is the summed
    hours times 60. *)
Definition spec_recombinedCollections (a b r : CollectionsMetrics) : Prop :=
  let sum := fun f : CollectionsMetrics -> number => f a + f b in
  let minutes := sum timeOnCallHours * 60 in
  accounts r = sum accounts /\
  calls r = sum calls /\
  connects r = sum connects /\
  rpcs r = sum rpcs /\
  promises r = sum promises /\
  cashPayments r = sum cashPayments /\
  transfers r = sum transfers /\
  dollarPromised r = sum dollarPromised /\
  dollarCollected r = sum dollarCollected /\
  callsPerAccount r = spec_ratio (sum calls) (sum accounts) /\
  connectRate r = spec_percent (sum connects) (sum calls) /\
  rpcRate r = spec_percent (sum rpcs) (sum connects) /\
  promisesPerRpc r = spec_percent (sum promises) (sum rpcs) /\
  cashPerRpc r = spec_percent (sum cashPayments) (sum rpcs) /\
  cashPerPromises r = spec_percent (sum cashPayments) (sum promises) /\
  transfersPerRpc r = spec_percent (sum transfers) (sum rpcs) /\
  timeOnCallHours r = minutes / 60 /\
  avgTimePerCallMin r = spec_ratio minutes (sum calls) /\
  avgPaymentAmount r = spec_ratio (sum dollarCollected) (sum cashPayments) /\
  dollarPerRpc r = spec_ratio (sum dollarCollected) (sum rpcs).

Definition spec_recombinedWelcome (a b r : WelcomeVerificationMetrics)
  : Prop :=
  let sum := fun f : WelcomeVerificationMetrics -> number => f a + f b in
  wv_accounts r = sum wv_accounts /\
  wv_calls r = sum wv_calls /\
  wv_connects r = sum wv_connects /\
  wv_rpcs r = sum wv_rpcs /\
  wv_eligible r = sum wv_eligible /\
  wv_completed r = sum wv_completed /\
  wv_callsPerAccount r = spec_ratio (sum wv_calls) (sum wv_accounts) /\
  wv_connectRate r = spec_percent (sum wv_connects) (sum wv_calls) /\
  wv_rpcRate r = spec_percent (sum wv_rpcs) (sum wv_connects) /\
  wv_eligiblePerRpc r = spec_percent (sum wv_eligible) (sum wv_rpcs) /\
  wv_completedPerEligible r
  = spec_percent (sum wv_completed) (sum wv_eligible) /\
  wv_completedPerRpc r = spec_percent (sum wv_completed) (sum wv_rpcs) /\
  wv_incomplete r = sum wv_eligible - sum wv_completed.

(** Field-wise sum of two raw aggregates (the source has no function of
    this name). *)
Definition spec_sumCollectionsRaw (a b : CollectionsRaw) : CollectionsRaw :=
  {| raw_accounts := raw_accounts a + raw_accounts b;
     raw_calls := raw_calls a + raw_calls b;
     raw_connects := raw_connects a + raw_connects b;
     raw_rpcs := raw_rpcs a + raw_rpcs b;
     raw_promises := raw_promises a + raw_promises b;
     raw_cashPayments := raw_cashPayments a + raw_cashPayments b;
     raw_transfers := raw_transfers a + raw_transfers b;
     raw_durationMinutes := raw_durationMinutes a + raw_durationMinutes b;
     raw_dollarPromised := raw_dollarPromised a + raw_dollarPromised b;
     raw_dollarCollected := raw_dollarCollected a + raw_dollarCollected b |}.

Definition spec_sumWelcomeRaw (a b : WelcomeRaw) : WelcomeRaw :=
  {| wraw_accounts := wraw_accounts a + wraw_accounts b;
     wraw_calls := wraw_calls a + wraw_calls b;
     wraw_connects := wraw_connects a + wraw_connects b;
     wraw_rpcs := wraw_rpcs a + wraw_rpcs b;
     wraw_eligible := wraw_eligible a + wraw_eligible b;
     wraw_completed := wraw_completed a + wraw_completed b |}.

Definition spec_sumRaw (a b : RawAccumulators) : RawAccumulators :=
  {| collectionsRaw :=
       spec_sumCollectionsRaw (collectionsRaw a) (collectionsRaw b);
     inboundRaw := spec_sumCollectionsRaw (inboundRaw a) (inboundRaw b);
     welcomeRaw := spec_sumWelcomeRaw (welcomeRaw a) (welcomeRaw b);
     verificationRaw :=
       spec_sumWelcomeRaw (verificationRaw a) (verificationRaw b) |}.

(** A collections record with its two time fields blanked. *)
Definition withoutTimeFields (m : CollectionsMetrics) : CollectionsMetrics :=
  {| accounts := accounts m;
     calls := calls m;
     callsPerAccount := callsPerAccount m;
     connects := connects m;
     connectRate := connectRate m;
     rpcs := rpcs m;
     rpcRate := rpcRate m;
     promises := promises m;
     promisesPerRpc := promisesPerRpc m;
     cashPayments := cashPayments m;
     cashPerRpc := cashPerRpc m;
     cashPerPromises := cashPerPromises m;
     transfers := transfers m;
     transfersPerRpc := transfersPerRpc m;
     timeOnCallHours := n0;
     avgTimePerCallMin := n0;
     dollarPromised := dollarPromised m;
     dollarCollected := dollarCollected m;
     avgPaymentAmount := avgPaymentAmount m;
     dollarPerRpc := dollarPerRpc m |}.

(** *** Change, trend and overall score *)

Record ScorecardMetric : Type := mkScorecardMetric {
  sm_current : number;
  sm_baseline : number;
  sm_change : number;
  sm_trend : TrendDirection;
  sm_status : HealthStatus
}.

Definition trendOfChange (change : number) : TrendDirection :=
  if gt change half then trend_up
  else if change <? - half then trend_down
  else trend_neutral.

Definition getHealthStatus (change : number) (invertLogic : bool)
  : HealthStatus :=
  let adjustedChange := if invertLogic then - change else change in
  if adjustedChange <=? - n15 then status_critical
  else if adjustedChange <? - n5 then status_warning
  else if gt adjustedChange n5 then status_good
  else status_neutral.

Definition createScorecardMetric (current baseline : number)
  (invertLogic : bool) : ScorecardMetric :=
  let change :=
    if gt baseline n0 then ((current - baseline) / baseline) * n100
    else n0 in
  {| sm_current := current;
     sm_baseline := baseline;
     sm_change := change;
     sm_trend := trendOfChange change;
     sm_status := getHealthStatus change invertLogic |}.

Record ScorecardMetrics : Type := mkScorecardMetrics {
  sc_callVolume : ScorecardMetric;
  sc_connectRate : ScorecardMetric;
  sc_rpcRate : ScorecardMetric;
  sc_promiseRate : ScorecardMetric;
  sc_paymentSuccess : ScorecardMetric;
  sc_dollarCollected : ScorecardMetric
}.

(** The [weights] object: the binary64 values nearest to the decimal
    literals. *)
#[warnings="-inexact-float"]
Definition weight_callVolume : number := 0.10.
#[warnings="-inexact-float"]
Definition weight_connectRate : number := 0.15.
#[warnings="-inexact-float"]
Definition weight_rpcRate : number := 0.20.
#[warnings="-inexact-float"]
Definition weight_promiseRate : number := 0.15.
#[warnings="-inexact-float"]
Definition weight_paymentSuccess : number := 0.20.
#[warnings="-inexact-float"]
Definition weight_dollarCollected : number := 0.20.

(** [getScore]: [50 + Math.max(-50, Math.min(50, change))]. *)
Definition getScore (change : number) : number :=
  let clampedChange := Math_max (- n50) (Math_min n50 change) in
  n50 + clampedChange.

Definition calculateOverallScore (metrics : ScorecardMetrics) : number :=
  let weightedScore :=
    weight_callVolume * getScore (sm_change (sc_callVolume metrics)) +
    weight_connectRate * getScore (sm_change (sc_connectRate metrics)) +
    weight_rpcRate * getScore (sm_change (sc_rpcRate metrics)) +
    weight_promiseRate * getScore (sm_change (sc_promiseRate metrics)) +
    weight_paymentSuccess * getScore (sm_change (sc_paymentSuccess metrics)) +
    weight_dollarCollected * getScore (sm_change (sc_dollarCollected metrics))
  in
  Math_round (Math_max n0 (Math_min n100 weightedScore)).

Definition getOverallStatusFromScore (score : number) : HealthStatus :=
  if ge score n55 then status_good
  else if ge score n45 then status_neutral
  else if ge score n35 then status_warning
  else status_critical.

(** A scorecard metric carrying only a change value. *)
Definition metricWithChange (change : number) : ScorecardMetric :=
  {| sm_current := n0; sm_baseline := n0; sm_change := change;
     sm_trend := trendOfChange change;
     sm_status := getHealthStatus change false |}.

(** The six changes a score is computed from, in the order of the
    weights. *)
Definition changesOf (m : ScorecardMetrics) : list number :=
  [sm_change (sc_callVolume m); sm_change (sc_connectRate m);
   sm_change (sc_rpcRate m); sm_change (sc_promiseRate m);
   sm_change (sc_paymentSuccess m); sm_change (sc_dollarCollected m)].

(** *** The score as the specification words it, evaluated in binary64 *)

(** [x] clamped to [[lo, hi]]. *)
Definition spec_clamp (lo hi x : number) : number :=
  Math_max lo (Math_min hi x).

(** Per-metric score: [50 + clamp(changePercent, -50, +50)]. *)
Definition spec_metricScore (changePercent : number) : number :=
  50 + spec_clamp (-50) 50 changePercent.

#[warnings="-inexact-float"]
Definition spec_weights : list number := [0.10; 0.15; 0.20; 0.15; 0.20; 0.20].

(** The sum of the products [w * x], accumulated from left to right. *)
Definition spec_weightedSum (ws xs : list number) : number :=
  match map (fun p => fst p * snd p) (combine ws xs) with
  | [] => 0
  | t :: ts => fold_left PrimFloat.add ts t
  end.

Definition spec_overallScore (changes : list number) : number :=
  Math_round
    (spec_clamp 0 100
       (spec_weightedSum spec_weights (map spec_metricScore changes))).

(** Status of an integer score: good from 55, neutral from 45, warning
    from 35, critical below. *)
Definition spec_statusOfScore (score : Z) : HealthStatus :=
  if (55 <=? score)%Z then status_good
  else if (45 <=? score)%Z then status_neutral
  else if (35 <=? score)%Z then status_warning
  else status_critical.

(** [0 < x && x < Infinity] *)
Definition isPositiveFinite (x : number) : bool :=
  (0 <? x) && (x <? PrimFloat.infinity).

(** *** Rational values of binary64 numbers *)

Section Values.

Local Open Scope Q_scope.

(** [2^e] as a rational. *)
Definition pow2 (e : Z) : Q := Qpower 2 e.

(** The rational value of a binary64 number; [0] for the infinities and
    [NaN]. *)
Definition SF2Q (x : spec_float) : Q :=
  match x with
  | S754_finite s m e => inject_Z (cond_Zopp s (Zpos m)) * pow2 e
  | _ => 0
  end.

Definition valueOf (x : float) : Q := SF2Q (Prim2SF x).

(** [v] with the sign [s]. *)
Definition signedQ (s : bool) (v : Q) : Q := if s then - v else v.

(** Zero or a finite non-zero number: neither an infinity nor [NaN]. *)
Definition SFfinite (x : spec_float) : bool :=
  match x with
  | S754_zero _ | S754_finite _ _ _ => true
  | _ => false
  end.

Definition isFinite (x : float) : bool := SFfinite (Prim2SF x).

(** *** The score over exact rationals, as the specification words it *)

(** [v] clamped to [[lo, hi]]. *)
Definition spec_exactClamp (lo hi v : Q) : Q :=
  if Qlt_le_dec hi v then hi else if Qlt_le_dec v lo then lo else v.

(** Per-metric score: [50 + clamp(changePercent, -50, +50)]. *)
Definition spec_exactMetricScore (changePercent : Q) : Q :=
  50 + spec_exactClamp (-50) 50 changePercent.

(** The weights .10 .15 .20 .15 .20 .20 as decimal fractions. *)
Definition spec_exactWeights : list Q :=
  [10 # 100; 15 # 100; 20 # 100; 15 # 100; 20 # 100; 20 # 100].

Definition spec_exactWeightedScore (changes : list Q) : Q :=
  fold_right Qplus 0
    (map (fun p => fst p * snd p)
         (combine spec_exactWeights (map spec_exactMetricScore changes))).

(** Nearest integer, a tie going up. *)
Definition spec_exactRound (v : Q) : Z := Qfloor (v + (1 # 2)).

Definition spec_exactOverallScore (changes : list Q) : Z :=
  spec_exactRound (spec_exactClamp 0 100 (spec_exactWeightedScore changes)).

(** The rounding error the binary64 evaluation of the weighted sum stays
    within: [2^-43]. *)
Definition scoreTolerance : Q := 1 # 8796093022208.

(** Whether [v + 1/2] is at least [scoreTolerance] above the integer below
    it and more than [scoreTolerance] below the integer above it: [v] is
    then not within [scoreTolerance] of a tie [k + 1/2]. *)
Definition spec_awayFromTie (v : Q) : bool :=
  let f := v + (1 # 2) - inject_Z (Qfloor (v + (1 # 2))) in
  Qle_bool scoreTolerance f && negb (Qle_bool (1 - scoreTolerance) f).

End Values.

End Binary64.

Definition HealthStatus_eqb (a b : HealthStatus) : bool :=
  match a, b with
  | status_good, status_good | status_warning, status_warning
  | status_critical, status_critical | status_neutral, status_neutral => true
  | _, _ => false
  end.

(* ================================================================== *)
(** * Properties *)
(* ================================================================== *)

(** ** Batching *)

Section BatchFacts.

Context {A : Type}.

Lemma batches_concat (size : nat) (l : list A) :
  List.concat (batches size l) = l.
Proof.
  funelim (batches size l).
  - reflexivity.
  - match goal with
    | IH : List.concat _ = _ |- _ => simpl in IH; simpl; rewrite IH
    end.
    f_equal. apply firstn_skipn.
Qed.

Lemma fold_left_concat {B : Type} (g : B -> A -> B) (ls : list (list A))
  (z : B) :
  fold_left (fun acc l => fold_left g l acc) ls z
  = fold_left g (List.concat ls) z.
Proof.
  revert z. induction ls as [|l ls IH]; intro z; simpl.
  - reflexivity.
  - rewrite fold_left_app. apply IH.
Qed.

End BatchFacts.

(** ** Binary64 arithmetic *)

Module FloatFacts.

Import PrimFloat SpecFloat FloatOps FloatAxioms.
Import Binary64.


Local Open Scope Z_scope.

Lemma fexp_eq (e : Z) : fexp prec emax e = Z.max (e - 53) (-1074).
Proof. reflexivity. Qed.

Lemma digits2_pos_size (p : positive) : digits2_pos p = Pos.size p.
Proof. induction p as [p IH|p IH|]; simpl; congruence. Qed.

Lemma digits2_pos_bounds (p : positive) :
  2 ^ (Zpos (digits2_pos p) - 1) <= Zpos p < 2 ^ Zpos (digits2_pos p).
Proof.
  rewrite digits2_pos_size. split.
  - pose proof (Pos.size_le p) as H.
    assert (H2 : 2 ^ Zpos (Pos.size p) <= 2 * Zpos p).
    { rewrite <- Pos2Z.inj_pow. change (2 * Zpos p) with (Zpos (p~0)).
      apply Pos2Z.pos_le_pos. exact H. }
    replace (Zpos (Pos.size p)) with (Z.succ (Zpos (Pos.size p) - 1)) in H2 by lia.
    rewrite Z.pow_succ_r in H2 by lia. lia.
  - pose proof (Pos.size_gt p) as H.
    rewrite <- Pos2Z.inj_pow. apply Pos2Z.pos_lt_pos. exact H.
Qed.

Lemma digits2_pos_unique (p : positive) (d : Z) :
  2 ^ (d - 1) <= Zpos p < 2 ^ d -> Zpos (digits2_pos p) = d.
Proof.
  intros [Hlo Hhi].
  pose proof (digits2_pos_bounds p) as [Blo Bhi].
  assert (Hd : 0 < d).
  { destruct (Z_lt_le_dec 0 d) as [H|H]; [exact H|].
    exfalso. destruct (Z.eq_dec d 0) as [->|Hn].
    - simpl in Hhi. lia.
    - rewrite (Z.pow_neg_r 2 d) in Hhi by lia. lia. }
  set (k := Zpos (digits2_pos p)) in *.
  destruct (Z.lt_trichotomy k d) as [H|[H|H]]; [|exact H|].
  - exfalso. assert (2 ^ k <= 2 ^ (d - 1)) by (apply Z.pow_le_mono_r; lia). lia.
  - exfalso. assert (2 ^ d <= 2 ^ (k - 1)) by (apply Z.pow_le_mono_r; lia). lia.
Qed.

Lemma iter_xO (m k : positive) : Zpos (Pos.iter xO m k) = Zpos m * 2 ^ Zpos k.
Proof.
  induction k as [|k IH] using Pos.peano_ind.
  - simpl. lia.
  - rewrite Pos.iter_succ, Pos2Z.inj_xO, IH, Pos2Z.inj_succ, Z.pow_succ_r by lia.
    ring.
Qed.

Lemma digits2_pos_shift (m p : positive) (k : Z) :
  0 <= k -> Zpos p = Zpos m * 2 ^ k ->
  Zpos (digits2_pos p) = Zpos (digits2_pos m) + k.
Proof.
  intros Hk Hp. apply digits2_pos_unique. rewrite Hp.
  pose proof (digits2_pos_bounds m) as [Blo Bhi].
  replace (Zpos (digits2_pos m) + k - 1) with ((Zpos (digits2_pos m) - 1) + k) by ring.
  rewrite !Z.pow_add_r by lia.
  assert (0 < 2 ^ k) by (apply Z.pow_pos_nonneg; lia).
  split; nia.
Qed.

Lemma iter_pos_iter {A : Type} (f : A -> A) (n : positive) (x : A) :
  iter_pos f n x = Pos.iter f x n.
Proof.
  revert x. induction n as [n IH|n IH|]; intro x; simpl.
  - rewrite !IH. rewrite <- !Pos.iter_swap. reflexivity.
  - rewrite !IH. reflexivity.
  - reflexivity.
Qed.

Lemma shr_exact (m k : positive) :
  iter_pos shr_1 k (Build_shr_record (Zpos (Pos.iter xO m k)) false false)
  = Build_shr_record (Zpos m) false false.
Proof.
  rewrite iter_pos_iter. revert m.
  induction k as [|k IH] using Pos.peano_ind; intro m.
  - reflexivity.
  - rewrite !Pos.iter_succ, <- Pos.iter_swap. simpl. apply IH.
Qed.

Lemma binary_round_aux_canonical (s : bool) (m : positive) (e : Z) :
  canonical_mantissa prec emax m e = true -> e <= emax - prec ->
  binary_round_aux prec emax s (Zpos m) e loc_Exact = S754_finite s m e.
Proof.
  intros Hc He. unfold canonical_mantissa in Hc. apply Z.eqb_eq in Hc.
  apply Z.leb_le in He.
  unfold binary_round_aux, shr_fexp.
  cbn [Zdigits2 shr_record_of_loc]. rewrite Hc, Z.sub_diag.
  cbn [shr shr_m loc_of_shr_record round_nearest_even Zdigits2 shr_record_of_loc].
  rewrite Hc, Z.sub_diag. cbn [shr shr_m]. rewrite He. reflexivity.
Qed.

Lemma binary_round_exact (s : bool) (p : positive) (e : Z) (m : positive) (e' : Z) :
  canonical_mantissa prec emax m e' = true -> e' <= emax - prec ->
  (e' <= e /\ Zpos m = Zpos p * 2 ^ (e - e')) \/
  (e < e' /\ Zpos p = Zpos m * 2 ^ (e' - e)) ->
  binary_round prec emax s p e = S754_finite s m e'.
Proof.
  intros Hc He Hv.
  assert (Hd : Zpos (digits2_pos p) + e = Zpos (digits2_pos m) + e').
  { destruct Hv as [[Hle Hm]|[Hlt Hp]].
    - rewrite (digits2_pos_shift p m (e - e')); [ring|lia|exact Hm].
    - rewrite (digits2_pos_shift m p (e' - e)); [ring|lia|exact Hp]. }
  pose proof Hc as Hc'. unfold canonical_mantissa in Hc'. apply Z.eqb_eq in Hc'.
  unfold binary_round. rewrite Hd, Hc'. unfold shl_align.
  destruct Hv as [[Hle Hm]|[Hlt Hp]].
  - destruct (e' - e) as [|d|d] eqn:Hsub; try lia.
    + assert (e = e') by lia. subst e'. rewrite Z.sub_diag in Hm.
      assert (m = p) by (simpl in Hm; lia). subst m.
      apply binary_round_aux_canonical; assumption.
    + assert (Pos.iter xO p d = m) as ->.
      { apply Pos2Z.inj. rewrite iter_xO, Hm. f_equal. f_equal. lia. }
      apply binary_round_aux_canonical; assumption.
  - destruct (e' - e) as [|d|d] eqn:Hsub; try lia.
    unfold binary_round_aux, shr_fexp. cbn [Zdigits2 shr_record_of_loc].
    rewrite Hd, Hc', Hsub. cbn [shr].
    assert (p = Pos.iter xO m d) as ->.
    { apply Pos2Z.inj. rewrite iter_xO, Hp. reflexivity. }
    rewrite shr_exact.
    cbn [shr_m loc_of_shr_record round_nearest_even Zdigits2 shr_record_of_loc].
    replace (e + Zpos d) with e' by lia.
    rewrite Hc', Z.sub_diag. cbn [shr shr_m].
    apply Z.leb_le in He. rewrite He. reflexivity.
Qed.

(** The canonical mantissa and exponent of a positive integer below 2^53. *)
Lemma int_canonical (p : positive) :
  Zpos p < 2 ^ 53 ->
  exists m : positive,
    Zpos m = Zpos p * 2 ^ (53 - Zpos (digits2_pos p)) /\
    canonical_mantissa prec emax m (Zpos (digits2_pos p) - 53) = true /\
    Zpos (digits2_pos p) <= 53.
Proof.
  intro Hp. pose proof (digits2_pos_bounds p) as [Blo Bhi].
  set (d := Zpos (digits2_pos p)) in *.
  assert (Hd : d <= 53).
  { destruct (Z_le_gt_dec d 53) as [H|H]; [exact H|].
    exfalso. assert (2 ^ 53 <= 2 ^ (d - 1)) by (apply Z.pow_le_mono_r; lia). lia. }
  assert (Hpos : 0 < Zpos p * 2 ^ (53 - d)).
  { apply Z.mul_pos_pos; [lia|]. apply Z.pow_pos_nonneg; lia. }
  destruct (Zpos p * 2 ^ (53 - d)) as [|m|m] eqn:Hm; try lia.
  exists m. split; [reflexivity|]. split; [|exact Hd].
  unfold canonical_mantissa. apply Z.eqb_eq.
  rewrite (digits2_pos_shift p m (53 - d)); [|lia|symmetry; exact Hm].
  fold d. rewrite fexp_eq. lia.
Qed.

Lemma binary_round_int (s : bool) (p q : positive) (j : Z) :
  Zpos p < 2 ^ 53 -> 0 <= j -> Zpos q = Zpos p * 2 ^ j ->
  binary_round prec emax s q (- j) = binary_round prec emax s p 0.
Proof.
  intros Hp Hj Hq.
  destruct (int_canonical p Hp) as (m & Hm & Hc & Hd).
  set (d := Zpos (digits2_pos p)) in *.
  assert (He : d - 53 <= emax - prec) by (unfold emax, prec; lia).
  rewrite (binary_round_exact s p 0 m (d - 53) Hc He).
  2:{ left. split; [lia|]. rewrite Hm. f_equal. f_equal. lia. }
  apply binary_round_exact; [exact Hc|exact He|].
  destruct (Z_le_gt_dec (d - 53) (- j)) as [H|H].
  - left. split; [exact H|]. rewrite Hm, Hq, <- Z.mul_assoc, <- Z.pow_add_r by lia.
    f_equal. f_equal. lia.
  - right. split; [lia|]. rewrite Hm, Hq, <- Z.mul_assoc, <- Z.pow_add_r by lia.
    f_equal. f_equal. lia.
Qed.

Lemma binary_normalize_int (K j : Z) :
  Z.abs K < 2 ^ 53 -> 0 <= j ->
  binary_normalize prec emax (K * 2 ^ j) (- j) false
  = binary_normalize prec emax K 0 false.
Proof.
  intros HK Hj.
  assert (H2 : 0 < 2 ^ j) by (apply Z.pow_pos_nonneg; lia).
  destruct K as [|p|p].
  - reflexivity.
  - destruct (Zpos p * 2 ^ j) as [|q|q] eqn:Hq; try lia.
    simpl. apply binary_round_int; [exact HK|exact Hj|symmetry; exact Hq].
  - destruct (Zneg p * 2 ^ j) as [|q|q] eqn:Hq; try lia.
    simpl. apply binary_round_int; [exact HK|exact Hj|].
    change (Zneg p) with (- Zpos p) in Hq. lia.
Qed.

Lemma binary_normalize_int_form (n : Z) :
  n <> 0 -> Z.abs n < 2 ^ 53 ->
  exists (m : positive) (e : Z),
    binary_normalize prec emax n 0 false = S754_finite (n <? 0) m e /\
    -52 <= e <= 0 /\ Zpos m = Z.abs n * 2 ^ (- e) /\
    canonical_mantissa prec emax m e = true.
Proof.
  intros Hn Hb.
  assert (Hform : forall (s : bool) (p : positive), Zpos p < 2 ^ 53 ->
            exists (m : positive) (e : Z),
              binary_round prec emax s p 0 = S754_finite s m e /\
              -52 <= e <= 0 /\ Zpos m = Zpos p * 2 ^ (- e) /\
              canonical_mantissa prec emax m e = true).
  { intros s p Hp. destruct (int_canonical p Hp) as (m & Hm & Hc & Hd).
    exists m, (Zpos (digits2_pos p) - 53).
    split; [|split; [lia|split; [|exact Hc]]].
    - apply binary_round_exact; [exact Hc|unfold emax, prec; lia|].
      left. split; [lia|]. rewrite Hm. f_equal. f_equal. lia.
    - rewrite Hm. f_equal. f_equal. lia. }
  destruct n as [|p|p]; [contradiction| |].
  - apply (Hform false p Hb).
  - apply (Hform true p Hb).
Qed.

Lemma shl_align_value (mx : positive) (ex ez : Z) :
  ez <= ex -> Zpos (fst (shl_align mx ex ez)) = Zpos mx * 2 ^ (ex - ez).
Proof.
  intro H. unfold shl_align.
  destruct (ez - ex) as [|d|d] eqn:Hsub; try lia; cbn [fst].
  - replace (ex - ez) with 0 by lia. simpl. lia.
  - rewrite iter_xO. f_equal. f_equal. lia.
Qed.

Lemma cond_Zopp_abs (n : Z) : cond_Zopp (n <? 0) (Z.abs n) = n.
Proof.
  unfold cond_Zopp. destruct (Z.ltb_spec n 0); lia.
Qed.

Lemma cond_Zopp_mul (s : bool) (x y : Z) :
  cond_Zopp s (x * y) = cond_Zopp s x * y.
Proof. destruct s; simpl; ring. Qed.

(** Binary64 addition of two integers is exact while the operands and the
    sum stay below 2^53 in absolute value. *)
Lemma SFadd_int (a b : Z) :
  Z.abs a < 2 ^ 53 -> Z.abs b < 2 ^ 53 -> Z.abs (a + b) < 2 ^ 53 ->
  SF64add (binary_normalize prec emax a 0 false)
          (binary_normalize prec emax b 0 false)
  = binary_normalize prec emax (a + b) 0 false.
Proof.
  intros Ha Hb Hab.
  destruct (Z.eq_dec a 0) as [->|Ha0].
  { destruct (Z.eq_dec b 0) as [->|Hb0]; [reflexivity|].
    rewrite Z.add_0_l.
    destruct (binary_normalize_int_form b Hb0 Hb) as (m & e & -> & _).
    reflexivity. }
  destruct (Z.eq_dec b 0) as [->|Hb0].
  { rewrite Z.add_0_r.
    destruct (binary_normalize_int_form a Ha0 Ha) as (m & e & -> & _).
    reflexivity. }
  destruct (binary_normalize_int_form a Ha0 Ha) as (ma & ea & -> & Hea & Hma & _).
  destruct (binary_normalize_int_form b Hb0 Hb) as (mb & eb & -> & Heb & Hmb & _).
  unfold SF64add, SFadd.
  set (ez := Z.min ea eb).
  rewrite !shl_align_value by (subst ez; lia).
  rewrite Hma, Hmb, <- !Z.mul_assoc, <- !Z.pow_add_r by (subst ez; lia).
  replace (- ea + (ea - ez)) with (- ez) by ring.
  replace (- eb + (eb - ez)) with (- ez) by ring.
  rewrite !cond_Zopp_mul, !cond_Zopp_abs, <- Z.mul_add_distr_r.
  replace ez with (- - ez) at 2 by ring.
  apply binary_normalize_int; [exact Hab|subst ez; lia].
Qed.

Lemma Prim2SF_ofZ (n : Z) :
  Z.abs n < 2 ^ 53 ->
  Prim2SF (ofZ n) = binary_normalize prec emax n 0 false.
Proof.
  intro Hn. unfold ofZ. apply Prim2SF_SF2Prim.
  destruct (Z.eq_dec n 0) as [->|Hn0]; [reflexivity|].
  destruct (binary_normalize_int_form n Hn0 Hn) as (m & e & -> & He & _ & Hc).
  unfold valid_binary, bounded. rewrite Hc. apply Z.leb_le.
  unfold emax, prec. lia.
Qed.

Lemma add_ofZ (a b : Z) :
  Z.abs a < 2 ^ 53 -> Z.abs b < 2 ^ 53 -> Z.abs (a + b) < 2 ^ 53 ->
  (ofZ a + ofZ b)%float = ofZ (a + b).
Proof.
  intros Ha Hb Hab. apply Prim2SF_inj.
  rewrite add_spec, !Prim2SF_ofZ by assumption.
  apply SFadd_int; assumption.
Qed.

Lemma add_comm (x y : float) : (x + y)%float = (y + x)%float.
Proof.
  apply Prim2SF_inj. rewrite !add_spec.
  destruct (Prim2SF x) as [sx|sx| |sx mx ex], (Prim2SF y) as [sy|sy| |sy my ey];
    try reflexivity; try (destruct sx, sy; reflexivity).
  unfold SF64add, SFadd. rewrite Z.min_comm, Z.add_comm. reflexivity.
Qed.

Lemma toZ_ofZ (n : Z) : Z.abs n < 2 ^ 53 -> toZ (ofZ n) = n.
Proof.
  intro Hn. unfold toZ. rewrite Prim2SF_ofZ by exact Hn.
  destruct (Z.eq_dec n 0) as [->|Hn0]; [reflexivity|].
  destruct (binary_normalize_int_form n Hn0 Hn) as (m & e & -> & He & Hm & _).
  rewrite Hm, cond_Zopp_mul, cond_Zopp_abs.
  destruct e as [|k|k]; try lia.
  change (- Zneg k) with (Zpos k). apply Z.div_mul.
  apply Z.pow_nonzero; lia.
Qed.

(** The sum of two integer-valued numbers is the integer sum while it
    stays below 2^53. *)
Lemma isCount_add (B B' : Z) (x y : float) :
  isCount B x -> isCount B' y -> B + B' < 2 ^ 53 ->
  (x + y)%float = ofZ (toZ x + toZ y) /\
  toZ (x + y)%float = toZ x + toZ y /\
  isCount (B + B') (x + y)%float.
Proof.
  intros [Hx Bx] [Hy By] HB.
  assert (Hs : (x + y)%float = ofZ (toZ x + toZ y)).
  { rewrite Hx at 1. rewrite Hy at 1. apply add_ofZ; lia. }
  assert (Hz : toZ (x + y)%float = toZ x + toZ y).
  { rewrite Hs. apply toZ_ofZ. lia. }
  split; [exact Hs|]. split; [exact Hz|].
  split; [rewrite Hz; exact Hs | rewrite Hz; lia].
Qed.

End FloatFacts.

(** ** The reducer over binary64 *)

Section ReducerBinary64.

Import PrimFloat.
Import Binary64 FloatFacts.

Local Open Scope Z_scope.

(** Element-wise binary64 sum of two lists. *)
Local Abbreviation addFloats :=
  (fun xs ys : list float =>
     map (fun p => (fst p + snd p)%float) (combine xs ys)).

Lemma countersOf_sum (a b : PeriodKPIs) :
  countersOf (sumPeriodKPIs a b) = addFloats (countersOf a) (countersOf b).
Proof. reflexivity. Qed.

Lemma addFloats_counts (B B' : Z) (xs ys : list float) :
  Forall (isCount B) xs -> Forall (isCount B') ys -> B + B' < 2 ^ 53 ->
  Forall (isCount (B + B')) (addFloats xs ys) /\
  map toZ (addFloats xs ys) = addCounters (map toZ xs) (map toZ ys).
Proof.
  intros Hxs Hys HB. revert ys Hys.
  induction Hxs as [|x xs Hx Hxs IH]; intros ys Hys.
  - split; [constructor|reflexivity].
  - destruct Hys as [|y ys Hy Hys].
    + split; [constructor|reflexivity].
    + destruct (IH ys Hys) as [IH1 IH2].
      destruct (isCount_add B B' x y Hx Hy HB) as (_ & Hz & Hc).
      split.
      * constructor; [exact Hc | exact IH1].
      * unfold addCounters in *. cbn [combine map fst snd].
        rewrite Hz, IH2. reflexivity.
Qed.

Lemma sum_counts (B B' : Z) (a b : PeriodKPIs) :
  countsWithin B a -> countsWithin B' b -> B + B' < 2 ^ 53 ->
  countsWithin (B + B') (sumPeriodKPIs a b) /\
  intCountersOf (sumPeriodKPIs a b)
  = addCounters (intCountersOf a) (intCountersOf b).
Proof.
  intros Ha Hb HB. unfold countsWithin, intCountersOf.
  rewrite countersOf_sum. apply addFloats_counts; assumption.
Qed.

Lemma counters_of_ints (B : Z) (k : PeriodKPIs) :
  countsWithin B k -> countersOf k = map ofZ (intCountersOf k).
Proof.
  unfold countsWithin, intCountersOf. intro H.
  induction H as [|x xs [Hx _] _ IH]; [reflexivity|].
  cbn [map]. rewrite <- Hx, <- IH. reflexivity.
Qed.

Lemma counters_eq (B B' : Z) (k k' : PeriodKPIs) :
  countsWithin B k -> countsWithin B' k' ->
  intCountersOf k = intCountersOf k' -> countersOf k = countersOf k'.
Proof.
  intros H H' E.
  rewrite (counters_of_ints B k H), (counters_of_ints B' k' H'), E.
  reflexivity.
Qed.

Lemma addCounters_swap (zs xs ys : list Z) :
  addCounters (addCounters zs xs) ys = addCounters (addCounters zs ys) xs.
Proof.
  unfold addCounters. revert xs ys.
  induction zs as [|z zs IH]; intros xs ys; [reflexivity|].
  destruct xs as [|x xs], ys as [|y ys]; try reflexivity.
  cbn [combine map fst snd]. rewrite IH. f_equal. ring.
Qed.

Lemma addCounters_assoc (xs ys zs : list Z) :
  addCounters (addCounters xs ys) zs = addCounters xs (addCounters ys zs).
Proof.
  unfold addCounters. revert ys zs.
  induction xs as [|x xs IH]; intros ys zs; [reflexivity|].
  destruct ys as [|y ys]; [reflexivity|].
  destruct zs as [|z zs]; [reflexivity|].
  cbn [combine map fst snd]. rewrite IH. f_equal. ring.
Qed.

Lemma countsWithin_weaken (B B' : Z) (k : PeriodKPIs) :
  B <= B' -> countsWithin B k -> countsWithin B' k.
Proof.
  intros HB H. unfold countsWithin in *.
  eapply Forall_impl; [|exact H].
  intros x [Hx Bx]. split; [exact Hx|lia].
Qed.

Lemma countsWithin_nonneg (B : Z) (k : PeriodKPIs) :
  countsWithin B k -> 0 <= B.
Proof.
  unfold countsWithin, countersOf, countersOfCollections.
  intro H. cbn [app] in H. inversion H as [|x xs [_ Hx] _]. lia.
Qed.

Lemma fold_counts (B : Z) (l : list PeriodKPIs) :
  Forall (countsWithin B) l ->
  forall (B0 : Z) (z : PeriodKPIs),
    countsWithin B0 z -> B0 + Z.of_nat (List.length l) * B < 2 ^ 53 ->
    countsWithin (B0 + Z.of_nat (List.length l) * B)
                 (fold_left sumPeriodKPIs l z) /\
    intCountersOf (fold_left sumPeriodKPIs l z)
    = fold_left addCounters (map intCountersOf l) (intCountersOf z).
Proof.
  induction 1 as [|x l Hx Hl IH]; intros B0 z Hz HB.
  - cbn [List.length fold_left map Z.of_nat].
    rewrite Z.mul_0_l, Z.add_0_r. split; [exact Hz|reflexivity].
  - pose proof (countsWithin_nonneg B x Hx) as HBn.
    cbn [fold_left map]. rewrite length_cons, Nat2Z.inj_succ in *.
    destruct (sum_counts B0 B z x Hz Hx) as [Hs Hi]; [nia|].
    destruct (IH (B0 + B) (sumPeriodKPIs z x) Hs) as [IH1 IH2]; [nia|].
    split.
    + replace (B0 + Z.succ (Z.of_nat (List.length l)) * B)
        with (B0 + B + Z.of_nat (List.length l) * B) by ring.
      exact IH1.
    + rewrite IH2, Hi. reflexivity.
Qed.

Lemma fold_addCounters_permutation (l l' : list (list Z)) :
  Permutation l l' ->
  forall z, fold_left addCounters l z = fold_left addCounters l' z.
Proof.
  induction 1 as [|x l l' _ IH|x y l|l l' l'' _ IH1 _ IH2]; intro z.
  - reflexivity.
  - simpl. apply IH.
  - simpl. rewrite addCounters_swap. reflexivity.
  - rewrite IH1. apply IH2.
Qed.

Lemma sumCollections_comm (a b : CollectionsMetrics) :
  sumCollections a b = sumCollections b a.
Proof.
  unfold sumCollections.
  rewrite (add_comm (accounts a)), (add_comm (calls a)),
    (add_comm (connects a)), (add_comm (rpcs a)), (add_comm (promises a)),
    (add_comm (cashPayments a)), (add_comm (transfers a)),
    (add_comm (timeOnCallHours a)), (add_comm (dollarPromised a)),
    (add_comm (dollarCollected a)).
  reflexivity.
Qed.

Lemma sumWelcome_comm (a b : WelcomeVerificationMetrics) :
  sumWelcome a b = sumWelcome b a.
Proof.
  unfold sumWelcome.
  rewrite (add_comm (wv_accounts a)), (add_comm (wv_calls a)),
    (add_comm (wv_connects a)), (add_comm (wv_rpcs a)),
    (add_comm (wv_eligible a)), (add_comm (wv_completed a)),
    (add_comm (wv_incomplete a)).
  reflexivity.
Qed.

(** C1 (as amended). Over binary64, [sumPeriodKPIs] is commutative on all
    records.  On the counters it is exact: when every counter of the
    operands is an integer and the sums stay below 2^53, the counters of
    the result are the integer sums; so on the counters the reducer is
    associative, and a left fold of it over the fetched records gives the
    same counters for every order of the records. *)
Theorem sumPeriodKPIs_comm_exact_counters :
  (forall a b : PeriodKPIs, sumPeriodKPIs a b = sumPeriodKPIs b a) /\
  (forall (B : Z) (a b : PeriodKPIs),
      countsWithin B a -> countsWithin B b -> 2 * B < 2 ^ 53 ->
      countersOf (sumPeriodKPIs a b)
      = map ofZ (addCounters (intCountersOf a) (intCountersOf b))) /\
  (forall (B : Z) (a b c : PeriodKPIs),
      countsWithin B a -> countsWithin B b -> countsWithin B c ->
      3 * B < 2 ^ 53 ->
      countersOf (sumPeriodKPIs (sumPeriodKPIs a b) c)
      = countersOf (sumPeriodKPIs a (sumPeriodKPIs b c))) /\
  (forall (B : Z) (l l' : list PeriodKPIs) (z : PeriodKPIs),
      Permutation l l' ->
      Forall (countsWithin B) (z :: l) ->
      (Z.of_nat (List.length l) + 1) * B < 2 ^ 53 ->
      countersOf (fold_left sumPeriodKPIs l z)
      = countersOf (fold_left sumPeriodKPIs l' z)).
Proof.
  split; [|split; [|split]].
  - intros a b. unfold sumPeriodKPIs.
    rewrite (sumCollections_comm (collections a)),
      (sumCollections_comm (inbound a)),
      (sumWelcome_comm (welcome a)), (sumWelcome_comm (verification a)).
    reflexivity.
  - intros B a b Ha Hb HB.
    destruct (sum_counts B B a b Ha Hb) as [Hs Hi]; [lia|].
    rewrite (counters_of_ints _ _ Hs), Hi. reflexivity.
  - intros B a b c Ha Hb Hc HB.
    pose proof (countsWithin_nonneg B a Ha) as HBn.
    destruct (sum_counts B B a b Ha Hb) as [Hab Iab]; [lia|].
    destruct (sum_counts B B b c Hb Hc) as [Hbc Ibc]; [lia|].
    destruct (sum_counts (B + B) B _ c Hab Hc) as [Hl Il]; [lia|].
    destruct (sum_counts B (B + B) a _ Ha Hbc) as [Hr Ir]; [lia|].
    apply (counters_eq _ _ _ _ Hl Hr).
    rewrite Il, Ir, Iab, Ibc. apply addCounters_assoc.
  - intros B l l' z Hp Hall HB.
    inversion Hall as [|z' l0 Hz Hl]; subst.
    assert (Hl' : Forall (countsWithin B) l').
    { apply Forall_forall. intros k Hk.
      apply (proj1 (Forall_forall _ _) Hl).
      apply Permutation_in with l'; [apply Permutation_sym; exact Hp|exact Hk]. }
    assert (Hlen : List.length l' = List.length l)
      by (symmetry; apply Permutation_length; exact Hp).
    destruct (fold_counts B l Hl B z Hz) as [H1 I1]; [lia|].
    destruct (fold_counts B l' Hl' B z Hz) as [H2 I2]; [rewrite Hlen; lia|].
    apply (counters_eq _ _ _ _ H1 H2).
    rewrite I1, I2. apply fold_addCounters_permutation.
    apply Permutation_map. exact Hp.
Qed.

Ltac count_check :=
  repeat constructor; try (vm_compute; reflexivity);
  apply Z.leb_le; vm_compute; reflexivity.

Lemma sumPeriodKPIs_comm_exact_counters_witness :
  let a := kpisOfCollections (rawCallsConnects 100 50 7) in
  let b := kpisOfCollections (rawCallsConnects 300 30 11) in
  let c := kpisOfCollections (rawCallsConnects 25 5 13) in
  countersOf (sumPeriodKPIs a b)
  = map ofZ (addCounters (intCountersOf a) (intCountersOf b)) /\
  countersOf (sumPeriodKPIs (sumPeriodKPIs a b) c)
  = countersOf (sumPeriodKPIs a (sumPeriodKPIs b c)) /\
  countersOf (fold_left sumPeriodKPIs [a; b; c] emptyPeriodKPIs)
  = countersOf (fold_left sumPeriodKPIs [c; a; b] emptyPeriodKPIs).
Proof.
  cbv zeta.
  destruct sumPeriodKPIs_comm_exact_counters as (_ & Hexact & Hassoc & Hperm).
  split; [|split].
  - apply (Hexact 300); [count_check | count_check | reflexivity].
  - apply (Hassoc 300); [count_check | count_check | count_check | reflexivity].
  - apply (Hperm 300).
    + apply Permutation_sym. exact (Permutation_cons_append [_; _] _).
    + count_check.
    + reflexivity.
Defined.

(** Counterexample to C1 as the specification states it: talk times of 7,
    11 and 13 minutes, held as hours, add up to different binary64 values
    under the two groupings, and so do two orders of the same fold. *)
Lemma sumPeriodKPIs_not_associative :
  let a := kpisOfCollections (rawCallsConnects 100 50 7) in
  let b := kpisOfCollections (rawCallsConnects 300 30 11) in
  let c := kpisOfCollections (rawCallsConnects 25 5 13) in
  timeOnCallHours (collections (sumPeriodKPIs (sumPeriodKPIs a b) c))
  <> timeOnCallHours (collections (sumPeriodKPIs a (sumPeriodKPIs b c))) /\
  sumPeriodKPIs (sumPeriodKPIs a b) c <> sumPeriodKPIs a (sumPeriodKPIs b c) /\
  fold_left sumPeriodKPIs [a; b; c] emptyPeriodKPIs
  <> fold_left sumPeriodKPIs [b; c; a] emptyPeriodKPIs.
Proof.
  cbv zeta. split; [|split]; intro H.
  - apply (f_equal FloatOps.Prim2SF) in H. vm_compute in H. discriminate H.
  - apply (f_equal (fun k => FloatOps.Prim2SF (timeOnCallHours (collections k))))
      in H.
    vm_compute in H. discriminate H.
  - apply (f_equal (fun k => FloatOps.Prim2SF (timeOnCallHours (collections k))))
      in H.
    vm_compute in H. discriminate H.
Qed.

End ReducerBinary64.

(** ** Derivation after reduction, over binary64 *)

Section FanInBinary64.

Import PrimFloat FloatOps.
Import Binary64.

Local Open Scope float_scope.

Ltac float_neq :=
  let H := fresh "H" in
  intro H; apply (f_equal Prim2SF) in H; vm_compute in H; discriminate H.

Lemma recombinedCollections_spec (a b : CollectionsMetrics) :
  spec_recombinedCollections a b
    (calculateDerivedCollectionsMetrics
       (rawOfCollections (sumCollections a b))).
Proof. unfold spec_recombinedCollections. repeat split. Qed.

Lemma recombinedWelcome_spec (a b : WelcomeVerificationMetrics) :
  spec_recombinedWelcome a b
    (calculateDerivedWelcomeMetrics (rawOfWelcome (sumWelcome a b))).
Proof. unfold spec_recombinedWelcome. repeat split. Qed.

(** C2 (as amended). Over binary64, [recalculateDerivedMetrics
    (sumPeriodKPIs a b)] has, in each of the four categories, every counter
    and amount equal to the sum of those of [a] and [b] and every rate
    computed from these sums, the two time fields from the summed hours
    times 60.  Deriving two raw aggregates, reducing and recalculating
    agrees with deriving their field-wise sum on the welcome and
    verification categories and on every collections and inbound field
    other than the two time fields.  Adding or averaging the derived rates
    differs from the recomputed rate for some inputs. *)
Theorem recalculate_sum_recombines :
  (forall a b : PeriodKPIs,
      let r := recalculateDerivedMetrics (sumPeriodKPIs a b) in
      spec_recombinedCollections (collections a) (collections b)
                                 (collections r) /\
      spec_recombinedCollections (inbound a) (inbound b) (inbound r) /\
      spec_recombinedWelcome (welcome a) (welcome b) (welcome r) /\
      spec_recombinedWelcome (verification a) (verification b)
                             (verification r))
  /\
  (forall ra rb : RawAccumulators,
      let r := recalculateDerivedMetrics
                 (sumPeriodKPIs (deriveKPIs ra) (deriveKPIs rb)) in
      let d := deriveKPIs (spec_sumRaw ra rb) in
      withoutTimeFields (collections r) = withoutTimeFields (collections d) /\
      withoutTimeFields (inbound r) = withoutTimeFields (inbound d) /\
      welcome r = welcome d /\
      verification r = verification d)
  /\
  (exists ra rb : CollectionsRaw,
      let a := calculateDerivedCollectionsMetrics ra in
      let b := calculateDerivedCollectionsMetrics rb in
      let r := calculateDerivedCollectionsMetrics
                 (rawOfCollections (sumCollections a b)) in
      connectRate a + connectRate b <> connectRate r /\
      (connectRate a + connectRate b) / 2 <> connectRate r /\
      connectRate (sumCollections a b) <> connectRate r).
Proof.
  split; [|split].
  - intros a b r. subst r.
    split; [|split; [|split]];
      first [apply recombinedCollections_spec | apply recombinedWelcome_spec].
  - intros ra rb r d. subst r d. repeat split.
  - exists (rawCallsConnects 100 50 0), (rawCallsConnects 300 30 0).
    cbv zeta. repeat split; float_neq.
Qed.

(** Counterexample to C2 as the specification states it: for the raw
    aggregates (1 call, 1 minute) and (1 call, 5 minutes) the derivation of
    the field-wise sum has [timeOnCallHours = 6 / 60] and
    [avgTimePerCallMin = 3], while reducing the two derived records and
    recalculating goes through [(1/60 + 5/60) * 60], which is not [6] in
    binary64, and returns different values for both fields. *)
Lemma recalculated_time_fields_differ :
  let ra := rawCallsConnects 1 1 1 in
  let rb := rawCallsConnects 1 1 5 in
  let r := recalculateDerivedMetrics
             (sumPeriodKPIs (kpisOfCollections ra) (kpisOfCollections rb)) in
  let d := kpisOfCollections (spec_sumCollectionsRaw ra rb) in
  timeOnCallHours (collections d) = 6 / 60 /\
  avgTimePerCallMin (collections d) = 3 /\
  timeOnCallHours (collections r) = (1 / 60 + 5 / 60) * 60 / 60 /\
  avgTimePerCallMin (collections r) = (1 / 60 + 5 / 60) * 60 / 2 /\
  timeOnCallHours (collections r) <> timeOnCallHours (collections d) /\
  avgTimePerCallMin (collections r) <> avgTimePerCallMin (collections d) /\
  r <> d.
Proof.
  cbv zeta.
  split; [vm_compute; reflexivity|].
  split; [vm_compute; reflexivity|].
  split; [vm_compute; reflexivity|].
  split; [vm_compute; reflexivity|].
  split; [float_neq|]. split; [float_neq|].
  intro H.
  apply (f_equal (fun k => Prim2SF (timeOnCallHours (collections k)))) in H.
  vm_compute in H. discriminate H.
Qed.

End FanInBinary64.

(** ** Safe division and the derived collections metrics *)

Module OrderFacts.

Lemma Qc_eqb_true_iff (a b : Qc) : Qc_eqb a b = true <-> a = b.
Proof.
  unfold Qc_eqb. rewrite Qceq_alt.
  destruct (a ?= b)%Qc; split; intro H; try reflexivity; discriminate H.
Qed.

Lemma Qc_eqb_false_iff (a b : Qc) : Qc_eqb a b = false <-> a <> b.
Proof.
  rewrite <- Qc_eqb_true_iff. destruct (Qc_eqb a b); split; intro H.
  - discriminate H.
  - exfalso. apply H. reflexivity.
  - intro H'. discriminate H'.
  - reflexivity.
Qed.






End OrderFacts.

Section Derivation.

Import OrderFacts.






End Derivation.

(** ** Range of the derived rates *)

Section RateRange.

Import OrderFacts.

Lemma Fin_eq_by_value (p q : Qc) : Qc_eqb p q = true -> Fin p = Fin q.
Proof. intro H. apply Qc_eqb_true_iff in H. now subst. Qed.

















End RateRange.

(** ** Change and trend *)

Section Change.

Import OrderFacts.









End Change.

(** ** Overall score over binary64 *)

Module ScoreFacts.

Import PrimFloat SpecFloat FloatOps FloatAxioms.
Import Binary64 FloatFacts.

Local Open Scope Z_scope.

Lemma Prim2SF_zero : Prim2SF 0%float = S754_zero false.
Proof. reflexivity. Qed.

Lemma Prim2SF_100 :
  Prim2SF 100%float = S754_finite false 7036874417766400 (-46).
Proof. reflexivity. Qed.

(** A number above zero and below infinity is finite and positive. *)
Lemma positive_finite (x : float) :
  (0 <? x)%float = true -> (x <? infinity)%float = true ->
  exists (m : positive) (e : Z), Prim2SF x = S754_finite false m e.
Proof.
  rewrite !ltb_spec. rewrite Prim2SF_zero.
  replace (Prim2SF infinity) with (S754_infinity false) by reflexivity.
  destruct (Prim2SF x) as [s|s| |s m e]; try discriminate.
  - destruct s; discriminate.
  - destruct s; [discriminate|]. intros _ _. exists m, e. reflexivity.
Qed.

Lemma sub_diag (x : float) (s : bool) (m : positive) (e : Z) :
  Prim2SF x = S754_finite s m e -> (x - x)%float = 0%float.
Proof.
  intro Hx. apply Prim2SF_inj. rewrite sub_spec, Hx, Prim2SF_zero.
  unfold SF64sub, SFsub. rewrite Z.sub_diag. reflexivity.
Qed.

Lemma zero_div_positive (x : float) (m : positive) (e : Z) :
  Prim2SF x = S754_finite false m e -> (0 / x)%float = 0%float.
Proof.
  intro Hx. apply Prim2SF_inj. rewrite div_spec, Hx, Prim2SF_zero.
  reflexivity.
Qed.

(** At a finite positive baseline equal to the current value the change
    is [+0]. *)
Lemma no_change_at_baseline (b : float) (inv : bool) :
  (0 <? b)%float = true -> (b <? infinity)%float = true ->
  createScorecardMetric b b inv = 
  {| sm_current := b; sm_baseline := b; sm_change := 0%float;
     sm_trend := trend_neutral; sm_status := status_neutral |}.
Proof.
  intros H0 Hinf. destruct (positive_finite b H0 Hinf) as (m & e & Hb).
  unfold createScorecardMetric, gt, n0. rewrite H0.
  rewrite (sub_diag b false m e Hb), (zero_div_positive b m e Hb).
  destruct inv; reflexivity.
Qed.

(** The clamp of [calculateOverallScore]: [NaN], one of the bounds, or
    the argument itself when it lies between them. *)
Lemma clamp_cases (w : float) :
  let v := Math_max n0 (Math_min n100 w) in
  v = nan \/ v = 0%float \/ v = 100%float \/
  (v = w /\ (0 <? w)%float = true /\ (100 <? w)%float = false).
Proof.
  cbv zeta. unfold Math_min, n100.
  change (is_nan 100) with false. cbn [orb].
  destruct (is_nan w) eqn:Hn; [left; reflexivity|].
  destruct (100 <? w)%float eqn:H100; [right; right; left; reflexivity|].
  match goal with
  | |- context [Math_max n0 ?u] =>
      replace u with w by (destruct (w <? 100)%float; reflexivity)
  end.
  unfold Math_max, n0.
  change (is_nan 0) with false. rewrite Hn. cbn [orb].
  destruct (0 <? w)%float eqn:H0.
  - right; right; right. split; [reflexivity|]. split; reflexivity.
  - right; left. destruct (w <? 0)%float; reflexivity.
Qed.

Lemma valid_mantissa_bound (x : float) (s : bool) (m : positive) (e : Z) :
  Prim2SF x = S754_finite s m e -> Zpos m < 2 ^ 53.
Proof.
  intro Hx. pose proof (Prim2SF_valid x) as Hv. rewrite Hx in Hv.
  unfold valid_binary, bounded in Hv. apply andb_true_iff in Hv.
  destruct Hv as [Hc _]. unfold canonical_mantissa in Hc.
  apply Z.eqb_eq in Hc. rewrite fexp_eq in Hc.
  pose proof (digits2_pos_bounds m) as [_ Hhi].
  assert (Hd : Zpos (digits2_pos m) <= 53) by lia.
  apply Z.lt_le_trans with (2 ^ Zpos (digits2_pos m)); [exact Hhi|].
  apply Z.pow_le_mono_r; lia.
Qed.

(** [Math.round] of a number in (0, 100] is an integer between 0 and
    100. *)
Lemma round_in_range (w : float) :
  (0 <? w)%float = true -> (100 <? w)%float = false ->
  exists n : Z, 0 <= n <= 100 /\ Math_round w = ofZ n.
Proof.
  rewrite !ltb_spec, Prim2SF_zero, Prim2SF_100. intros H0 H100.
  unfold Math_round.
  destruct (Prim2SF w) as [s|s| |s m e] eqn:Hw; try discriminate.
  - destruct s; discriminate.
  - destruct s; [discriminate|].
    pose proof (valid_mantissa_bound w false m e Hw) as Hm.
    unfold SFltb, SFcompare in H100.
    assert (He : e < -46 \/ (e = -46 /\ Zpos m <= 7036874417766400)).
    { destruct (Z.compare_spec (-46) e) as [E|E|E].
      - right. split; [lia|]. subst e.
        change (Pos.compare_cont Eq 7036874417766400 m)
          with (Pos.compare 7036874417766400 m) in H100.
        assert (Hc : (7036874417766400 >= m)%positive).
        { intro Hc. rewrite Hc in H100. discriminate H100. }
        apply Pos.ge_le in Hc. apply Pos2Z.pos_le_pos. exact Hc.
      - discriminate H100.
      - left. lia. }
    destruct e as [|k|k]; try lia.
    set (n := roundHalfUp false m (Zneg k)).
    assert (Hn : 0 <= n <= 100).
    { subst n. unfold roundHalfUp, cond_Zopp.
      assert (Hk : 46 <= Zpos k) by lia.
      assert (H2k : 0 < 2 ^ Zpos k) by (apply Z.pow_pos_nonneg; lia).
      assert (Hmk : Zpos m <= 100 * 2 ^ Zpos k).
      { destruct He as [He|[He Hm']].
        - assert (2 ^ 53 <= 64 * 2 ^ Zpos k).
          { replace (Zpos k) with (47 + (Zpos k - 47)) by lia.
            rewrite Z.pow_add_r by lia.
            assert (1 <= 2 ^ (Zpos k - 47)).
            { change 1 with (2 ^ 0). apply Z.pow_le_mono_r; lia. }
            change (2 ^ 53) with (64 * 2 ^ 47). nia. }
          lia.
        - assert (Zpos k = 46) by lia.
          replace (2 ^ Zpos k) with (2 ^ 46) by (f_equal; lia).
          change (2 ^ 46) with 70368744177664. lia. }
      rewrite Z.pow_add_r by lia. change (2 ^ 1) with 2.
      split.
      - apply Z.div_pos; lia.
      - assert (Hlt : (2 * Zpos m + 2 ^ Zpos k) / (2 ^ Zpos k * 2) < 101).
        { apply Z.div_lt_upper_bound; lia. }
        lia. }
    exists n. split; [exact Hn|].
    destruct (Z.eqb_spec n 0) as [E|E]; [rewrite E|]; reflexivity.
Qed.

(** The score is [NaN] or an integer between 0 and 100. *)
Lemma score_is_integer (m : ScorecardMetrics) :
  calculateOverallScore m = nan \/
  exists n : Z, 0 <= n <= 100 /\ calculateOverallScore m = ofZ n.
Proof.
  unfold calculateOverallScore. cbv zeta.
  match goal with
  | |- context [Math_min n100 ?w] =>
      destruct (clamp_cases w) as [H|[H|[H|(H & H0 & H100)]]]; rewrite H
  end.
  - left. reflexivity.
  - right. exists 0. split; [lia|reflexivity].
  - right. exists 100. split; [lia|reflexivity].
  - right. apply round_in_range; assumption.
Qed.

Lemma HealthStatus_eqb_eq (a b : HealthStatus) :
  HealthStatus_eqb a b = true -> a = b.
Proof. destruct a, b; simpl; intro H; try reflexivity; discriminate H. Qed.

Lemma status_of_integer_score (n : Z) :
  0 <= n <= 100 ->
  getOverallStatusFromScore (ofZ n) = spec_statusOfScore n.
Proof.
  intro Hn.
  assert (Hall : forallb
            (fun k => HealthStatus_eqb
                        (getOverallStatusFromScore (ofZ (Z.of_nat k)))
                        (spec_statusOfScore (Z.of_nat k)))
            (seq 0 101) = true) by (vm_compute; reflexivity).
  rewrite forallb_forall in Hall. specialize (Hall (Z.to_nat n)).
  rewrite Z2Nat.id in Hall by lia.
  apply HealthStatus_eqb_eq, Hall. apply in_seq. lia.
Qed.

Lemma isPositiveFinite_spec (x : float) :
  isPositiveFinite x = true ->
  (0 <? x)%float = true /\ (x <? infinity)%float = true.
Proof. unfold isPositiveFinite. apply andb_true_iff. Qed.

End ScoreFacts.

(** ** Rounding error of the overall score *)

Module RoundingFacts.

Import PrimFloat SpecFloat FloatOps FloatAxioms.
Import Binary64 FloatFacts.

Local Open Scope Z_scope.

Lemma shr_1_nonneg (m : Z) (r s : bool) :
  0 <= m ->
  shr_1 (Build_shr_record m r s)
  = Build_shr_record (m / 2) (Z.odd m) (r || s).
Proof.
  intro Hm. rewrite <- Z.div2_div.
  destruct m as [|p|p]; [reflexivity| |lia].
  destruct p; reflexivity.
Qed.

(** After [n >= 1] halvings of [m]: the quotient, the last bit shifted
    out, and whether any bit below it was set. *)
Lemma shr_iter (m : Z) (n : nat) :
  0 <= m ->
  Nat.iter (S n) shr_1 (Build_shr_record m false false)
  = Build_shr_record (m / 2 ^ Z.of_nat (S n))
                     (Z.odd (m / 2 ^ Z.of_nat n))
                     (negb (m mod 2 ^ Z.of_nat n =? 0)).
Proof.
  intro Hm. induction n as [|n IH].
  - cbn [Nat.iter]. rewrite shr_1_nonneg by exact Hm.
    change (2 ^ Z.of_nat 1) with 2. change (2 ^ Z.of_nat 0) with 1.
    rewrite Z.div_1_r, Z.mod_1_r. reflexivity.
  - change (Nat.iter (S (S n)) shr_1 ?x) with (shr_1 (Nat.iter (S n) shr_1 x)).
    rewrite IH.
    assert (H2 : 0 < 2 ^ Z.of_nat n) by (apply Z.pow_pos_nonneg; lia).
    assert (Hq : 0 <= m / 2 ^ Z.of_nat (S n)).
    { apply Z.div_pos; [exact Hm|]. apply Z.pow_pos_nonneg; lia. }
    rewrite shr_1_nonneg by exact Hq.
    f_equal.
    + rewrite Z.div_div by lia.
      rewrite (Nat2Z.inj_succ (S n)), Z.pow_succ_r by lia.
      f_equal. ring.
    + rewrite (Nat2Z.inj_succ n), Z.pow_succ_r by lia.
      set (P := 2 ^ Z.of_nat n) in *.
      (* m mod (2P) = 0 iff bit n is clear and m mod P = 0 *)
      assert (Hdm : m = (m / P) * P + m mod P) by
        (rewrite Z.mul_comm; apply Z.div_mod; lia).
      assert (Hr : 0 <= m mod P < P) by (apply Z.mod_pos_bound; lia).
      assert (Hodd : m / P = 2 * (m / P / 2) + (if Z.odd (m / P) then 1 else 0)).
      { rewrite (Z.div2_odd (m / P)) at 1. rewrite Z.div2_div.
        destruct (Z.odd (m / P)); reflexivity. }
      assert (Hmod : m mod (2 * P)
                     = (if Z.odd (m / P) then P else 0) + m mod P).
      { symmetry. apply Z.mod_unique_pos with (m / P / 2).
        - destruct (Z.odd (m / P)); lia.
        - destruct (Z.odd (m / P)); nia. }
      rewrite Hmod.
      destruct (Z.odd (m / P)); destruct (Z.eqb_spec (m mod P) 0);
        cbn [orb negb]; symmetry;
        first [ apply negb_true_iff, Z.eqb_neq; lia
              | apply negb_false_iff, Z.eqb_eq; lia ].
Qed.

(** Shifting [m >= 0] right by [p] bits and rounding to nearest, ties to
    even: the result is within half a unit of [m / 2^p]. *)
Lemma shr_round (m : Z) (p : positive) :
  0 <= m ->
  let mrs := iter_pos shr_1 p (Build_shr_record m false false) in
  let q := round_nearest_even (shr_m mrs) (loc_of_shr_record mrs) in
  m / 2 ^ Zpos p <= q <= m / 2 ^ Zpos p + 1 /\
  2 * Z.abs (q * 2 ^ Zpos p - m) <= 2 ^ Zpos p.
Proof.
  intro Hm. cbv zeta. rewrite iter_pos_iter, Pos2Nat.inj_iter.
  destruct (Pos2Nat.is_succ p) as [n Hn]. rewrite Hn.
  assert (Hp : Zpos p = Z.of_nat (S n)) by lia. rewrite Hp.
  change (nat_rect (fun _ : nat => shr_record) ?x (fun _ : nat => shr_1) (S n))
    with (Nat.iter (S n) shr_1 x).
  rewrite shr_iter by exact Hm. cbn [shr_m].
  rewrite Nat2Z.inj_succ, Z.pow_succ_r by lia.
  set (P := 2 ^ Z.of_nat n).
  assert (H2 : 0 < P) by (apply Z.pow_pos_nonneg; lia).
  assert (Hdm : m = (m / P) * P + m mod P) by
    (rewrite Z.mul_comm; apply Z.div_mod; lia).
  assert (Hr : 0 <= m mod P < P) by (apply Z.mod_pos_bound; lia).
  assert (Hq : m / (2 * P) = m / P / 2).
  { rewrite Z.mul_comm. symmetry. apply Z.div_div; lia. }
  rewrite Hq.
  assert (Hodd : m / P = 2 * (m / P / 2) + (if Z.odd (m / P) then 1 else 0)).
  { rewrite (Z.div2_odd (m / P)) at 1. rewrite Z.div2_div.
    destruct (Z.odd (m / P)); reflexivity. }
  set (Q := m / P / 2) in *.
  destruct (Z.odd (m / P)); destruct (Z.eqb_spec (m mod P) 0) as [E|E];
    cbn [negb loc_of_shr_record round_nearest_even].
  - destruct (Z.even Q); split; try lia; nia.
  - split; [lia|nia].
  - split; [lia|nia].
  - split; [lia|nia].
Qed.

Lemma fexp_ge_emin (e : Z) : -1074 <= fexp prec emax e.
Proof. rewrite fexp_eq. lia. Qed.

(** What [binary_round_aux] returns on an exact positive input, as long
    as the result does not overflow: the input itself when it needs no
    shift, and otherwise the mantissa [q] rounded to nearest at the
    exponent [fexp]. *)
Lemma binary_round_aux_cases (s : bool) (p : positive) (e : Z) :
  let e' := fexp prec emax (Zpos (digits2_pos p) + e) in
  Z.max e e' < emax - prec ->
  (e' <= e /\
   binary_round_aux prec emax s (Zpos p) e loc_Exact = S754_finite s p e)
  \/
  (e < e' /\
   exists q : Z,
     0 <= q <= 2 ^ 53 /\
     2 * Z.abs (q * 2 ^ (e' - e) - Zpos p) <= 2 ^ (e' - e) /\
     binary_round_aux prec emax s (Zpos p) e loc_Exact
     = match q with
       | Z0 => S754_zero s
       | Zpos q' =>
           if q =? 2 ^ 53 then S754_finite s (2 ^ 52)%positive (e' + 1)
           else S754_finite s q' e'
       | Zneg _ => S754_nan
       end).
Proof.
  intros e' Hov.
  pose proof (digits2_pos_bounds p) as [Dlo Dhi].
  set (d := Zpos (digits2_pos p)) in *.
  assert (He' : e' = Z.max (d + e - 53) (-1074)) by (subst e'; apply fexp_eq).
  unfold emax, prec in Hov.
  destruct (Z_le_gt_dec e' e) as [Hle|Hgt].
  - left. split; [exact Hle|].
    unfold binary_round_aux, shr_fexp. cbn [Zdigits2 shr_record_of_loc].
    fold d. fold e'.
    assert (Hk : forall mrs, shr mrs e (e' - e) = (mrs, e)).
    { intro mrs. unfold shr. destruct (e' - e) eqn:E; try reflexivity. lia. }
    rewrite Hk.
    cbn [shr_m loc_of_shr_record round_nearest_even Zdigits2 shr_record_of_loc].
    fold d. fold e'. rewrite Hk. cbn [shr_m].
    replace (e <=? emax - prec) with true
      by (symmetry; apply Z.leb_le; unfold emax, prec; lia).
    reflexivity.
  - right. split; [lia|].
    destruct (e' - e) as [|k|k] eqn:Hk; try lia.
    destruct (shr_round (Zpos p) k) as [Hq Herr]; [lia|].
    cbv zeta in Hq, Herr.
    set (mrs := iter_pos shr_1 k (Build_shr_record (Zpos p) false false)) in *.
    set (q := round_nearest_even (shr_m mrs) (loc_of_shr_record mrs)) in *.
    assert (H2k : 0 < 2 ^ Zpos k) by (apply Z.pow_pos_nonneg; lia).
    assert (Hdiv : 0 <= Zpos p / 2 ^ Zpos k < 2 ^ 53).
    { split; [apply Z.div_pos; lia|].
      apply Z.div_lt_upper_bound; [lia|].
      rewrite <- Z.pow_add_r by lia.
      apply Z.lt_le_trans with (2 ^ d); [exact Dhi|].
      apply Z.pow_le_mono_r; lia. }
    exists q. split; [lia|]. split; [exact Herr|].
    unfold binary_round_aux, shr_fexp. cbn [Zdigits2 shr_record_of_loc].
    fold d. fold e'. rewrite Hk. cbn [shr]. fold mrs. fold q.
    replace (e + Zpos k) with e' by lia.
    destruct q as [|q'|q'] eqn:Eq; try lia.
    + cbn [Zdigits2 shr_record_of_loc]. rewrite Z.add_0_l.
      assert (Hk2 : forall m0, shr m0 e' (fexp prec emax e' - e') = (m0, e')).
      { intro m0. unfold shr. rewrite fexp_eq.
        destruct (Z.max (e' - 53) (-1074) - e') eqn:E; try reflexivity. lia. }
      rewrite Hk2. reflexivity.
    + destruct (Z.eqb_spec (Zpos q') (2 ^ 53)) as [E53|E53].
      * injection E53 as ->. cbn [Zdigits2 shr_record_of_loc].
        match goal with
        | |- context [digits2_pos ?x] =>
            replace (Zpos (digits2_pos x)) with 54 by reflexivity
        end.
        replace (fexp prec emax (54 + e') - e') with 1
          by (rewrite fexp_eq; lia).
        cbn [shr iter_pos shr_1 shr_m].
        replace (e' + 1 <=? emax - prec) with true
          by (symmetry; apply Z.leb_le; unfold emax, prec; lia).
        reflexivity.
      * assert (Hq53 : Zpos q' < 2 ^ 53) by lia.
        pose proof (digits2_pos_bounds q') as [Qlo Qhi].
        assert (Hdq : Zpos (digits2_pos q') <= 53).
        { destruct (Z_le_gt_dec (Zpos (digits2_pos q')) 53) as [H|H];
            [exact H|].
          exfalso.
          assert (2 ^ 53 <= 2 ^ (Zpos (digits2_pos q') - 1))
            by (apply Z.pow_le_mono_r; lia).
          lia. }
        cbn [Zdigits2 shr_record_of_loc].
        assert (Hk2 : forall m0,
                   shr m0 e' (fexp prec emax (Zpos (digits2_pos q') + e') - e')
                   = (m0, e')).
        { intro m0. unfold shr. rewrite fexp_eq.
          destruct (Z.max (Zpos (digits2_pos q') + e' - 53) (-1074) - e')
            eqn:E; try reflexivity. lia. }
        rewrite Hk2. cbn [shr_m].
        replace (e' <=? emax - prec) with true
          by (symmetry; apply Z.leb_le; unfold emax, prec; lia).
        reflexivity.
Qed.

Local Open Scope Q_scope.

Lemma pow2_pos (e : Z) : 0 < pow2 e.
Proof. unfold pow2. apply Qpower_0_lt. reflexivity. Qed.

Lemma pow2_add (a b : Z) : pow2 (a + b) == pow2 a * pow2 b.
Proof. unfold pow2. apply Qpower_plus. discriminate. Qed.

Lemma pow2_Z (k : Z) : (0 <= k)%Z -> inject_Z (2 ^ k) == pow2 k.
Proof. intro Hk. unfold pow2. apply (Zpower_Qpower 2 k Hk). Qed.

Lemma pow2_le (a b : Z) : (a <= b)%Z -> pow2 a <= pow2 b.
Proof. intro H. unfold pow2. apply Qpower_le_compat_l; [exact H|discriminate]. Qed.

Lemma pow2_lt_inv (a b : Z) : pow2 a < pow2 b -> (a < b)%Z.
Proof. intro H. unfold pow2 in H. apply (Qpower_lt_compat_l_inv 2); [exact H|reflexivity]. Qed.

Lemma pow2_half (e : Z) : pow2 e == 2 * pow2 (e - 1).
Proof.
  replace e with (1 + (e - 1))%Z at 1 by ring. rewrite pow2_add. reflexivity.
Qed.

(** The value [binary_round_aux] returns for the exact positive input
    [p * 2^e]: a finite number or zero of the same sign, within half a unit
    in the last place of the input. *)
Lemma binary_round_aux_value (s : bool) (p : positive) (e : Z) :
  let e' := fexp prec emax (Zpos (digits2_pos p) + e) in
  (Z.max e e' < emax - prec)%Z ->
  let r := binary_round_aux prec emax s (Zpos p) e loc_Exact in
  SFfinite r = true /\
  exists V : Q,
    0 <= V /\ SF2Q r == signedQ s V /\
    Qabs (V - inject_Z (Zpos p) * pow2 e) <= pow2 (e' - 1).
Proof.
  intros e' Hov r. subst r.
  pose proof (binary_round_aux_cases s p e) as H.
  cbv zeta in H. fold e' in H. specialize (H Hov).
  destruct H as [[Hle ->]|[Hlt (q & Hq & Herr & ->)]].
  - split; [reflexivity|].
    exists (inject_Z (Zpos p) * pow2 e). split; [|split].
    + apply Qmult_le_0_compat; [discriminate|apply Qlt_le_weak, pow2_pos].
    + unfold SF2Q, signedQ, cond_Zopp. destruct s; [|reflexivity].
      rewrite inject_Z_opp. ring.
    + setoid_replace (inject_Z (Zpos p) * pow2 e - inject_Z (Zpos p) * pow2 e)
        with 0 by ring.
      apply Qlt_le_weak, pow2_pos.
  - set (k := (e' - e)%Z) in *.
    assert (Hk : (0 < k)%Z) by (subst k; lia).
    assert (He' : pow2 e' == inject_Z (2 ^ k) * pow2 e).
    { replace e' with (k + e)%Z by (subst k; ring).
      rewrite pow2_add, pow2_Z by lia. reflexivity. }
    assert (Hbound : Qabs (inject_Z q * pow2 e' - inject_Z (Zpos p) * pow2 e)
                     <= pow2 (e' - 1)).
    { setoid_replace (inject_Z q * pow2 e' - inject_Z (Zpos p) * pow2 e)
        with (inject_Z (q * 2 ^ k - Zpos p) * pow2 e)
        by (rewrite He'; unfold Z.sub;
            rewrite inject_Z_plus, inject_Z_opp, inject_Z_mult; ring).
      rewrite Qabs_Qmult, (Qabs_pos (pow2 e)) by (apply Qlt_le_weak, pow2_pos).
      apply Qmult_lt_0_le_reg_r with 2; [reflexivity|].
      setoid_replace (pow2 (e' - 1) * 2) with (inject_Z (2 ^ k) * pow2 e)
        by (rewrite <- He', (pow2_half e'); ring).
      setoid_replace (Qabs (inject_Z (q * 2 ^ k - Zpos p)) * pow2 e * 2)
        with (inject_Z (2 * Z.abs (q * 2 ^ k - Zpos p)) * pow2 e).
      - apply Qmult_le_compat_r; [|apply Qlt_le_weak, pow2_pos].
        rewrite <- Zle_Qle. exact Herr.
      - rewrite inject_Z_mult.
        replace (inject_Z (Z.abs (q * 2 ^ k - Zpos p)))
          with (Qabs (inject_Z (q * 2 ^ k - Zpos p))).
        + change (inject_Z 2) with 2. ring.
        + unfold Qabs, inject_Z. reflexivity. }
    destruct q as [|q'|q'] eqn:Eq; try lia.
    + split; [reflexivity|].
      exists 0. split; [apply Qle_refl|]. split.
      * unfold SF2Q, signedQ. destruct s; reflexivity.
      * setoid_replace (0 - inject_Z (Zpos p) * pow2 e)
          with (inject_Z 0 * pow2 e' - inject_Z (Zpos p) * pow2 e)
          by (change (inject_Z 0) with 0; ring).
        exact Hbound.
    + assert (HV : forall m e2, inject_Z (Zpos m) * pow2 e2
                                == inject_Z (Zpos q') * pow2 e' ->
                   SFfinite (S754_finite s m e2) = true /\
                   exists V : Q, 0 <= V /\
                     SF2Q (S754_finite s m e2) == signedQ s V /\
                     Qabs (V - inject_Z (Zpos p) * pow2 e) <= pow2 (e' - 1)).
      { intros m e2 Hm. split; [reflexivity|].
        exists (inject_Z (Zpos q') * pow2 e'). split; [|split].
        - apply Qmult_le_0_compat; [discriminate|apply Qlt_le_weak, pow2_pos].
        - unfold SF2Q, signedQ, cond_Zopp.
          destruct s; [|exact Hm]. rewrite inject_Z_opp, <- Hm. ring.
        - exact Hbound. }
      destruct (Z.eqb_spec (Zpos q') (2 ^ 53)) as [E53|E53].
      * apply HV. rewrite E53.
        replace (e' + 1)%Z with (1 + e')%Z by ring. rewrite pow2_add.
        change (inject_Z (Zpos (2 ^ 52))) with (inject_Z (2 ^ 52)).
        change (pow2 1) with 2.
        setoid_replace (inject_Z (2 ^ 53)) with (inject_Z (2 ^ 52) * 2)
          by reflexivity.
        ring.
      * apply HV. reflexivity.
Qed.

Lemma signedQ_abs_diff (s : bool) (v w : Q) :
  Qabs (signedQ s v - signedQ s w) == Qabs (v - w).
Proof.
  unfold signedQ. destruct s; [|reflexivity].
  setoid_replace (- v - - w) with (- (v - w)) by ring. apply Qabs_opp.
Qed.

Lemma signedQ_abs (s : bool) (v : Q) : 0 <= v -> Qabs (signedQ s v) == v.
Proof.
  intro Hv. unfold signedQ. destruct s.
  - rewrite Qabs_opp. apply Qabs_pos. exact Hv.
  - apply Qabs_pos. exact Hv.
Qed.

Lemma inject_cond_Zopp (s : bool) (z : Z) :
  inject_Z (cond_Zopp s z) == signedQ s (inject_Z z).
Proof. destruct s; simpl; [rewrite inject_Z_opp|]; reflexivity. Qed.

Lemma signedQ_mul_l (s : bool) (v w : Q) : signedQ s v * w == signedQ s (v * w).
Proof. destruct s; simpl; ring. Qed.

Lemma SF2Q_finite (s : bool) (m : positive) (e : Z) :
  SF2Q (S754_finite s m e) == signedQ s (inject_Z (Zpos m) * pow2 e).
Proof. unfold SF2Q. rewrite inject_cond_Zopp. apply signedQ_mul_l. Qed.

(** A value below [2^t] has its last digit below position [t]. *)
Lemma magnitude_digits (p : positive) (e t : Z) :
  inject_Z (Zpos p) * pow2 e < pow2 t ->
  (Zpos (digits2_pos p) + e <= t)%Z.
Proof.
  intro H. pose proof (digits2_pos_bounds p) as [Dlo _].
  set (d := Zpos (digits2_pos p)) in *.
  assert (Hd : (0 <= d - 1)%Z) by (subst d; lia).
  assert (H1 : pow2 (d - 1 + e) <= inject_Z (Zpos p) * pow2 e).
  { rewrite pow2_add. apply Qmult_le_compat_r.
    - rewrite <- pow2_Z by exact Hd. rewrite <- Zle_Qle. exact Dlo.
    - apply Qlt_le_weak, pow2_pos. }
  assert (H2 : pow2 (d - 1 + e) < pow2 t) by (eapply Qle_lt_trans; eassumption).
  apply pow2_lt_inv in H2. lia.
Qed.

Lemma binary_round_value (s : bool) (p : positive) (e : Z) :
  let e' := fexp prec emax (Zpos (digits2_pos p) + e) in
  (e' < emax - prec)%Z ->
  let r := binary_round prec emax s p e in
  SFfinite r = true /\
  exists V : Q,
    0 <= V /\ SF2Q r == signedQ s V /\
    Qabs (V - inject_Z (Zpos p) * pow2 e) <= pow2 (e' - 1).
Proof.
  intros e' Hov r. subst r. unfold binary_round. fold e'.
  unfold shl_align.
  destruct (e' - e)%Z as [|k|k] eqn:Hk.
  - apply (binary_round_aux_value s p e). fold e'. lia.
  - apply (binary_round_aux_value s p e). fold e'. lia.
  - assert (Hm : Zpos (Pos.iter xO p k) = (Zpos p * 2 ^ Zpos k)%Z)
      by apply iter_xO.
    assert (Hd : (Zpos (digits2_pos (Pos.iter xO p k)) + e'
                  = Zpos (digits2_pos p) + e)%Z).
    { rewrite (digits2_pos_shift p (Pos.iter xO p k) (Zpos k)); [lia|lia|exact Hm]. }
    pose proof (binary_round_aux_value s (Pos.iter xO p k) e') as H.
    cbv zeta in H. rewrite Hd in H. fold e' in H.
    destruct H as [Hf (V & HV0 & HVs & HVb)]; [lia|].
    split; [exact Hf|]. exists V. split; [exact HV0|]. split; [exact HVs|].
    setoid_replace (inject_Z (Zpos p) * pow2 e)
      with (inject_Z (Zpos (Pos.iter xO p k)) * pow2 e'); [exact HVb|].
    rewrite Hm, inject_Z_mult, pow2_Z by lia.
    replace e with (Zpos k + e')%Z at 1 by lia. rewrite pow2_add. ring.
Qed.

Lemma fexp_le (n t : Z) :
  (n <= t)%Z -> (-1021 <= t)%Z -> (fexp prec emax n <= t - 53)%Z.
Proof. intros. rewrite fexp_eq. lia. Qed.

Lemma exponent_lt (p : positive) (e t : Z) :
  inject_Z (Zpos p) * pow2 e < pow2 t -> (e < t)%Z.
Proof.
  intro H. apply pow2_lt_inv. eapply Qle_lt_trans; [|exact H].
  setoid_replace (pow2 e) with (1 * pow2 e) at 1 by ring.
  apply Qmult_le_compat_r; [|apply Qlt_le_weak, pow2_pos].
  change 1 with (inject_Z 1). rewrite <- Zle_Qle. lia.
Qed.

(** A rounded operation whose exact result [signedQ s P] has [P] below
    [2^t]: the outcome is finite and within [2^(t - 54)]. *)
Lemma rounded_value (r : spec_float) (s : bool) (p : positive) (e t : Z) :
  (SFfinite r = true /\
   exists V : Q,
     0 <= V /\ SF2Q r == signedQ s V /\
     Qabs (V - inject_Z (Zpos p) * pow2 e)
     <= pow2 (fexp prec emax (Zpos (digits2_pos p) + e) - 1)) ->
  inject_Z (Zpos p) * pow2 e < pow2 t -> (-1021 <= t)%Z ->
  SFfinite r = true /\
  Qabs (SF2Q r - signedQ s (inject_Z (Zpos p) * pow2 e)) <= pow2 (t - 54).
Proof.
  intros [Hf (V & HV0 & HVs & HVb)] Hmag Ht.
  split; [exact Hf|].
  rewrite HVs, signedQ_abs_diff.
  eapply Qle_trans; [exact HVb|]. apply pow2_le.
  pose proof (magnitude_digits p e t Hmag) as Hd.
  pose proof (fexp_le _ t Hd Ht). lia.
Qed.

Lemma mul_value (x y : float) (t : Z) :
  isFinite x = true -> isFinite y = true ->
  Qabs (valueOf x * valueOf y) < pow2 t -> (-1021 <= t <= 970)%Z ->
  isFinite (x * y) = true /\
  Qabs (valueOf (x * y) - valueOf x * valueOf y) <= pow2 (t - 54).
Proof.
  unfold isFinite, valueOf. rewrite mul_spec.
  destruct (Prim2SF x) as [sx|sx| |sx mx ex]; try discriminate;
    destruct (Prim2SF y) as [sy|sy| |sy my ey]; try discriminate;
    intros _ _ Hmag Ht.
  1-3: split; [reflexivity|]; cbn [SF64mul SFmul SF2Q];
       match goal with
       | |- Qabs ?a <= _ => setoid_replace a with 0 by ring
       end; apply Qlt_le_weak, pow2_pos.
  assert (Hprod : SF2Q (S754_finite sx mx ex) * SF2Q (S754_finite sy my ey)
                  == signedQ (xorb sx sy)
                       (inject_Z (Zpos (mx * my)) * pow2 (ex + ey))).
  { unfold SF2Q, cond_Zopp.
    destruct sx, sy; cbn [xorb signedQ];
      rewrite ?inject_Z_opp, pow2_add, Pos2Z.inj_mul, inject_Z_mult; ring. }
  rewrite Hprod in Hmag |- *.
  rewrite signedQ_abs in Hmag.
  2:{ apply Qmult_le_0_compat; [discriminate|apply Qlt_le_weak, pow2_pos]. }
  unfold SF64mul, SFmul.
  apply rounded_value; [|exact Hmag|lia].
  apply binary_round_aux_value.
  pose proof (magnitude_digits _ _ t Hmag) as Hd.
  pose proof (fexp_le _ t Hd (proj1 Ht)).
  pose proof (exponent_lt _ _ t Hmag).
  change (emax - prec)%Z with 971%Z. lia.
Qed.

Lemma add_value (x y : float) (t : Z) :
  isFinite x = true -> isFinite y = true ->
  Qabs (valueOf x + valueOf y) < pow2 t -> (-1021 <= t <= 970)%Z ->
  isFinite (x + y) = true /\
  Qabs (valueOf (x + y) - (valueOf x + valueOf y)) <= pow2 (t - 54).
Proof.
  unfold isFinite, valueOf. rewrite add_spec.
  destruct (Prim2SF x) as [sx|sx| |sx mx ex]; try discriminate;
    destruct (Prim2SF y) as [sy|sy| |sy my ey]; try discriminate;
    intros _ _ Hmag Ht.
  - split; [destruct sx, sy; reflexivity|].
    assert (Hz : SF2Q (SF64add (S754_zero sx) (S754_zero sy)) == 0)
      by (destruct sx, sy; reflexivity).
    rewrite Hz. cbn [SF2Q].
    setoid_replace (0 - (0 + 0)) with 0 by ring.
    apply Qlt_le_weak, pow2_pos.
  - split; [reflexivity|]. cbn [SF64add SFadd].
    match goal with
    | |- Qabs ?a <= _ => setoid_replace a with 0 by (cbn [SF2Q]; ring)
    end; apply Qlt_le_weak, pow2_pos.
  - split; [reflexivity|]. cbn [SF64add SFadd].
    match goal with
    | |- Qabs ?a <= _ => setoid_replace a with 0 by (cbn [SF2Q]; ring)
    end; apply Qlt_le_weak, pow2_pos.
  - unfold SF64add, SFadd.
    set (ez := Z.min ex ey).
    set (zx := cond_Zopp sx (Zpos (fst (shl_align mx ex ez)))).
    set (zy := cond_Zopp sy (Zpos (fst (shl_align my ey ez)))).
    assert (Hsum : SF2Q (S754_finite sx mx ex) + SF2Q (S754_finite sy my ey)
                   == inject_Z (zx + zy) * pow2 ez).
    { subst zx zy. rewrite !shl_align_value by (subst ez; lia).
      assert (Hex : pow2 ex == inject_Z (2 ^ (ex - ez)) * pow2 ez).
      { rewrite pow2_Z, <- pow2_add by (subst ez; lia).
        replace (ex - ez + ez)%Z with ex by ring. reflexivity. }
      assert (Hey : pow2 ey == inject_Z (2 ^ (ey - ez)) * pow2 ez).
      { rewrite pow2_Z, <- pow2_add by (subst ez; lia).
        replace (ey - ez + ez)%Z with ey by ring. reflexivity. }
      unfold SF2Q, cond_Zopp.
      destruct sx, sy;
        rewrite inject_Z_plus, ?inject_Z_opp, !inject_Z_mult, Hex, Hey;
        ring. }
    rewrite Hsum in Hmag |- *.
    destruct (zx + zy)%Z as [|p|p] eqn:Hz.
    + split; [reflexivity|]. cbn [binary_normalize SF2Q].
      match goal with
      | |- Qabs ?a <= _ => setoid_replace a with 0 by ring
      end; apply Qlt_le_weak, pow2_pos.
    + cbn [binary_normalize].
      assert (Hmag' : inject_Z (Zpos p) * pow2 ez < pow2 t).
      { rewrite Qabs_pos in Hmag; [exact Hmag|].
        apply Qmult_le_0_compat; [discriminate|apply Qlt_le_weak, pow2_pos]. }
      change (inject_Z (Zpos p) * pow2 ez)
        with (signedQ false (inject_Z (Zpos p) * pow2 ez)).
      apply rounded_value; [|exact Hmag'|lia].
      apply binary_round_value.
      pose proof (magnitude_digits _ _ t Hmag') as Hd.
      pose proof (fexp_le _ t Hd (proj1 Ht)).
      change (emax - prec)%Z with 971%Z. lia.
    + cbn [binary_normalize].
      assert (Hneg : inject_Z (Zneg p) * pow2 ez
                     == signedQ true (inject_Z (Zpos p) * pow2 ez)).
      { change (Zneg p) with (- Zpos p)%Z. rewrite inject_Z_opp.
        simpl. ring. }
      rewrite Hneg in Hmag |- *.
      assert (Hmag' : inject_Z (Zpos p) * pow2 ez < pow2 t).
      { rewrite signedQ_abs in Hmag; [exact Hmag|].
        apply Qmult_le_0_compat; [discriminate|apply Qlt_le_weak, pow2_pos]. }
      apply rounded_value; [|exact Hmag'|lia].
      apply binary_round_value.
      pose proof (magnitude_digits _ _ t Hmag') as Hd.
      pose proof (fexp_le _ t Hd (proj1 Ht)).
      change (emax - prec)%Z with 971%Z. lia.
Qed.

(** *** Comparison *)

Lemma valid_finite (s : bool) (m : positive) (e : Z) :
  valid_binary (S754_finite s m e) = true ->
  (e = Z.max (Zpos (digits2_pos m) + e - 53) (-1074))%Z.
Proof.
  unfold valid_binary, bounded. intro H. apply andb_true_iff in H.
  destruct H as [Hc _]. unfold canonical_mantissa in Hc.
  apply Z.eqb_eq in Hc. rewrite fexp_eq in Hc. lia.
Qed.

(** Of two valid positive mantissa-exponent pairs, the one with the
    smaller exponent is the smaller value. *)
Lemma lt_by_exponent (m1 m2 : positive) (e1 e2 : Z) :
  (e1 = Z.max (Zpos (digits2_pos m1) + e1 - 53) (-1074))%Z ->
  (e2 = Z.max (Zpos (digits2_pos m2) + e2 - 53) (-1074))%Z ->
  (e1 < e2)%Z ->
  inject_Z (Zpos m1) * pow2 e1 < inject_Z (Zpos m2) * pow2 e2.
Proof.
  intros H1 H2 Hlt.
  pose proof (digits2_pos_bounds m1) as [_ Hhi].
  pose proof (digits2_pos_bounds m2) as [Hlo _].
  assert (Hd1 : (Zpos (digits2_pos m1) <= 53)%Z) by lia.
  assert (Hd2 : (Zpos (digits2_pos m2) = 53)%Z) by lia.
  rewrite Hd2 in Hlo.
  assert (Hm1 : (Zpos m1 < 2 ^ 53)%Z).
  { eapply Z.lt_le_trans; [exact Hhi|]. apply Z.pow_le_mono_r; lia. }
  apply Qlt_le_trans with (pow2 (53 + e1)).
  - rewrite pow2_add. apply Qmult_lt_compat_r; [apply pow2_pos|].
    rewrite <- pow2_Z by lia. rewrite <- Zlt_Qlt. exact Hm1.
  - apply Qle_trans with (pow2 (52 + e2)); [apply pow2_le; lia|].
    rewrite pow2_add. apply Qmult_le_compat_r; [|apply Qlt_le_weak, pow2_pos].
    rewrite <- pow2_Z by lia. rewrite <- Zle_Qle. exact Hlo.
Qed.

Lemma pos_value_pos (m : positive) (e : Z) : 0 < inject_Z (Zpos m) * pow2 e.
Proof.
  apply Qmult_lt_0_compat; [reflexivity|apply pow2_pos].
Qed.

(** The outcome of [SFcompare] on valid finite numbers is the order of
    their values. *)
Lemma SFcompare_value (x y : spec_float) :
  valid_binary x = true -> valid_binary y = true ->
  SFfinite x = true -> SFfinite y = true ->
  match SFcompare x y with
  | Some Lt => SF2Q x < SF2Q y
  | Some Eq => SF2Q x == SF2Q y
  | Some Gt => SF2Q y < SF2Q x
  | None => False
  end.
Proof.
  intros Vx Vy Fx Fy.
  destruct x as [sx|sx| |sx mx ex]; try discriminate;
    destruct y as [sy|sy| |sy my ey]; try discriminate.
  - reflexivity.
  - cbn [SFcompare]. pose proof (pos_value_pos my ey) as Hp.
    destruct sy; unfold SF2Q, cond_Zopp; [rewrite inject_Z_opp|]; lra.
  - cbn [SFcompare]. pose proof (pos_value_pos mx ex) as Hp.
    destruct sx; unfold SF2Q, cond_Zopp; [rewrite inject_Z_opp|]; lra.
  - apply valid_finite in Vx, Vy.
    pose proof (pos_value_pos mx ex) as Hpx.
    pose proof (pos_value_pos my ey) as Hpy.
    assert (Hcases :
              match Z.compare ex ey with
              | Lt => inject_Z (Zpos mx) * pow2 ex < inject_Z (Zpos my) * pow2 ey
              | Gt => inject_Z (Zpos my) * pow2 ey < inject_Z (Zpos mx) * pow2 ex
              | Eq =>
                  match Pos.compare_cont Eq mx my with
                  | Lt => inject_Z (Zpos mx) * pow2 ex
                          < inject_Z (Zpos my) * pow2 ey
                  | Gt => inject_Z (Zpos my) * pow2 ey
                          < inject_Z (Zpos mx) * pow2 ex
                  | Eq => inject_Z (Zpos mx) * pow2 ex
                          == inject_Z (Zpos my) * pow2 ey
                  end
              end).
    { destruct (Z.compare_spec ex ey) as [E|E|E].
      - subst ey. change (Pos.compare_cont Eq mx my) with (Pos.compare mx my).
        destruct (Pos.compare_spec mx my) as [E'|E'|E'].
        + subst my. reflexivity.
        + apply Qmult_lt_compat_r; [apply pow2_pos|].
          rewrite <- Zlt_Qlt. apply Pos2Z.pos_lt_pos. exact E'.
        + apply Qmult_lt_compat_r; [apply pow2_pos|].
          rewrite <- Zlt_Qlt. apply Pos2Z.pos_lt_pos. exact E'.
      - apply lt_by_exponent; assumption.
      - apply lt_by_exponent; assumption. }
    cbn [SFcompare]. unfold SF2Q, cond_Zopp.
    destruct sx, sy; rewrite ?inject_Z_opp.
    + destruct (Z.compare ex ey);
        [destruct (Pos.compare_cont Eq mx my)| |]; cbn [CompOpp]; lra.
    + lra.
    + lra.
    + destruct (Z.compare ex ey);
        [destruct (Pos.compare_cont Eq mx my)| |]; lra.
Qed.

Lemma isFinite_valid (x : float) : valid_binary (Prim2SF x) = true.
Proof. apply Prim2SF_valid. Qed.

Lemma ltb_value (x y : float) :
  isFinite x = true -> isFinite y = true ->
  ((x <? y)%float = true <-> valueOf x < valueOf y).
Proof.
  intros Fx Fy. rewrite ltb_spec. unfold SFltb, valueOf.
  pose proof (SFcompare_value (Prim2SF x) (Prim2SF y)
                (Prim2SF_valid x) (Prim2SF_valid y) Fx Fy) as H.
  destruct (SFcompare (Prim2SF x) (Prim2SF y)) as [[ | | ]|];
    split; intro H'; try reflexivity; try discriminate; try lra;
    contradiction.
Qed.

Lemma SFcompare_refl (x : spec_float) :
  SFfinite x = true -> SFcompare x x = Some Eq.
Proof.
  destruct x as [s|s| |s m e]; try discriminate; intros _; [reflexivity|].
  cbn [SFcompare]. rewrite Z.compare_refl.
  change (Pos.compare_cont Eq m m) with (Pos.compare m m).
  rewrite Pos.compare_refl. destruct s; reflexivity.
Qed.

Lemma finite_not_nan (x : float) : isFinite x = true -> is_nan x = false.
Proof.
  intro Fx. unfold is_nan. rewrite eqb_spec. unfold SFeqb.
  rewrite SFcompare_refl by exact Fx. reflexivity.
Qed.

Lemma Math_min_value (a b : float) :
  isFinite a = true -> isFinite b = true ->
  isFinite (Math_min a b) = true /\
  valueOf (Math_min a b)
  == (if Qlt_le_dec (valueOf b) (valueOf a) then valueOf b else valueOf a).
Proof.
  intros Fa Fb. unfold Math_min.
  rewrite (finite_not_nan a Fa), (finite_not_nan b Fb). cbn [orb].
  pose proof (ltb_value a b Fa Fb) as Hab.
  pose proof (ltb_value b a Fb Fa) as Hba.
  destruct (a <? b)%float.
  - split; [exact Fa|].
    destruct (Qlt_le_dec (valueOf b) (valueOf a)) as [H|H]; [|reflexivity].
    pose proof (proj1 Hab eq_refl). lra.
  - destruct (b <? a)%float.
    + split; [exact Fb|].
      destruct (Qlt_le_dec (valueOf b) (valueOf a)) as [H|H]; [reflexivity|].
      pose proof (proj1 Hba eq_refl). lra.
    + assert (Hnab : ~ valueOf a < valueOf b)
        by (intro H; apply Hab in H; discriminate H).
      assert (Hnba : ~ valueOf b < valueOf a)
        by (intro H; apply Hba in H; discriminate H).
      destruct (get_sign a); (split; [assumption|]);
        destruct (Qlt_le_dec (valueOf b) (valueOf a)) as [H|H];
        try contradiction; try reflexivity; lra.
Qed.

Lemma Math_max_value (a b : float) :
  isFinite a = true -> isFinite b = true ->
  isFinite (Math_max a b) = true /\
  valueOf (Math_max a b)
  == (if Qlt_le_dec (valueOf a) (valueOf b) then valueOf b else valueOf a).
Proof.
  intros Fa Fb. unfold Math_max.
  rewrite (finite_not_nan a Fa), (finite_not_nan b Fb). cbn [orb].
  pose proof (ltb_value a b Fa Fb) as Hab.
  pose proof (ltb_value b a Fb Fa) as Hba.
  destruct (a <? b)%float.
  - split; [exact Fb|].
    destruct (Qlt_le_dec (valueOf a) (valueOf b)) as [H|H]; [reflexivity|].
    pose proof (proj1 Hab eq_refl). lra.
  - destruct (b <? a)%float.
    + split; [exact Fa|].
      destruct (Qlt_le_dec (valueOf a) (valueOf b)) as [H|H]; [|reflexivity].
      pose proof (proj1 Hba eq_refl). lra.
    + assert (Hnab : ~ valueOf a < valueOf b)
        by (intro H; apply Hab in H; discriminate H).
      assert (Hnba : ~ valueOf b < valueOf a)
        by (intro H; apply Hba in H; discriminate H).
      destruct (get_sign a); (split; [assumption|]);
        destruct (Qlt_le_dec (valueOf a) (valueOf b)) as [H|H];
        try contradiction; try reflexivity; lra.
Qed.

(** *** The score *)

Lemma Qabs_diff_bounds (a b r : Q) :
  Qabs (a - b) <= r -> b - r <= a /\ a <= b + r.
Proof.
  intro H. apply Qabs_Qle_condition in H. destruct H as [H1 H2].
  split; lra.
Qed.

Lemma Qabs_lt_of_bounds (a r : Q) : - r < a -> a < r -> Qabs a < r.
Proof. intros H1 H2. apply Qabs_Qlt_condition. split; assumption. Qed.

Lemma Qabs_le_of_bounds (a r : Q) : - r <= a -> a <= r -> Qabs a <= r.
Proof. intros H1 H2. apply Qabs_Qle_condition. split; assumption. Qed.

Lemma exactMetricScore_range (v : Q) :
  0 <= spec_exactMetricScore v /\ spec_exactMetricScore v <= 100.
Proof.
  unfold spec_exactMetricScore, spec_exactClamp.
  destruct (Qlt_le_dec 50 v); [split; lra|].
  destruct (Qlt_le_dec v (-50)); split; lra.
Qed.

Lemma valueOf_n50 : valueOf n50 == 50.
Proof. reflexivity. Qed.

Lemma valueOf_minus_n50 : valueOf (- n50)%float == -50.
Proof. reflexivity. Qed.

Lemma getScore_value (c : float) :
  isFinite c = true ->
  isFinite (getScore c) = true /\
  spec_exactMetricScore (valueOf c) - (1 # 140737488355328)
  <= valueOf (getScore c) /\
  valueOf (getScore c)
  <= spec_exactMetricScore (valueOf c) + (1 # 140737488355328).
Proof.
  intro Fc. unfold getScore. cbv zeta.
  destruct (Math_min_value n50 c eq_refl Fc) as [Fu Hu].
  destruct (Math_max_value (- n50)%float (Math_min n50 c) eq_refl Fu)
    as [Fv Hv].
  set (u := Math_min n50 c) in *.
  set (v := Math_max (- n50)%float u) in *.
  pose proof valueOf_n50 as H50. pose proof valueOf_minus_n50 as Hm50.
  assert (Hclamp : valueOf v == spec_exactClamp (-50) 50 (valueOf c)).
  { unfold spec_exactClamp. rewrite Hv.
    destruct (Qlt_le_dec (valueOf (- n50)%float) (valueOf u)) as [H1|H1];
      destruct (Qlt_le_dec (valueOf c) (valueOf n50)) as [H2|H2];
      destruct (Qlt_le_dec 50 (valueOf c)) as [H3|H3];
      destruct (Qlt_le_dec (valueOf c) (-50)) as [H4|H4];
      rewrite ?Hu in *; lra. }
  assert (Hrange : -50 <= valueOf v /\ valueOf v <= 50).
  { rewrite Hclamp. unfold spec_exactClamp.
    destruct (Qlt_le_dec 50 (valueOf c)); [split; lra|].
    destruct (Qlt_le_dec (valueOf c) (-50)); split; lra. }
  destruct (add_value n50 v 7 eq_refl Fv) as [Fs Hs].
  - change (pow2 7) with 128.
    apply Qabs_lt_of_bounds; lra.
  - lia.
  - split; [exact Fs|].
    apply Qabs_diff_bounds in Hs.
    change (pow2 (7 - 54)) with (1 # 140737488355328) in Hs.
    unfold spec_exactMetricScore. rewrite <- Hclamp. split; lra.
Qed.

Lemma valueOf_weight_10 :
  valueOf weight_callVolume == 3602879701896397 # 36028797018963968.
Proof. reflexivity. Qed.

Lemma valueOf_weight_15 :
  valueOf weight_connectRate == 5404319552844595 # 36028797018963968.
Proof. reflexivity. Qed.

Lemma valueOf_weight_20 :
  valueOf weight_rpcRate == 3602879701896397 # 18014398509481984.
Proof. reflexivity. Qed.

(** One weighted term: the product of a weight [w] (of value [W] at most
    1/4) and a score within [2^-47] of [E] in [0, 100]. *)
Lemma weighted_term_value (w s : float) (W E : Q) :
  isFinite w = true -> isFinite s = true ->
  valueOf w == W -> 0 <= W -> W <= 1 # 4 ->
  0 <= E -> E <= 100 ->
  E - (1 # 140737488355328) <= valueOf s ->
  valueOf s <= E + (1 # 140737488355328) ->
  isFinite (w * s) = true /\
  W * valueOf s - (1 # 562949953421312) <= valueOf (w * s) /\
  valueOf (w * s) <= W * valueOf s + (1 # 562949953421312).
Proof.
  intros Fw Fs HW HW0 HW1 HE0 HE1 Hlo Hhi.
  assert (Hs0 : -1 <= valueOf s) by lra.
  assert (Hs1 : valueOf s <= 101) by lra.
  assert (Hp0 : -1 <= W * valueOf s).
  { assert (W * (valueOf s + 1) >= 0)
      by (apply Qmult_le_0_compat; lra).
    lra. }
  assert (Hp1 : W * valueOf s <= 26).
  { assert ((1 # 4) * 101 - W * valueOf s
            == ((1 # 4) - W) * 101 + W * (101 - valueOf s)) by ring.
    assert (0 <= ((1 # 4) - W) * 101) by (apply Qmult_le_0_compat; lra).
    assert (0 <= W * (101 - valueOf s)) by (apply Qmult_le_0_compat; lra).
    lra. }
  destruct (mul_value w s 5 Fw Fs) as [Fp Hp].
  - rewrite HW. change (pow2 5) with 32. apply Qabs_lt_of_bounds; lra.
  - lia.
  - split; [exact Fp|]. apply Qabs_diff_bounds in Hp. rewrite HW in Hp.
    change (pow2 (5 - 54)) with (1 # 562949953421312) in Hp. exact Hp.
Qed.

(** One accumulation step: two finite numbers whose sum stays below 128
    in absolute value. *)
Lemma accumulate_value (a b : float) :
  isFinite a = true -> isFinite b = true ->
  -127 <= valueOf a + valueOf b -> valueOf a + valueOf b <= 127 ->
  isFinite (a + b) = true /\
  valueOf a + valueOf b - (1 # 140737488355328) <= valueOf (a + b) /\
  valueOf (a + b) <= valueOf a + valueOf b + (1 # 140737488355328).
Proof.
  intros Fa Fb H0 H1.
  destruct (add_value a b 7 Fa Fb) as [Fs Hs].
  - change (pow2 7) with 128. apply Qabs_lt_of_bounds; lra.
  - lia.
  - split; [exact Fs|]. apply Qabs_diff_bounds in Hs.
    change (pow2 (7 - 54)) with (1 # 140737488355328) in Hs. exact Hs.
Qed.

(** The binary64 weighted sum of [calculateOverallScore] is within
    [scoreTolerance] of the exact weighted sum. *)
Lemma weighted_sum_value (c1 c2 c3 c4 c5 c6 : float) :
  isFinite c1 = true -> isFinite c2 = true -> isFinite c3 = true ->
  isFinite c4 = true -> isFinite c5 = true -> isFinite c6 = true ->
  let F := (weight_callVolume * getScore c1 +
            weight_connectRate * getScore c2 +
            weight_rpcRate * getScore c3 +
            weight_promiseRate * getScore c4 +
            weight_paymentSuccess * getScore c5 +
            weight_dollarCollected * getScore c6)%float in
  let S := spec_exactWeightedScore
             [valueOf c1; valueOf c2; valueOf c3; valueOf c4; valueOf c5;
              valueOf c6] in
  isFinite F = true /\
  S - scoreTolerance <= valueOf F /\ valueOf F <= S + scoreTolerance /\
  0 <= S /\ S <= 100.
Proof.
  intros F1 F2 F3 F4 F5 F6. cbv zeta.
  unfold spec_exactWeightedScore, spec_exactWeights, scoreTolerance.
  cbn [map combine fold_right fst snd].
  destruct (getScore_value c1 F1) as (Fs1 & L1 & U1).
  destruct (getScore_value c2 F2) as (Fs2 & L2 & U2).
  destruct (getScore_value c3 F3) as (Fs3 & L3 & U3).
  destruct (getScore_value c4 F4) as (Fs4 & L4 & U4).
  destruct (getScore_value c5 F5) as (Fs5 & L5 & U5).
  destruct (getScore_value c6 F6) as (Fs6 & L6 & U6).
  destruct (exactMetricScore_range (valueOf c1)) as [R1 R1'].
  destruct (exactMetricScore_range (valueOf c2)) as [R2 R2'].
  destruct (exactMetricScore_range (valueOf c3)) as [R3 R3'].
  destruct (exactMetricScore_range (valueOf c4)) as [R4 R4'].
  destruct (exactMetricScore_range (valueOf c5)) as [R5 R5'].
  destruct (exactMetricScore_range (valueOf c6)) as [R6 R6'].
  set (E1 := spec_exactMetricScore (valueOf c1)) in *.
  set (E2 := spec_exactMetricScore (valueOf c2)) in *.
  set (E3 := spec_exactMetricScore (valueOf c3)) in *.
  set (E4 := spec_exactMetricScore (valueOf c4)) in *.
  set (E5 := spec_exactMetricScore (valueOf c5)) in *.
  set (E6 := spec_exactMetricScore (valueOf c6)) in *.
  set (s1 := getScore c1) in *. set (s2 := getScore c2) in *.
  set (s3 := getScore c3) in *. set (s4 := getScore c4) in *.
  set (s5 := getScore c5) in *. set (s6 := getScore c6) in *.
  destruct (weighted_term_value weight_callVolume s1 _ E1 eq_refl Fs1
              valueOf_weight_10) as (Fp1 & PL1 & PU1); try lra.
  destruct (weighted_term_value weight_connectRate s2 _ E2 eq_refl Fs2
              valueOf_weight_15) as (Fp2 & PL2 & PU2); try lra.
  destruct (weighted_term_value weight_rpcRate s3 _ E3 eq_refl Fs3
              valueOf_weight_20) as (Fp3 & PL3 & PU3); try lra.
  destruct (weighted_term_value weight_promiseRate s4 _ E4 eq_refl Fs4
              valueOf_weight_15) as (Fp4 & PL4 & PU4); try lra.
  destruct (weighted_term_value weight_paymentSuccess s5 _ E5 eq_refl Fs5
              valueOf_weight_20) as (Fp5 & PL5 & PU5); try lra.
  destruct (weighted_term_value weight_dollarCollected s6 _ E6 eq_refl Fs6
              valueOf_weight_20) as (Fp6 & PL6 & PU6); try lra.
  set (p1 := (weight_callVolume * s1)%float) in *.
  set (p2 := (weight_connectRate * s2)%float) in *.
  set (p3 := (weight_rpcRate * s3)%float) in *.
  set (p4 := (weight_promiseRate * s4)%float) in *.
  set (p5 := (weight_paymentSuccess * s5)%float) in *.
  set (p6 := (weight_dollarCollected * s6)%float) in *.
  destruct (accumulate_value p1 p2 Fp1 Fp2) as (Fa2 & AL2 & AU2); try lra.
  set (a2 := (p1 + p2)%float) in *.
  destruct (accumulate_value a2 p3 Fa2 Fp3) as (Fa3 & AL3 & AU3); try lra.
  set (a3 := (a2 + p3)%float) in *.
  destruct (accumulate_value a3 p4 Fa3 Fp4) as (Fa4 & AL4 & AU4); try lra.
  set (a4 := (a3 + p4)%float) in *.
  destruct (accumulate_value a4 p5 Fa4 Fp5) as (Fa5 & AL5 & AU5); try lra.
  set (a5 := (a4 + p5)%float) in *.
  destruct (accumulate_value a5 p6 Fa5 Fp6) as (Fa6 & AL6 & AU6); try lra.
  split; [exact Fa6|]. repeat split; lra.
Qed.

(** *** Rounding to an integer *)

Lemma pow2_neg (k : positive) :
  pow2 (Zneg k) * inject_Z (2 ^ Zpos k) == 1.
Proof.
  rewrite pow2_Z by lia. rewrite <- pow2_add.
  replace (Zneg k + Zpos k)%Z with 0%Z by lia. reflexivity.
Qed.

Lemma Qfloor_fraction (a : Z) (b : positive) (x : Q) :
  x * inject_Z (Zpos b) == inject_Z a -> Qfloor x = (a / Zpos b)%Z.
Proof.
  intro H.
  assert (Hx : x == a # b).
  { rewrite Qmake_Qdiv. apply Qmult_inj_r with (inject_Z (Zpos b));
      [discriminate|].
    rewrite H. field. discriminate. }
  rewrite (Qfloor_comp _ _ Hx). reflexivity.
Qed.

(** [roundHalfUp] is the floor of the value plus one half. *)
Lemma roundHalfUp_floor (s : bool) (m : positive) (e : Z) :
  roundHalfUp s m e = spec_exactRound (SF2Q (S754_finite s m e)).
Proof.
  unfold roundHalfUp, spec_exactRound, SF2Q.
  set (M := cond_Zopp s (Zpos m)).
  destruct e as [|k|k].
  - symmetry. rewrite Z.pow_0_r, Z.mul_1_r.
    replace M with ((2 * M + 1) / 2)%Z at 2
      by (rewrite Z.mul_comm, Z.div_add_l by lia;
          change (1 / 2)%Z with 0%Z; lia).
    apply (Qfloor_fraction (2 * M + 1) 2).
    change (pow2 0) with 1. rewrite inject_Z_plus, inject_Z_mult.
    change (inject_Z 2) with 2. change (inject_Z 1) with 1. ring.
  - symmetry.
    assert (H2 : (0 < 2 ^ Zpos k)%Z) by (apply Z.pow_pos_nonneg; lia).
    replace (M * 2 ^ Zpos k)%Z
      with ((2 * (M * 2 ^ Zpos k) + 1) / 2)%Z
      by (rewrite (Z.mul_comm 2), Z.div_add_l by lia;
          change (1 / 2)%Z with 0%Z; lia).
    apply (Qfloor_fraction (2 * (M * 2 ^ Zpos k) + 1) 2).
    rewrite <- pow2_Z by lia.
    rewrite inject_Z_plus, !inject_Z_mult.
    change (inject_Z 2) with 2. change (inject_Z 1) with 1. ring.
  - symmetry.
    assert (Hb : Zpos (2 ^ (k + 1)) = (2 ^ (Zpos k + 1))%Z)
      by (rewrite Pos2Z.inj_pow; reflexivity).
    rewrite <- Hb.
    apply (Qfloor_fraction (2 * M + 2 ^ Zpos k) (2 ^ (k + 1))).
    rewrite Hb, Z.pow_add_r by lia. change (2 ^ 1)%Z with 2%Z.
    rewrite inject_Z_plus, !inject_Z_mult.
    change (inject_Z 2) with 2.
    pose proof (pow2_neg k) as Hn.
    set (D := inject_Z (2 ^ Zpos k)) in *. set (P := pow2 (Zneg k)) in *.
    setoid_replace ((inject_Z M * P + (1 # 2)) * (D * 2))
      with (2 * inject_Z M * (P * D) + D) by ring.
    rewrite Hn. ring.
Qed.

Lemma exactRound_bounds (v : Q) :
  inject_Z (spec_exactRound v) <= v + (1 # 2) /\
  v + (1 # 2) < inject_Z (spec_exactRound v) + 1.
Proof.
  unfold spec_exactRound. split.
  - apply Qfloor_le.
  - pose proof (Qlt_floor (v + (1 # 2))) as H.
    rewrite inject_Z_plus in H. exact H.
Qed.

Lemma round_positive (w : float) :
  isFinite w = true -> (0 <? w)%float = true ->
  Math_round w = ofZ (spec_exactRound (valueOf w)).
Proof.
  intros Fw H0. rewrite ltb_spec in H0.
  unfold Math_round, valueOf, isFinite in *.
  change (Prim2SF 0) with (S754_zero false) in H0.
  destruct (Prim2SF w) as [s|s| |s m e]; try discriminate.
  destruct s; [discriminate|].
  rewrite <- roundHalfUp_floor.
  destruct (Z.eqb_spec (roundHalfUp false m e) 0) as [E|E];
    [rewrite E|]; reflexivity.
Qed.

(** The last two steps of [calculateOverallScore] on a finite weighted
    sum: its value clamped to [0, 100], then rounded to the nearest
    integer, a tie going up. *)
Lemma round_clamped (F : float) :
  isFinite F = true ->
  let v := Math_max n0 (Math_min n100 F) in
  Math_round v = ofZ (spec_exactRound (valueOf v)) /\
  valueOf v == spec_exactClamp 0 100 (valueOf F).
Proof.
  intro FF. cbv zeta.
  destruct (Math_min_value n100 F eq_refl FF) as [Fu Hu].
  destruct (Math_max_value n0 (Math_min n100 F) eq_refl Fu) as [Fv Hv].
  split.
  - destruct (ScoreFacts.clamp_cases F) as [H|[H|[H|(H & H0 & _)]]];
      cbv zeta in H.
    + rewrite H in Fv. discriminate Fv.
    + rewrite H. reflexivity.
    + rewrite H. reflexivity.
    + rewrite H. apply round_positive; assumption.
  - set (u := Math_min n100 F) in *.
    assert (H100 : valueOf n100 == 100) by reflexivity.
    assert (H00 : valueOf n0 == 0) by reflexivity.
    unfold spec_exactClamp. rewrite Hv.
    destruct (Qlt_le_dec (valueOf n0) (valueOf u)) as [H1|H1];
      destruct (Qlt_le_dec (valueOf F) (valueOf n100)) as [H2|H2];
      destruct (Qlt_le_dec 100 (valueOf F)) as [H3|H3];
      destruct (Qlt_le_dec (valueOf F) 0) as [H4|H4];
      rewrite ?Hu in *; lra.
Qed.

(** On finite changes the score is the integer nearest to a value within
    [scoreTolerance] of the exact weighted sum. *)
Lemma score_near_exact (m : ScorecardMetrics) :
  forallb isFinite (changesOf m) = true ->
  let S := spec_exactWeightedScore (map valueOf (changesOf m)) in
  exists (n : Z) (v : Q),
    calculateOverallScore m = ofZ n /\
    n = spec_exactRound v /\
    (0 <= n <= 100)%Z /\
    S - scoreTolerance <= v /\ v <= S + scoreTolerance /\
    0 <= S /\ S <= 100.
Proof.
  unfold changesOf. cbn [forallb map]. intro Hf.
  repeat (apply andb_true_iff in Hf; destruct Hf as [?F Hf]).
  cbv zeta.
  destruct (weighted_sum_value _ _ _ _ _ _ F F0 F1 F2 F3 F4)
    as (FF & HL & HU & HS0 & HS1).
  cbv zeta in FF, HL, HU, HS0, HS1.
  unfold calculateOverallScore. cbv zeta.
  match type of FF with
  | isFinite ?w = true => set (W := w) in *
  end.
  destruct (round_clamped W FF) as [Hr Hv]. cbv zeta in Hr, Hv.
  set (v := Math_max n0 (Math_min n100 W)) in *.
  set (S := spec_exactWeightedScore _) in *.
  assert (Hvb : S - scoreTolerance <= valueOf v /\
                valueOf v <= S + scoreTolerance /\
                0 <= valueOf v /\ valueOf v <= 100).
  { rewrite Hv. unfold spec_exactClamp, scoreTolerance in *.
    destruct (Qlt_le_dec 100 (valueOf W)); [repeat split; lra|].
    destruct (Qlt_le_dec (valueOf W) 0); repeat split; lra. }
  exists (spec_exactRound (valueOf v)), (valueOf v).
  split; [exact Hr|]. split; [reflexivity|].
  split; [|repeat split; tauto].
  destruct (exactRound_bounds (valueOf v)) as [B1 B2].
  destruct Hvb as (_ & _ & V0 & V1).
  set (n := spec_exactRound (valueOf v)) in *.
  split.
  - assert (H : inject_Z (-1) < inject_Z n).
    { change (inject_Z (-1)) with (-1). lra. }
    rewrite <- Zlt_Qlt in H. lia.
  - assert (H : inject_Z n < inject_Z 101).
    { change (inject_Z 101) with 101. lra. }
    rewrite <- Zlt_Qlt in H. lia.
Qed.

Lemma Qfloor_unique (x : Q) (z : Z) :
  inject_Z z <= x -> x < inject_Z z + 1 -> Qfloor x = z.
Proof.
  intros H1 H2.
  pose proof (Qfloor_le x) as F1. pose proof (Qlt_floor x) as F2.
  rewrite inject_Z_plus in F2. change (inject_Z 1) with 1 in F2.
  assert (A : inject_Z (Qfloor x) < inject_Z (z + 1)).
  { rewrite inject_Z_plus. change (inject_Z 1) with 1. lra. }
  assert (B : inject_Z z < inject_Z (Qfloor x + 1)).
  { rewrite inject_Z_plus. change (inject_Z 1) with 1. lra. }
  rewrite <- Zlt_Qlt in A, B. lia.
Qed.

(** Away from a tie, rounding a value within [scoreTolerance] of [S]
    gives the rounding of [S]. *)
Lemma exactRound_stable (S v : Q) :
  spec_awayFromTie S = true ->
  S - scoreTolerance <= v -> v <= S + scoreTolerance ->
  spec_exactRound v = spec_exactRound S.
Proof.
  unfold spec_awayFromTie. cbv zeta. intros H L U.
  apply andb_true_iff in H. destruct H as [H1 H2].
  apply Qle_bool_iff in H1.
  assert (H3 : ~ 1 - scoreTolerance
                 <= S + (1 # 2) - inject_Z (Qfloor (S + (1 # 2)))).
  { intro H. apply Qle_bool_iff in H. rewrite H in H2. discriminate H2. }
  unfold spec_exactRound.
  set (n := Qfloor (S + (1 # 2))) in *.
  apply Qfloor_unique; lra.
Qed.

(** Away from a tie the score is the exact formula's. *)
Lemma score_exact_away_from_tie (m : ScorecardMetrics) :
  forallb isFinite (changesOf m) = true ->
  spec_awayFromTie
    (spec_exactWeightedScore (map valueOf (changesOf m))) = true ->
  calculateOverallScore m
  = ofZ (spec_exactOverallScore (map valueOf (changesOf m))).
Proof.
  intros Hf Ht.
  destruct (score_near_exact m Hf) as (n & v & Hs & Hn & _ & L & U & S0 & S1).
  rewrite Hs, Hn. f_equal.
  rewrite (exactRound_stable _ v Ht L U).
  unfold spec_exactOverallScore, spec_exactClamp.
  destruct (Qlt_le_dec 100 _); [lra|].
  destruct (Qlt_le_dec _ 0) as [H|H]; [|reflexivity].
  lra.
Qed.

(** The score is within a half and [scoreTolerance] of the exact weighted
    sum. *)
Lemma score_error (m : ScorecardMetrics) :
  forallb isFinite (changesOf m) = true ->
  let S := spec_exactWeightedScore (map valueOf (changesOf m)) in
  exists n : Z,
    calculateOverallScore m = ofZ n /\ (0 <= n <= 100)%Z /\
    S - (1 # 2) - scoreTolerance < inject_Z n /\
    inject_Z n <= S + (1 # 2) + scoreTolerance.
Proof.
  intro Hf. cbv zeta.
  destruct (score_near_exact m Hf) as (n & v & Hs & Hn & R & L & U & _).
  exists n. split; [exact Hs|]. split; [exact R|].
  destruct (exactRound_bounds v) as [B1 B2]. rewrite <- Hn in B1, B2.
  split; lra.
Qed.

End RoundingFacts.
Section ScoreBinary64.

Import PrimFloat.
Import Binary64 ScoreFacts RoundingFacts.

Local Open Scope Z_scope.

(** C6 (as amended). Over binary64, [calculateOverallScore] is
    [Math.round] of the weighted sum (weights .10 .15 .20 .15 .20 .20,
    accumulated from left to right) of the per-metric scores
    [50 + clamp(change, -50, 50)], clamped to [0, 100].  When the six
    changes are finite it is an integer between 0 and 100 within
    [1/2 + 2^-43] of the exact weighted sum of the specification, and it
    is the exact sum clamped and rounded to the nearest integer whenever
    that sum is not within [2^-43] of a tie [k + 1/2].  In every case it is
    [NaN] or an integer between 0 and 100; when each metric's current
    value equals its finite positive baseline it is 50 and its status is
    neutral; and the status of an integer score is good from 55, neutral
    from 45, warning from 35 and critical below, as it is for [NaN]. *)
Theorem overall_score_binary64 :
  (forall m : ScorecardMetrics,
      calculateOverallScore m = spec_overallScore (changesOf m))
  /\
  (forall m : ScorecardMetrics,
      forallb isFinite (changesOf m) = true ->
      let S := spec_exactWeightedScore (map valueOf (changesOf m)) in
      exists n : Z,
        calculateOverallScore m = ofZ n /\ 0 <= n <= 100 /\
        (S - (1 # 2) - scoreTolerance < inject_Z n)%Q /\
        (inject_Z n <= S + (1 # 2) + scoreTolerance)%Q)
  /\
  (forall m : ScorecardMetrics,
      forallb isFinite (changesOf m) = true ->
      spec_awayFromTie
        (spec_exactWeightedScore (map valueOf (changesOf m))) = true ->
      calculateOverallScore m
      = ofZ (spec_exactOverallScore (map valueOf (changesOf m))))
  /\
  (forall m : ScorecardMetrics,
      calculateOverallScore m = nan \/
      exists n : Z, 0 <= n <= 100 /\ calculateOverallScore m = ofZ n)
  /\
  (forall b1 b2 b3 b4 b5 b6 : number,
      isPositiveFinite b1 = true -> isPositiveFinite b2 = true ->
      isPositiveFinite b3 = true -> isPositiveFinite b4 = true ->
      isPositiveFinite b5 = true -> isPositiveFinite b6 = true ->
      let m :=
        {| sc_callVolume := createScorecardMetric b1 b1 false;
           sc_connectRate := createScorecardMetric b2 b2 false;
           sc_rpcRate := createScorecardMetric b3 b3 false;
           sc_promiseRate := createScorecardMetric b4 b4 false;
           sc_paymentSuccess := createScorecardMetric b5 b5 false;
           sc_dollarCollected := createScorecardMetric b6 b6 false |} in
      calculateOverallScore m = ofZ 50 /\
      getOverallStatusFromScore (calculateOverallScore m) = status_neutral)
  /\
  (forall n : Z, 0 <= n <= 100 ->
      getOverallStatusFromScore (ofZ n) = spec_statusOfScore n)
  /\
  getOverallStatusFromScore nan = status_critical.
Proof.
  split; [|split; [|split; [|split; [|split; [|split]]]]].
  - intro m. reflexivity.
  - exact score_error.
  - exact score_exact_away_from_tie.
  - exact score_is_integer.
  - intros b1 b2 b3 b4 b5 b6 H1 H2 H3 H4 H5 H6 m. subst m.
    apply isPositiveFinite_spec in H1, H2, H3, H4, H5, H6.
    rewrite (no_change_at_baseline b1 false (proj1 H1) (proj2 H1)),
      (no_change_at_baseline b2 false (proj1 H2) (proj2 H2)),
      (no_change_at_baseline b3 false (proj1 H3) (proj2 H3)),
      (no_change_at_baseline b4 false (proj1 H4) (proj2 H4)),
      (no_change_at_baseline b5 false (proj1 H5) (proj2 H5)),
      (no_change_at_baseline b6 false (proj1 H6) (proj2 H6)).
    split; vm_compute; reflexivity.
  - exact status_of_integer_score.
  - reflexivity.
Qed.

Lemma overall_score_binary64_witness :
  (let m :=
     {| sc_callVolume := createScorecardMetric (ofZ 5000) (ofZ 5000) false;
        sc_connectRate := createScorecardMetric (ofZ 40) (ofZ 40) false;
        sc_rpcRate := createScorecardMetric (ofZ 40) (ofZ 40) false;
        sc_promiseRate := createScorecardMetric (ofZ 50) (ofZ 50) false;
        sc_paymentSuccess := createScorecardMetric (ofZ 25) (ofZ 25) false;
        sc_dollarCollected :=
          createScorecardMetric (ofZ 12000) (ofZ 12000) false |} in
   calculateOverallScore m = ofZ 50 /\
   getOverallStatusFromScore (calculateOverallScore m) = status_neutral)
  /\
  (let m :=
     {| sc_callVolume := createScorecardMetric (ofZ 5500) (ofZ 5000) false;
        sc_connectRate := createScorecardMetric (ofZ 38) (ofZ 40) false;
        sc_rpcRate := createScorecardMetric (ofZ 43) (ofZ 40) false;
        sc_promiseRate := createScorecardMetric (ofZ 50) (ofZ 50) false;
        sc_paymentSuccess := createScorecardMetric (ofZ 10) (ofZ 25) false;
        sc_dollarCollected :=
          createScorecardMetric (ofZ 12300) (ofZ 12000) false |} in
   forallb isFinite (changesOf m) = true /\
   spec_awayFromTie
     (spec_exactWeightedScore (map valueOf (changesOf m))) = true /\
   calculateOverallScore m
   = ofZ (spec_exactOverallScore (map valueOf (changesOf m))) /\
   (exists n : Z,
       calculateOverallScore m = ofZ n /\ 0 <= n <= 100 /\
       (spec_exactWeightedScore (map valueOf (changesOf m))
        - (1 # 2) - scoreTolerance < inject_Z n)%Q /\
       (inject_Z n
        <= spec_exactWeightedScore (map valueOf (changesOf m))
           + (1 # 2) + scoreTolerance)%Q))
  /\
  getOverallStatusFromScore (ofZ 60) = status_good /\
  getOverallStatusFromScore (ofZ 50) = status_neutral /\
  getOverallStatusFromScore (ofZ 40) = status_warning /\
  getOverallStatusFromScore (ofZ 10) = status_critical.
Proof.
  destruct overall_score_binary64
    as (_ & Herror & Hexact & _ & Hbaseline & Hstatus & _).
  split; [|split; [|split; [|split; [|split]]]].
  - apply Hbaseline; reflexivity.
  - cbv zeta.
    assert (Hf : forallb isFinite
                   (changesOf
                      {| sc_callVolume :=
                           createScorecardMetric (ofZ 5500) (ofZ 5000) false;
                         sc_connectRate :=
                           createScorecardMetric (ofZ 38) (ofZ 40) false;
                         sc_rpcRate :=
                           createScorecardMetric (ofZ 43) (ofZ 40) false;
                         sc_promiseRate :=
                           createScorecardMetric (ofZ 50) (ofZ 50) false;
                         sc_paymentSuccess :=
                           createScorecardMetric (ofZ 10) (ofZ 25) false;
                         sc_dollarCollected :=
                           createScorecardMetric (ofZ 12300) (ofZ 12000)
                             false |}) = true)
      by (vm_compute; reflexivity).
    split; [exact Hf|].
    split; [vm_compute; reflexivity|].
    split.
    + apply Hexact; [exact Hf | vm_compute; reflexivity].
    + apply Herror. exact Hf.
  - apply (Hstatus 60). lia.
  - apply (Hstatus 50). lia.
  - apply (Hstatus 40). lia.
  - apply (Hstatus 10). lia.
Defined.

End ScoreBinary64.

Section ScoreAtTie.

Import Binary64.

(** Counterexample to C6 as the specification states it: for the changes
    0, 6, 0, 8, 12, 0 the weighted sum of the scores 50, 56, 50, 58, 62, 50
    is exactly 54.5, a tie, which rounds to 55 (status good); the binary64
    sum falls just below 54.5 and the code returns 54 (status neutral). *)
Lemma overall_score_tie_rounds_down :
  let m :=
    {| sc_callVolume := metricWithChange (ofZ 0);
       sc_connectRate := metricWithChange (ofZ 6);
       sc_rpcRate := metricWithChange (ofZ 0);
       sc_promiseRate := metricWithChange (ofZ 8);
       sc_paymentSuccess := metricWithChange (ofZ 12);
       sc_dollarCollected := metricWithChange (ofZ 0) |} in
  calculateOverallScore m = ofZ 54 /\
  getOverallStatusFromScore (calculateOverallScore m) = status_neutral /\
  Forall2 Qeq (map valueOf (changesOf m))
    [inject_Z 0; inject_Z 6; inject_Z 0; inject_Z 8; inject_Z 12; inject_Z 0]
  /\
  (spec_exactWeightedScore (map valueOf (changesOf m)) == 109 # 2)%Q /\
  spec_awayFromTie
    (spec_exactWeightedScore (map valueOf (changesOf m))) = false /\
  spec_exactOverallScore (map valueOf (changesOf m)) = 55%Z /\
  getOverallStatusFromScore (ofZ 55) = status_good /\
  calculateOverallScore m
  <> ofZ (spec_exactOverallScore (map valueOf (changesOf m))).
Proof.
  cbv zeta.
  split; [vm_compute; reflexivity|].
  split; [vm_compute; reflexivity|].
  split; [repeat constructor; vm_compute; reflexivity|].
  split; [vm_compute; reflexivity|].
  split; [vm_compute; reflexivity|].
  split; [vm_compute; reflexivity|].
  split; [vm_compute; reflexivity|].
  intro H. apply (f_equal FloatOps.Prim2SF) in H. vm_compute in H.
  discriminate H.
Qed.

End ScoreAtTie.

(** ** Same period last month *)

Section SamePeriodLastMonth.

Local Open Scope Z_scope.

Lemma samePeriodLastMonth_january_2025 :
  let r := getSamePeriodLastMonth (rangeOfMonthDays 2025 0 31) in
  civilOf (range_start r) = (Some 2024, Some 11, Some 1) /\
  civilOf (range_end r) = (Some 2024, Some 11, Some 31) /\
  label r = "Dec 1-31, 2024"%string.
Proof. vm_compute. repeat split. Qed.

Lemma samePeriodLastMonth_agrees_when_day_exists :
  clampedExactlyWhenDayExists = true.
Proof. vm_compute. reflexivity. Qed.

(** C4. [getSamePeriodLastMonth] on March 1-31, 2025: the start becomes
    February 1, but the end, which should be clamped to February 28, is
    March 3, 2025, because [setMonth] has already rolled February 31 over
    before the clamp is tested.  The same happens from a month-to-date
    range built by [getPeriodConfig]. *)
Theorem getSamePeriodLastMonth_march_end_rolls_over :
  let r := getSamePeriodLastMonth (rangeOfMonthDays 2025 2 31) in
  civilOf (range_start r) = (Some 2025, Some 1, Some 1) /\
  civilOf (range_end r) = (Some 2025, Some 2, Some 3) /\
  civilSome (spec_sameDayLastMonth 2025 2 31) = (Some 2025, Some 1, Some 28) /\
  label r = "Feb 1 - Mar 3, 2025"%string /\
  comparisonLabel
    (getPeriodConfig "mtd" (newDateTime 2025 2 30 10 30 0 0))
  = "vs Feb 1 - Mar 2, 2025"%string.
Proof. vm_compute. repeat split. Qed.

End SamePeriodLastMonth.

(** Equality of closed records of numbers: constructor by constructor,
    and by value on each rational. *)
Ltac number_record_eq :=
  lazymatch goal with
  | |- Fin _ = Fin _ => apply Fin_eq_by_value; vm_compute; reflexivity
  | |- ?f ?x = ?g ?y =>
      let Hf := fresh "Hf" in
      let Hx := fresh "Hx" in
      assert (Hf : f = g) by number_record_eq;
      assert (Hx : x = y) by number_record_eq;
      exact (f_equal2 (fun h z => h z) Hf Hx)
  | |- _ => reflexivity
  end.

Ltac js_eval := cbv zeta; repeat split; vm_compute; number_record_eq.

(** ** Routing and parsing of query rows *)

Section RowParsing.

Import OrderFacts.

Variable parseInt : option string -> number.
Variable parseFloat : option string -> number.
Variable toLowerCase : string -> string.

Local Abbreviation step := (accumulateRow parseInt parseFloat toLowerCase).
Local Abbreviation lower := (lowerOrEmpty toLowerCase).
Local Abbreviation parse := (parseKPIResults parseInt parseFloat toLowerCase).
Local Abbreviation collectionsAdded :=
  (spec_collectionsRowAdded parseInt parseFloat).
Local Abbreviation welcomeAdded := (spec_welcomeRowAdded parseInt).
Local Abbreviation unparsedAddNothing :=
  (spec_unparsedCountsAddNothing parseInt).

Lemma or_else_contribution (v : number) :
  or_else v n0 = spec_contribution v.
Proof.
  destruct v as [q| | |]; try reflexivity.
  unfold or_else, truthy, spec_contribution.
  destruct (Qc_eqb q Qc0) eqn:E; [|reflexivity].
  apply Qc_eqb_true_iff in E. subst q. reflexivity.
Qed.

Lemma add_zero_r (x : number) : x + n0 = x.
Proof.
  destruct x as [a| | |]; try reflexivity.
  unfold n0, ofZ. cbn [add]. f_equal.
  change (Q2Qc (inject_Z 0)) with (Q2Qc 0). ring.
Qed.

Lemma addCollectionsRow_spec (raw : CollectionsRaw) (row : RawKPIRow) :
  collectionsAdded raw
    (addCollectionsRow raw (parseRow parseInt parseFloat row)) row.
Proof.
  unfold spec_collectionsRowAdded, addCollectionsRow, parseRow.
  cbn [raw_accounts raw_calls raw_connects raw_rpcs raw_promises
       raw_cashPayments raw_transfers raw_durationMinutes
       raw_dollarPromised raw_dollarCollected
       p_accounts p_calls p_connects p_rpcs p_promises p_cashPayments
       p_transfers p_durationMinutes p_dollarPromised p_dollarCollected].
  rewrite !or_else_contribution. repeat split.
Qed.

Lemma addWelcomeRow_spec (raw : WelcomeRaw) (row : RawKPIRow) :
  welcomeAdded raw (addWelcomeRow raw (parseRow parseInt parseFloat row)) row.
Proof.
  unfold spec_welcomeRowAdded, addWelcomeRow, parseRow.
  cbn [wraw_accounts wraw_calls wraw_connects wraw_rpcs wraw_eligible
       wraw_completed p_accounts p_calls p_connects p_rpcs
       p_completedVerifications].
  rewrite !or_else_contribution. repeat split.
Qed.

Lemma accumulateRow_unknown_model (acc : RawAccumulators) (row : RawKPIRow) :
  lower (row_model row) <> "collections"%string ->
  lower (row_model row) <> "welcome"%string ->
  lower (row_model row) <> "verification"%string ->
  lower (row_model row) <> "inbound"%string ->
  step acc row = acc.
Proof.
  intros Hc Hw Hv Hi. unfold accumulateRow.
  apply String.eqb_neq in Hc, Hw, Hv, Hi.
  rewrite Hc, Hw, Hv, Hi. reflexivity.
Qed.

Lemma accumulateRows_app (rows1 rows2 : list RawKPIRow) :
  accumulateRows parseInt parseFloat toLowerCase (rows1 ++ rows2)
  = fold_left step rows2
      (accumulateRows parseInt parseFloat toLowerCase rows1).
Proof. unfold accumulateRows. apply fold_left_app. Qed.

Lemma unparsed_counts_unchanged (before after : CollectionsRaw)
  (row : RawKPIRow) :
  collectionsAdded before after row -> unparsedAddNothing before after row.
Proof.
  intros (H1 & H2 & H3 & H4 & H5 & H6 & H7 & _).
  unfold spec_unparsedCountsAddNothing.
  repeat split; intro Hn;
    match goal with
    | H : ?f after = _ |- ?f after = _ => rewrite H, Hn
    end; apply add_zero_r.
Qed.

(** C10. In [parseKPIResults], for any behaviour of the host's [parseInt],
    [parseFloat] and [toLowerCase]:
    - a row whose lowercased model is none of collections, welcome,
      verification, inbound leaves all four accumulators unchanged, so the
      result is the same with and without it;
    - a collections row whose lowercased direction is inbound adds each of
      its ten columns to the same field of the inbound accumulator and
      leaves the other three accumulators unchanged; with any other
      direction, a missing one included, it adds them to the outbound
      collections accumulator instead;
    - in both cases a count column whose text parses to NaN leaves its
      field of the receiving accumulator unchanged;
    - rows of model inbound, welcome and verification go to the inbound,
      welcome and verification accumulators;
    - the result is the derivation of the accumulators after the last
      row. *)
Theorem parseKPIResults_routing :
  (forall (acc : RawAccumulators) (rows1 rows2 : list RawKPIRow)
          (row : RawKPIRow),
      lower (row_model row) <> "collections"%string ->
      lower (row_model row) <> "welcome"%string ->
      lower (row_model row) <> "verification"%string ->
      lower (row_model row) <> "inbound"%string ->
      step acc row = acc /\
      parse (rows1 ++ row :: rows2) = parse (rows1 ++ rows2))
  /\
  (forall (acc : RawAccumulators) (row : RawKPIRow),
      lower (row_model row) = "collections"%string ->
      lower (row_direction row) = "inbound"%string ->
      collectionsAdded (inboundRaw acc) (inboundRaw (step acc row)) row /\
      collectionsRaw (step acc row) = collectionsRaw acc /\
      welcomeRaw (step acc row) = welcomeRaw acc /\
      verificationRaw (step acc row) = verificationRaw acc /\
      unparsedAddNothing (inboundRaw acc) (inboundRaw (step acc row)) row)
  /\
  (forall (acc : RawAccumulators) (row : RawKPIRow),
      lower (row_model row) = "collections"%string ->
      lower (row_direction row) <> "inbound"%string \/
      row_direction row = None ->
      collectionsAdded (collectionsRaw acc) (collectionsRaw (step acc row))
                       row /\
      inboundRaw (step acc row) = inboundRaw acc /\
      welcomeRaw (step acc row) = welcomeRaw acc /\
      verificationRaw (step acc row) = verificationRaw acc /\
      unparsedAddNothing (collectionsRaw acc) (collectionsRaw (step acc row))
                         row)
  /\
  (forall (acc : RawAccumulators) (row : RawKPIRow),
      (lower (row_model row) = "inbound"%string ->
       collectionsAdded (inboundRaw acc) (inboundRaw (step acc row)) row /\
       collectionsRaw (step acc row) = collectionsRaw acc /\
       welcomeRaw (step acc row) = welcomeRaw acc /\
       verificationRaw (step acc row) = verificationRaw acc) /\
      (lower (row_model row) = "welcome"%string ->
       welcomeAdded (welcomeRaw acc) (welcomeRaw (step acc row)) row /\
       collectionsRaw (step acc row) = collectionsRaw acc /\
       inboundRaw (step acc row) = inboundRaw acc /\
       verificationRaw (step acc row) = verificationRaw acc) /\
      (lower (row_model row) = "verification"%string ->
       welcomeAdded (verificationRaw acc) (verificationRaw (step acc row))
                    row /\
       collectionsRaw (step acc row) = collectionsRaw acc /\
       inboundRaw (step acc row) = inboundRaw acc /\
       welcomeRaw (step acc row) = welcomeRaw acc))
  /\
  (forall (rows : list RawKPIRow) (row : RawKPIRow),
      parse [] = deriveKPIs zeroAccumulators /\
      parse (rows ++ [row])
      = deriveKPIs
          (step (accumulateRows parseInt parseFloat toLowerCase rows) row)).
Proof.
  split; [|split; [|split; [|split]]].
  - intros acc rows1 rows2 row Hc Hw Hv Hi.
    split; [exact (accumulateRow_unknown_model acc row Hc Hw Hv Hi)|].
    unfold parseKPIResults. f_equal.
    rewrite !accumulateRows_app. cbn [fold_left].
    rewrite (accumulateRow_unknown_model _ row Hc Hw Hv Hi). reflexivity.
  - intros acc row Hm Hd.
    assert (Hs : step acc row =
                 {| collectionsRaw := collectionsRaw acc;
                    inboundRaw := addCollectionsRow (inboundRaw acc)
                                    (parseRow parseInt parseFloat row);
                    welcomeRaw := welcomeRaw acc;
                    verificationRaw := verificationRaw acc |}).
    { unfold accumulateRow. rewrite Hm, Hd. reflexivity. }
    rewrite Hs. cbn [collectionsRaw inboundRaw welcomeRaw verificationRaw].
    pose proof (addCollectionsRow_spec (inboundRaw acc) row) as Ha.
    split; [exact Ha|]. repeat (split; [reflexivity|]).
    apply unparsed_counts_unchanged. exact Ha.
  - intros acc row Hm Hd.
    assert (Hd' : (lower (row_direction row) =? "inbound")%string = false).
    { destruct Hd as [Hd|Hd].
      - apply String.eqb_neq. exact Hd.
      - rewrite Hd. reflexivity. }
    assert (Hs : step acc row =
                 {| collectionsRaw := addCollectionsRow (collectionsRaw acc)
                                        (parseRow parseInt parseFloat row);
                    inboundRaw := inboundRaw acc;
                    welcomeRaw := welcomeRaw acc;
                    verificationRaw := verificationRaw acc |}).
    { unfold accumulateRow. rewrite Hm, Hd'. reflexivity. }
    rewrite Hs. cbn [collectionsRaw inboundRaw welcomeRaw verificationRaw].
    pose proof (addCollectionsRow_spec (collectionsRaw acc) row) as Ha.
    split; [exact Ha|]. repeat (split; [reflexivity|]).
    apply unparsed_counts_unchanged. exact Ha.
  - intros acc row. split; [|split]; intro Hm; unfold accumulateRow;
      rewrite Hm; cbn [String.eqb Ascii.eqb Bool.eqb];
      cbn [collectionsRaw inboundRaw welcomeRaw verificationRaw].
    + split; [apply addCollectionsRow_spec|]. repeat split.
    + split; [apply addWelcomeRow_spec|]. repeat split.
    + split; [apply addWelcomeRow_spec|]. repeat split.
  - intros rows row. split; [reflexivity|].
    unfold parseKPIResults. rewrite accumulateRows_app. reflexivity.
Qed.

End RowParsing.

(** The repository's own parsing tests, run on the model with the host
    functions of module [Host]. *)
Section RowParsingExamples.

Local Open Scope string_scope.

Local Abbreviation hostParse :=
  (parseKPIResults Host.parseInt Host.parseFloat Host.toLowerCase).

Example parse_invalid_values_as_zero :
  let row :=
    {| row_model := Some "collections"; row_direction := Some "outbound";
       row_accounts := Some ""; row_calls := Some "invalid";
       row_connects := Some ""; row_rpcs := Some "50";
       row_promises := Some ""; row_cash_payments := Some "";
       row_transfers := Some ""; row_duration_minutes := Some "";
       row_completed_verifications := Some "";
       row_dollar_promised := None; row_dollar_collected := None;
       row_payment_attempts := None; row_payment_successful := None;
       row_payment_declined := None; row_payment_api_failed := None |} in
  let k := hostParse [row] in
  calls (collections k) = n0 /\ connects (collections k) = n0 /\
  rpcs (collections k) = ofZ 50 /\ promises (collections k) = n0 /\
  inbound k = emptyCollectionsMetrics.
Proof. js_eval. Qed.

Example parse_routes_by_model_and_direction :
  let k := hostParse [uniformRow (Some "Collections") (Some "INBOUND") "7";
                      uniformRow (Some "collections") (Some "outbound") "5";
                      uniformRow (Some "collections") None "5";
                      uniformRow (Some "inbound") (Some "") "1";
                      uniformRow (Some "sales") (Some "inbound") "1000";
                      uniformRow None (Some "inbound") "1000";
                      uniformRow (Some "welcome") None "3"] in
  calls (inbound k) = ofZ 8 /\ calls (collections k) = ofZ 10 /\
  wv_calls (welcome k) = ofZ 3 /\ wv_eligible (welcome k) = ofZ 3 /\
  verification k = emptyWelcomeVerificationMetrics.
Proof. js_eval. Qed.

End RowParsingExamples.

Lemma parseKPIResults_routing_witness :
  let step := accumulateRow Host.parseInt Host.parseFloat Host.toLowerCase in
  let parse := parseKPIResults Host.parseInt Host.parseFloat Host.toLowerCase in
  let added := spec_collectionsRowAdded Host.parseInt Host.parseFloat in
  let sales := uniformRow (Some "Sales"%string) (Some "inbound"%string)
                          "12"%string in
  let inb := uniformRow (Some "COLLECTIONS"%string) (Some "Inbound"%string)
                        "7"%string in
  let outb := uniformRow (Some "collections"%string) None "5"%string in
  let bad := uniformRow (Some "collections"%string) (Some "outbound"%string)
                        "invalid"%string in
  (step zeroAccumulators sales = zeroAccumulators /\
   parse ([inb] ++ sales :: [outb]) = parse ([inb] ++ [outb])) /\
  (added zeroCollectionsRaw (inboundRaw (step zeroAccumulators inb)) inb /\
   collectionsRaw (step zeroAccumulators inb) = zeroCollectionsRaw) /\
  (added zeroCollectionsRaw (collectionsRaw (step zeroAccumulators outb))
         outb /\
   inboundRaw (step zeroAccumulators outb) = zeroCollectionsRaw) /\
  spec_unparsedCountsAddNothing Host.parseInt zeroCollectionsRaw
    (collectionsRaw (step zeroAccumulators bad)) bad.
Proof.
  cbv zeta.
  destruct (parseKPIResults_routing
              Host.parseInt Host.parseFloat Host.toLowerCase)
    as (Hdrop & Hinbound & Houtbound & _).
  split; [|split; [|split]].
  - apply Hdrop; vm_compute; discriminate.
  - destruct (Hinbound zeroAccumulators
                (uniformRow (Some "COLLECTIONS"%string)
                            (Some "Inbound"%string) "7"%string))
      as (Hadd & Hcol & _); [reflexivity | reflexivity |].
    split; [exact Hadd | exact Hcol].
  - destruct (Houtbound zeroAccumulators
                (uniformRow (Some "collections"%string) None "5"%string))
      as (Hadd & Hinb & _); [reflexivity | right; reflexivity |].
    split; [exact Hadd | exact Hinb].
  - destruct (Houtbound zeroAccumulators
                (uniformRow (Some "collections"%string)
                            (Some "outbound"%string) "invalid"%string))
      as (_ & _ & _ & _ & Hnan); [reflexivity | left; vm_compute; discriminate |].
    exact Hnan.
Defined.

(** ** Invalid input *)

Section InvalidInput.

Local Open Scope string_scope.

Lemma getPeriodConfig_unknown_type (ty : string) (d : Date) :
  isKnownComparisonType ty = false ->
  getPeriodConfig ty d = getPeriodConfig "mom" d.
Proof.
  unfold isKnownComparisonType, getPeriodConfig. intro H.
  apply orb_false_iff in H. destruct H as [H Hwtd].
  apply orb_false_iff in H. destruct H as [H Hmtd].
  apply orb_false_iff in H. destruct H as [Hmom Hwow].
  rewrite Hmom, Hwow, Hmtd, Hwtd. reflexivity.
Qed.

Lemma getPeriodConfig_invalid_date (ty : string) :
  let c := getPeriodConfig ty InvalidDate in
  range_start (currentRange c) = InvalidDate /\
  range_end (currentRange c) = InvalidDate /\
  range_start (comparisonRange c) = InvalidDate /\
  range_end (comparisonRange c) = InvalidDate.
Proof.
  unfold getPeriodConfig.
  destruct (ty =? "mom"); [repeat split|].
  destruct (ty =? "wow"); [repeat split|].
  destruct (ty =? "mtd"); [repeat split|].
  destruct (ty =? "wtd"); repeat split.
Qed.

(** Counterexample to C9 as the specification states it: a request with
    the unknown comparison type [bogus] and the unparseable reference date
    [not-a-date] is answered by issuing the consolidated fetch with a
    month-over-month configuration built on the Invalid Date. *)
Lemma invalid_request_still_fetches :
  GET rejectingParser "2025-01"
      {| q_view := Some "consolidated"; q_client := None; q_month := None;
         q_excludeWestlake := None;
         q_periodType := Some "bogus";
         q_referenceDate := Some "not-a-date" |}
  = IssueFetch
      (CallFetchConsolidatedKPIsWithDateRange
         {| range_start := InvalidDate; range_end := InvalidDate;
            label := "undefined-aN" |}
         {| range_start := InvalidDate; range_end := InvalidDate;
            label := "undefined-aN" |}
         "bogus" false)
  /\ periodType (getPeriodConfig "bogus" (newDateTime 2025 0 15 0 0 0 0))
     = "mom".
Proof. split; vm_compute; reflexivity. Qed.

(** C9 (as amended). [getPeriodConfig] raises no error: on a comparison
    type other than mom, wow, mtd, wtd it returns the month-over-month
    configuration, on the Invalid Date it returns a configuration whose four
    bounds are the Invalid Date, and the route handler always issues a
    fetch as its first step, whatever the parameters. *)
Theorem invalid_input_is_not_rejected :
  (forall (ty : string) (d : Date),
      isKnownComparisonType ty = false ->
      getPeriodConfig ty d = getPeriodConfig "mom" d)
  /\
  (forall ty : string,
      let c := getPeriodConfig ty InvalidDate in
      range_start (currentRange c) = InvalidDate /\
      range_end (currentRange c) = InvalidDate /\
      range_start (comparisonRange c) = InvalidDate /\
      range_end (comparisonRange c) = InvalidDate)
  /\
  (forall (Date_parse : string -> Date) (currentMonth : string)
          (req : KPIRequest),
      exists call : FetchCall,
        GET Date_parse currentMonth req = IssueFetch call).
Proof.
  split; [|split].
  - exact getPeriodConfig_unknown_type.
  - exact getPeriodConfig_invalid_date.
  - intros Date_parse currentMonth req. unfold GET. cbv zeta.
    destruct (negb (strOr (q_periodType req) "" =? "")
              && negb (strOr (q_referenceDate req) "" =? ""))%bool;
      destruct (strOr (q_view req) "per-client" =? "per-client");
      eexists; reflexivity.
Qed.

Lemma invalid_input_is_not_rejected_witness :
  getPeriodConfig "quarterly" (newDateTime 2025 0 15 0 0 0 0)
  = getPeriodConfig "mom" (newDateTime 2025 0 15 0 0 0 0).
Proof.
  apply (proj1 invalid_input_is_not_rejected). reflexivity.
Defined.

End InvalidInput.

(** ** Fetch orchestration *)


Section ConsolidatedFetch.

Variable parseInt : option string -> number.
Variable parseFloat : option string -> number.
Variable toLowerCase : string -> string.

Local Abbreviation fetchWith :=
  (fetchClientData parseInt parseFloat toLowerCase).
Local Abbreviation consolidated :=
  (fetchConsolidatedKPIsWithDateRange parseInt parseFloat toLowerCase).

Lemma sum_empty_empty :
  sumPeriodKPIs emptyPeriodKPIs emptyPeriodKPIs = emptyPeriodKPIs.
Proof. vm_compute. number_record_eq. Qed.

Lemma recalculate_empty :
  recalculateDerivedMetrics emptyPeriodKPIs = emptyPeriodKPIs.
Proof. vm_compute. number_record_eq. Qed.

Lemma parseKPIResults_nil :
  parseKPIResults parseInt parseFloat toLowerCase [] = emptyPeriodKPIs.
Proof. vm_compute. number_record_eq. Qed.

Lemma fetchClientData_failure
  (query : string -> string -> string -> option (list RawKPIRow))
  (client startDate endDate : string) :
  query client startDate endDate = None ->
  fetchWith query client startDate endDate = emptyPeriodKPIs.
Proof. intro H. unfold fetchClientData. rewrite H. reflexivity. Qed.

Lemma fetchClientData_mask
  (query : string -> string -> string -> option (list RawKPIRow))
  (client startDate endDate : string) :
  fetchWith (maskFailures query) client startDate endDate
  = fetchWith query client startDate endDate.
Proof.
  unfold fetchClientData, maskFailures.
  destruct (query client startDate endDate); [reflexivity|].
  apply parseKPIResults_nil.
Qed.

Lemma sumClientBatches_unbatched
  (query : string -> string -> string -> option (list RawKPIRow))
  (cs ce ps pe : string) (clients : list string) :
  sumClientBatches parseInt parseFloat toLowerCase query cs ce ps pe clients
  = fold_left addBatchResult
      (fetchBatch parseInt parseFloat toLowerCase query cs ce ps pe clients)
      (emptyPeriodKPIs, emptyPeriodKPIs).
Proof.
  unfold sumClientBatches.
  rewrite <- (batches_concat 5 clients) at 2.
  generalize (batches 5 clients) (emptyPeriodKPIs, emptyPeriodKPIs).
  intros bs. induction bs as [|b bs IH]; intro z; simpl.
  - reflexivity.
  - rewrite IH. unfold fetchBatch. rewrite flat_map_app, fold_left_app.
    reflexivity.
Qed.

Lemma sumClientBatches_ext
  (q q' : string -> string -> string -> option (list RawKPIRow))
  (cs ce ps pe : string) (clients : list string) :
  (forall c s e, fetchWith q c s e = fetchWith q' c s e) ->
  sumClientBatches parseInt parseFloat toLowerCase q cs ce ps pe clients
  = sumClientBatches parseInt parseFloat toLowerCase q' cs ce ps pe clients.
Proof.
  intro Hext. rewrite !sumClientBatches_unbatched. f_equal.
  unfold fetchBatch. apply flat_map_ext. intro c. rewrite !Hext. reflexivity.
Qed.

Lemma sumClientBatches_all_fail (cs ce ps pe : string)
  (clients : list string) :
  sumClientBatches parseInt parseFloat toLowerCase failingStore
    cs ce ps pe clients
  = (emptyPeriodKPIs, emptyPeriodKPIs).
Proof.
  rewrite sumClientBatches_unbatched.
  induction clients as [|c clients IH]; simpl.
  - reflexivity.
  - unfold fetchClientData at 1 2. unfold failingStore at 1 2.
    cbn [addBatchResult fst snd].
    rewrite !sum_empty_empty. exact IH.
Qed.

End ConsolidatedFetch.

Section MapFacts.

Lemma mapGet_mapSet (m : KpiMap) (k k' : string)
  (v : list (option PeriodKPIs)) :
  mapGet (mapSet m k v) k'
  = if (k =? k')%string then Some v else mapGet m k'.
Proof.
  induction m as [|[k0 v0] m IH]; simpl.
  - reflexivity.
  - destruct (k0 =? k)%string eqn:E0; simpl.
    + apply String.eqb_eq in E0. subst k0.
      destruct (k =? k')%string; reflexivity.
    + rewrite IH. destruct (k0 =? k')%string eqn:E1; [|reflexivity].
      apply String.eqb_eq in E1. subst k0. rewrite String.eqb_sym, E0.
      reflexivity.
Qed.

Lemma keysPresent_mapSet (m : KpiMap) (ks : list string) (k : string)
  (v : list (option PeriodKPIs)) :
  keysPresent m ks -> keysPresent (mapSet m k v) ks.
Proof.
  intros H k' Hin. rewrite mapGet_mapSet.
  destruct (k =? k')%string; [discriminate | exact (H k' Hin)].
Qed.

Lemma allSlots_mapSet (P : option PeriodKPIs -> Prop) (m : KpiMap)
  (k : string) (v : list (option PeriodKPIs)) :
  allSlots P m -> Forall P v -> allSlots P (mapSet m k v).
Proof.
  intros Hm Hv k' arr. rewrite mapGet_mapSet.
  destruct (k =? k')%string.
  - intro H. injection H as <-. exact Hv.
  - apply Hm.
Qed.

Lemma Forall_take {A : Type} (P : A -> Prop) (n : nat) (l : list A) :
  Forall P l -> Forall P (firstn n l).
Proof.
  revert l. induction n as [|n IH]; intros l H; simpl.
  - constructor.
  - destruct H as [|x l Hx Hl]; constructor; [exact Hx | apply IH, Hl].
Qed.

Lemma Forall_drop {A : Type} (P : A -> Prop) (n : nat) (l : list A) :
  Forall P l -> Forall P (skipn n l).
Proof.
  revert l. induction n as [|n IH]; intros l H; simpl.
  - exact H.
  - destruct H as [|x l Hx Hl]; [constructor | apply IH, Hl].
Qed.

Lemma Forall_arraySet (P : option PeriodKPIs -> Prop)
  (arr : list (option PeriodKPIs)) (i : nat) (v : PeriodKPIs) :
  Forall P arr -> P None -> P (Some v) -> Forall P (arraySet arr i v).
Proof.
  intros Harr Hnone Hv. unfold arraySet.
  apply Forall_app. split.
  - apply Forall_take. apply Forall_app. split; [exact Harr|].
    apply Forall_forall. intros x Hx. apply repeat_spec in Hx. now subst.
  - constructor; [exact Hv|]. apply Forall_drop. exact Harr.
Qed.

Lemma initialResults_spec (P : option PeriodKPIs -> Prop)
  (clients : list string) (slots : nat) :
  P None ->
  keysPresent (initialResults clients slots) clients /\
  allSlots P (initialResults clients slots).
Proof.
  intro Hnone. unfold initialResults.
  assert (Hgen : forall (l done : list string) (m0 : KpiMap),
             keysPresent m0 done -> allSlots P m0 ->
             let m := fold_left
                        (fun m client => mapSet m client (repeat None slots))
                        l m0 in
             keysPresent m (done ++ l) /\ allSlots P m).
  { induction l as [|c l IH]; intros done m0 Hk Hs; simpl.
    - rewrite app_nil_r. split; assumption.
    - replace (done ++ c :: l) with ((done ++ [c]) ++ l)
        by (rewrite <- app_assoc; reflexivity).
      apply IH.
      + intros k Hin. apply in_app_or in Hin. destruct Hin as [Hin|Hin].
        * apply keysPresent_mapSet with (ks := done); assumption.
        * destruct Hin as [<-|[]]. rewrite mapGet_mapSet, String.eqb_refl.
          discriminate.
      + apply allSlots_mapSet; [exact Hs|].
        apply Forall_forall. intros x Hx. apply repeat_spec in Hx.
        now subst. }
  apply (Hgen clients [] []).
  - intros k [].
  - intros k arr H. discriminate H.
Qed.

End MapFacts.

Section ScorecardFetch.

Import OrderFacts.

Variable parseInt : option string -> number.
Variable parseFloat : option string -> number.
Variable toLowerCase : string -> string.
Variable getClientDisplayName : string -> string.
Variable now : Date.
Variable generatedAt : string.

Local Abbreviation runTask query :=
  (runQueryTask parseInt parseFloat toLowerCase query).

Lemma fold_left_concat_map {A B C : Type} (g : C -> B -> C) (f : A -> B)
  (ls : list (list A)) (z : C) :
  fold_left (fun acc l => fold_left g (map f l) acc) ls z
  = fold_left g (map f (List.concat ls)) z.
Proof.
  revert z. induction ls as [|l ls IH]; intro z; simpl.
  - reflexivity.
  - rewrite map_app, fold_left_app. apply IH.
Qed.

Lemma runQueryBatches_unbatched
  (query : string -> string -> string -> option (list RawKPIRow))
  (tasks : list QueryTask) (m : KpiMap) :
  runQueryBatches parseInt parseFloat toLowerCase query tasks m
  = fold_left storeResult (map (runTask query) tasks) (Ok m).
Proof.
  unfold runQueryBatches. rewrite fold_left_concat_map, batches_concat.
  reflexivity.
Qed.

Lemma storeResults_ok (P : option PeriodKPIs -> Prop) (ks : list string)
  (results : list (QueryTask * PeriodKPIs)) :
  P None ->
  (forall r, In r results ->
             In (task_client (fst r)) ks /\ P (Some (snd r))) ->
  forall m : KpiMap,
    keysPresent m ks -> allSlots P m ->
    exists m' : KpiMap,
      fold_left storeResult results (Ok m) = Ok m' /\
      keysPresent m' ks /\ allSlots P m'.
Proof.
  intro Hnone. induction results as [|r results IH]; intros Hres m Hk Hs.
  - exists m. repeat split; assumption.
  - destruct (Hres r (or_introl eq_refl)) as [Hin Hp].
    cbn [fold_left]. unfold storeResult at 2. cbn [bindResult].
    destruct (mapGet m (task_client (fst r))) as [arr|] eqn:Hget.
    + apply IH.
      * intros r' Hr'. apply Hres. right. exact Hr'.
      * apply keysPresent_mapSet. exact Hk.
      * apply allSlots_mapSet; [exact Hs|].
        apply Forall_arraySet; [exact (Hs _ _ Hget) | exact Hnone | exact Hp].
    + exfalso. exact (Hk _ Hin Hget).
Qed.

Lemma allQueryTasks_clients (clients : list string)
  (weekRanges : list (string * string)) (t : QueryTask) :
  In t (allQueryTasks clients weekRanges) -> In (task_client t) clients.
Proof.
  unfold allQueryTasks. intro H. apply in_flat_map in H.
  destruct H as [c [Hc Ht]]. apply in_map_iff in Ht.
  destruct Ht as [[i range] [<- _]]. exact Hc.
Qed.

Lemma mapResult_ok {A B : Type} (f : A -> Result B) (g : A -> B)
  (l : list A) :
  (forall x, In x l -> f x = Ok (g x)) -> mapResult f l = Ok (map g l).
Proof.
  induction l as [|x l IH]; intro H; simpl.
  - reflexivity.
  - rewrite (H x (or_introl eq_refl)). cbn [bindResult].
    rewrite IH; [reflexivity|]. intros y Hy. apply H. right. exact Hy.
Qed.

Lemma mapResult_isOk {A B : Type} (f : A -> Result B) (l : list A) :
  (forall x, In x l -> isOk (f x) = true) -> isOk (mapResult f l) = true.
Proof.
  induction l as [|x l IH]; intro H; simpl.
  - reflexivity.
  - pose proof (H x (or_introl eq_refl)) as Hx.
    destruct (f x) as [y|msg]; [|discriminate Hx]. cbn [bindResult].
    assert (Hl : isOk (mapResult f l) = true)
      by (apply IH; intros z Hz; apply H; right; exact Hz).
    destruct (mapResult f l); [reflexivity | discriminate Hl].
Qed.

Lemma ofNat_succ_neq0 (n : nat) :
  Qc_eqb (Q2Qc (inject_Z (Z.of_nat (S n)))) Qc0 = false.
Proof.
  apply Qc_eqb_false_iff. intro H. unfold Qc0 in H.
  apply Q2Qc_eq_iff in H. unfold Qeq in H. simpl in H. lia.
Qed.

Lemma zero_div_count (n : nat) : n0 / ofNat (S n) = n0.
Proof.
  unfold n0, ofNat, ofZ. cbn [div]. rewrite ofNat_succ_neq0.
  f_equal. change (Q2Qc (inject_Z 0)) with (Q2Qc 0).
  unfold Qcdiv. ring.
Qed.

Lemma fold_sum_empties (l : list PeriodKPIs) :
  Forall (eq emptyPeriodKPIs) l ->
  fold_left sumPeriodKPIs l emptyPeriodKPIs = emptyPeriodKPIs.
Proof.
  induction 1 as [|k l Hk _ IH]; simpl.
  - reflexivity.
  - subst k. rewrite sum_empty_empty. exact IH.
Qed.

Lemma averageWeeklyKPIs_empties (l : list PeriodKPIs) :
  Forall (eq emptyPeriodKPIs) l ->
  averageWeeklyKPIs l = emptyPeriodKPIs.
Proof.
  intro H. destruct l as [|k l]; [reflexivity|].
  unfold averageWeeklyKPIs. rewrite (fold_sum_empties _ H).
  cbv zeta. unfold averageCollections, averageWelcome.
  cbn [emptyPeriodKPIs emptyCollectionsMetrics emptyWelcomeVerificationMetrics
       collections inbound welcome verification
       accounts calls connects rpcs promises cashPayments transfers
       timeOnCallHours dollarPromised dollarCollected
       wv_accounts wv_calls wv_connects wv_rpcs wv_eligible wv_completed
       wv_incomplete List.length].
  rewrite !zero_div_count. exact recalculate_empty.
Qed.

Lemma clientPeriods_empty (m : KpiMap) (ks : list string) (client : string) :
  keysPresent m ks -> allSlots emptySlot m -> In client ks ->
  clientPeriods m client = Ok (emptyPeriodKPIs, emptyPeriodKPIs).
Proof.
  intros Hk Hs Hin. unfold clientPeriods.
  destruct (mapGet m client) as [arr|] eqn:Hget;
    [|exfalso; exact (Hk _ Hin Hget)].
  pose proof (Hs _ _ Hget) as Harr.
  assert (Hcur : match nth 0 arr None with
                 | Some k => k
                 | None => emptyPeriodKPIs
                 end = emptyPeriodKPIs).
  { destruct Harr as [|slot arr Hslot _]; [reflexivity|]. simpl.
    destruct Hslot as [->| ->]; reflexivity. }
  rewrite Hcur. rewrite averageWeeklyKPIs_empties; [reflexivity|].
  assert (Hrest : Forall emptySlot (skipn 1 arr))
    by (apply Forall_drop; exact Harr).
  induction Hrest as [|slot rest Hslot _ IH]; simpl.
  - constructor.
  - destruct Hslot as [->| ->]; simpl; [exact IH|].
    constructor; [reflexivity | exact IH].
Qed.

Lemma clientPeriods_isOk (m : KpiMap) (ks : list string) (client : string) :
  keysPresent m ks -> In client ks ->
  isOk (clientPeriods m client) = true.
Proof.
  intros Hk Hin. unfold clientPeriods.
  destruct (mapGet m client) as [arr|] eqn:Hget;
    [reflexivity | exfalso; exact (Hk _ Hin Hget)].
Qed.

Lemma scorecard_never_aborts
  (query : string -> string -> string -> option (list RawKPIRow))
  (clients : list string) :
  isOk (fetchAllClientsScorecardData parseInt parseFloat toLowerCase query
          getClientDisplayName now generatedAt (Ok clients)) = true.
Proof.
  unfold fetchAllClientsScorecardData. cbv zeta. cbn [bindResult].
  rewrite runQueryBatches_unbatched.
  set (wr := scorecardWeekRanges (getRolling7DayRange now)).
  destruct (initialResults_spec (fun _ => True) clients (List.length wr) I)
    as [Hk0 Hs0].
  destruct (storeResults_ok (fun _ => True) clients
              (map (runTask query) (allQueryTasks clients wr)) I)
    with (m := initialResults clients (List.length wr))
    as [m' [Hfold [Hk' _]]]; try assumption.
  { intros r Hr. apply in_map_iff in Hr. destruct Hr as [t [<- Ht]].
    split; [|exact I]. apply (allQueryTasks_clients clients wr). exact Ht. }
  rewrite Hfold. cbn [bindResult].
  assert (Hmap : isOk (mapResult
                         (fun client =>
                            bindResult (clientPeriods m' client)
                              (fun p => Ok (client, p))) clients) = true).
  { apply mapResult_isOk. intros c Hc.
    pose proof (clientPeriods_isOk m' clients c Hk' Hc) as Hok.
    destruct (clientPeriods m' c); [reflexivity | discriminate Hok]. }
  destruct (mapResult _ clients); [reflexivity | discriminate Hmap].
Qed.

Lemma scorecard_all_fail
  (query : string -> string -> string -> option (list RawKPIRow))
  (clients : list string) :
  (forall c s e, query c s e = None) ->
  fetchAllClientsScorecardData parseInt parseFloat toLowerCase query
    getClientDisplayName now generatedAt (Ok clients)
  = Ok {| sc_clients := map (zeroScorecard getClientDisplayName now) clients;
          sc_currentRange := getRolling7DayRange now;
          sc_comparisonDescription :=
            "Last 7 days vs 4-week rolling average";
          sc_generatedAt := generatedAt |}.
Proof.
  intro Hfail.
  unfold fetchAllClientsScorecardData. cbv zeta. cbn [bindResult].
  rewrite runQueryBatches_unbatched.
  set (wr := scorecardWeekRanges (getRolling7DayRange now)).
  assert (Hnone : emptySlot None) by (left; reflexivity).
  destruct (initialResults_spec emptySlot clients (List.length wr) Hnone)
    as [Hk0 Hs0].
  destruct (storeResults_ok emptySlot clients
              (map (runTask query) (allQueryTasks clients wr)) Hnone)
    with (m := initialResults clients (List.length wr))
    as [m' [Hfold [Hk' Hs']]]; try assumption.
  { intros r Hr. apply in_map_iff in Hr. destruct Hr as [t [<- Ht]].
    split; [apply (allQueryTasks_clients clients wr); exact Ht|].
    right. unfold runQueryTask. cbn [snd]. f_equal.
    apply fetchClientData_failure. apply Hfail. }
  rewrite Hfold. cbn [bindResult].
  rewrite (mapResult_ok _
             (fun client => (client, (emptyPeriodKPIs, emptyPeriodKPIs)))).
  - cbn [bindResult]. rewrite map_map. reflexivity.
  - intros c Hc. rewrite (clientPeriods_empty m' clients c Hk' Hs' Hc).
    reflexivity.
Qed.

Lemma zeroScorecard_score (client : string) :
  sd_overallScore (zeroScorecard getClientDisplayName now client) = ofZ 50 /\
  sd_overallStatus (zeroScorecard getClientDisplayName now client)
  = status_neutral.
Proof.
  unfold zeroScorecard.
  split; [apply Fin_eq_by_value|]; vm_compute; reflexivity.
Qed.

End ScorecardFetch.

Section FailureMasking.

Local Open Scope string_scope.

Lemma consolidated_all_fail
  (parseInt parseFloat : option string -> number)
  (toLowerCase : string -> string)
  (query : string -> string -> string -> option (list RawKPIRow))
  (clients : list string) (currentRange comparisonRange : DateRange)
  (comparisonType : string) (excludeWestlake : bool) :
  (forall c s e, query c s e = None) ->
  fetchConsolidatedKPIsWithDateRange parseInt parseFloat toLowerCase query
    (Ok clients) currentRange comparisonRange comparisonType excludeWestlake
  = Ok (zeroConsolidatedView currentRange comparisonRange comparisonType).
Proof.
  intro Hfail. unfold fetchConsolidatedKPIsWithDateRange. cbv zeta.
  rewrite (sumClientBatches_ext parseInt parseFloat toLowerCase
             query failingStore).
  - rewrite sumClientBatches_all_fail, recalculate_empty. reflexivity.
  - intros c s e. unfold fetchClientData, failingStore.
    rewrite Hfail. reflexivity.
Qed.

Lemma consolidated_masks_failures
  (parseInt parseFloat : option string -> number)
  (toLowerCase : string -> string)
  (query : string -> string -> string -> option (list RawKPIRow))
  (availableClients : Result (list string))
  (currentRange comparisonRange : DateRange)
  (comparisonType : string) (excludeWestlake : bool) :
  fetchConsolidatedKPIsWithDateRange parseInt parseFloat toLowerCase query
    availableClients currentRange comparisonRange comparisonType
    excludeWestlake
  = fetchConsolidatedKPIsWithDateRange parseInt parseFloat toLowerCase
      (maskFailures query)
      availableClients currentRange comparisonRange comparisonType
      excludeWestlake.
Proof.
  unfold fetchConsolidatedKPIsWithDateRange. cbv zeta.
  destruct availableClients as [clients|message]; [|reflexivity].
  rewrite (sumClientBatches_ext parseInt parseFloat toLowerCase
             query (maskFailures query)); [reflexivity|].
  intros c s e. symmetry. apply fetchClientData_mask.
Qed.

Lemma consolidated_never_aborts
  (parseInt parseFloat : option string -> number)
  (toLowerCase : string -> string)
  (query : string -> string -> string -> option (list RawKPIRow))
  (clients : list string) (currentRange comparisonRange : DateRange)
  (comparisonType : string) (excludeWestlake : bool) :
  isOk (fetchConsolidatedKPIsWithDateRange parseInt parseFloat toLowerCase
          query (Ok clients) currentRange comparisonRange comparisonType
          excludeWestlake) = true.
Proof.
  unfold fetchConsolidatedKPIsWithDateRange. cbv zeta.
  destruct (sumClientBatches _ _ _ _ _ _ _ _ _). reflexivity.
Qed.

(** Counterexample to C8 as the specification states it: with two
    clients and a data store on which every query fails, both
    orchestrators resolve, the consolidated one to the all-zero view and
    the scorecard one to two scorecards of score 50; neither returns an
    error. *)
Lemma total_failure_returns_zero_result :
  let d := newDateTime 2025 0 19 14 30 0 0 in
  fetchConsolidatedKPIsWithDateRange
    Host.parseInt Host.parseFloat Host.toLowerCase failingStore
    (Ok ["exeter"; "aca"]) (getMonthRange d) (getPreviousMonthRange d)
    "mom" false
  = Ok (zeroConsolidatedView (getMonthRange d) (getPreviousMonthRange d)
          "mom")
  /\
  fetchAllClientsScorecardData
    Host.parseInt Host.parseFloat Host.toLowerCase failingStore
    (fun c => c) d "2025-01-19T14:30:00.000Z" (Ok ["exeter"; "aca"])
  = Ok {| sc_clients := map (zeroScorecard (fun c => c) d) ["exeter"; "aca"];
          sc_currentRange := getRolling7DayRange d;
          sc_comparisonDescription :=
            "Last 7 days vs 4-week rolling average";
          sc_generatedAt := "2025-01-19T14:30:00.000Z" |}.
Proof.
  cbv zeta. split.
  - apply consolidated_all_fail. reflexivity.
  - apply scorecard_all_fail. reflexivity.
Qed.

(** C8 (as amended). A fetch task that fails contributes the all-zero
    [emptyPeriodKPIs] record, exactly as a task answering no rows would,
    and no task failure makes either orchestrator reject: once the client
    list is obtained both resolve.  When every task fails they still
    resolve, the consolidated fetch to the all-zero view and the scorecard
    fetch to one scorecard per client with zero metrics, score 50 and
    status neutral.  Only a failure to list the clients is propagated. *)
Theorem task_failures_are_masked :
  (forall (parseInt parseFloat : option string -> number)
          (toLowerCase : string -> string)
          (query : string -> string -> string -> option (list RawKPIRow))
          (client startDate endDate : string),
      query client startDate endDate = None ->
      fetchClientData parseInt parseFloat toLowerCase query
        client startDate endDate = emptyPeriodKPIs)
  /\
  (forall (parseInt parseFloat : option string -> number)
          (toLowerCase : string -> string)
          (query : string -> string -> string -> option (list RawKPIRow))
          (clients : list string) (currentRange comparisonRange : DateRange)
          (comparisonType : string) (excludeWestlake : bool),
      isOk (fetchConsolidatedKPIsWithDateRange parseInt parseFloat
              toLowerCase query (Ok clients) currentRange comparisonRange
              comparisonType excludeWestlake) = true /\
      fetchConsolidatedKPIsWithDateRange parseInt parseFloat toLowerCase
        query (Ok clients) currentRange comparisonRange comparisonType
        excludeWestlake
      = fetchConsolidatedKPIsWithDateRange parseInt parseFloat toLowerCase
          (maskFailures query) (Ok clients) currentRange comparisonRange
          comparisonType excludeWestlake)
  /\
  (forall (parseInt parseFloat : option string -> number)
          (toLowerCase : string -> string)
          (query : string -> string -> string -> option (list RawKPIRow))
          (clients : list string) (currentRange comparisonRange : DateRange)
          (comparisonType : string) (excludeWestlake : bool),
      (forall c s e, query c s e = None) ->
      fetchConsolidatedKPIsWithDateRange parseInt parseFloat toLowerCase
        query (Ok clients) currentRange comparisonRange comparisonType
        excludeWestlake
      = Ok (zeroConsolidatedView currentRange comparisonRange comparisonType))
  /\
  (forall (parseInt parseFloat : option string -> number)
          (toLowerCase : string -> string)
          (query : string -> string -> string -> option (list RawKPIRow))
          (getClientDisplayName : string -> string) (now : Date)
          (generatedAt : string) (clients : list string),
      isOk (fetchAllClientsScorecardData parseInt parseFloat toLowerCase
              query getClientDisplayName now generatedAt (Ok clients)) = true)
  /\
  (forall (parseInt parseFloat : option string -> number)
          (toLowerCase : string -> string)
          (query : string -> string -> string -> option (list RawKPIRow))
          (getClientDisplayName : string -> string) (now : Date)
          (generatedAt : string) (clients : list string),
      (forall c s e, query c s e = None) ->
      fetchAllClientsScorecardData parseInt parseFloat toLowerCase query
        getClientDisplayName now generatedAt (Ok clients)
      = Ok {| sc_clients :=
                map (zeroScorecard getClientDisplayName now) clients;
              sc_currentRange := getRolling7DayRange now;
              sc_comparisonDescription :=
                "Last 7 days vs 4-week rolling average";
              sc_generatedAt := generatedAt |})
  /\
  (forall (getClientDisplayName : string -> string) (now : Date)
          (client : string),
      sd_overallScore (zeroScorecard getClientDisplayName now client)
      = ofZ 50 /\
      sd_overallStatus (zeroScorecard getClientDisplayName now client)
      = status_neutral)
  /\
  (forall (parseInt parseFloat : option string -> number)
          (toLowerCase : string -> string)
          (query : string -> string -> string -> option (list RawKPIRow))
          (getClientDisplayName : string -> string) (now : Date)
          (generatedAt message : string)
          (currentRange comparisonRange : DateRange)
          (comparisonType : string) (excludeWestlake : bool),
      fetchConsolidatedKPIsWithDateRange parseInt parseFloat toLowerCase
        query (Err message) currentRange comparisonRange comparisonType
        excludeWestlake = Err message /\
      fetchAllClientsScorecardData parseInt parseFloat toLowerCase query
        getClientDisplayName now generatedAt (Err message) = Err message).
Proof.
  split; [|split; [|split; [|split; [|split; [|split]]]]].
  - exact fetchClientData_failure.
  - intros. split.
    + apply consolidated_never_aborts.
    + apply consolidated_masks_failures.
  - exact consolidated_all_fail.
  - intros. apply scorecard_never_aborts.
  - intros. apply scorecard_all_fail. assumption.
  - intros. apply zeroScorecard_score.
  - intros. split; reflexivity.
Qed.

Lemma task_failures_are_masked_witness :
  let d := newDateTime 2025 0 15 0 0 0 0 in
  fetchClientData Host.parseInt Host.parseFloat Host.toLowerCase failingStore
    "exeter" "2025-01-13 00:00:00" "2025-01-19 23:59:59"
  = emptyPeriodKPIs
  /\
  fetchConsolidatedKPIsWithDateRange
    Host.parseInt Host.parseFloat Host.toLowerCase failingStore
    (Ok ["exeter"; "aca"; "westlake"])
    (getWeekRange d) (getPreviousWeekRange d) "wow" true
  = Ok (zeroConsolidatedView (getWeekRange d) (getPreviousWeekRange d) "wow")
  /\
  fetchAllClientsScorecardData
    Host.parseInt Host.parseFloat Host.toLowerCase failingStore
    Host.toLowerCase d "2025-01-15T00:00:00.000Z" (Ok ["exeter"; "aca"])
  = Ok {| sc_clients := map (zeroScorecard Host.toLowerCase d) ["exeter"; "aca"];
          sc_currentRange := getRolling7DayRange d;
          sc_comparisonDescription :=
            "Last 7 days vs 4-week rolling average";
          sc_generatedAt := "2025-01-15T00:00:00.000Z" |}.
Proof.
  cbv zeta.
  destruct task_failures_are_masked
    as (Htask & _ & Hconsolidated & _ & Hscorecard & _).
  split; [|split].
  - apply Htask. reflexivity.
  - apply Hconsolidated. reflexivity.
  - apply Hscorecard. reflexivity.
Defined.

End FailureMasking.

(** ** The repository's unit tests, run on the model *)

Section UnitTests.

Example test_safeDivide :
  safeDivide n100 n0 = n0 /\
  safeDivide n50 n100 = ofQ (1 # 2) /\
  safeDivide n100 n50 = ofZ 2.
Proof. js_eval. Qed.

Example test_derived_metrics_valid_data :
  let m := calculateDerivedCollectionsMetrics
             (rawOfCounts 1000 5000 2000 800 400 200 100 15000) in
  callsPerAccount m = ofZ 5 /\ connectRate m = ofZ 40 /\
  rpcRate m = ofZ 40 /\ promisesPerRpc m = ofZ 50 /\
  cashPerRpc m = ofZ 25 /\ cashPerPromises m = ofZ 50 /\
  transfersPerRpc m = ofQ (25 # 2) /\ timeOnCallHours m = ofZ 250 /\
  avgTimePerCallMin m = ofZ 3.
Proof. js_eval. Qed.

Example test_derived_metrics_zero_values :
  calculateDerivedCollectionsMetrics (rawOfCounts 0 0 0 0 0 0 0 0)
  = emptyCollectionsMetrics.
Proof. js_eval. Qed.

Example test_calculateMoMChange :
  calculateMoMChange n100 n0 = {| value := n0; trend := trend_neutral |} /\
  calculateMoMChange (ofZ 80) n100
  = {| value := ofZ (-20); trend := trend_down |} /\
  calculateMoMChange (ofZ 200) n100
  = {| value := n100; trend := trend_up |} /\
  calculateMoMChange n50 n100
  = {| value := ofZ (-50); trend := trend_down |}.
Proof. js_eval. Qed.

Local Open Scope Z_scope.

Example test_getWeekRange :
  let r := getWeekRange (newDateTime 2025 0 15 0 0 0 0) in
  let r' := getWeekRange (newDateTime 2025 0 31 0 0 0 0) in
  getDay (range_start r) = Some 0 /\ getDate (range_start r) = Some 12 /\
  getDay (range_end r) = Some 6 /\ getDate (range_end r) = Some 18 /\
  civilOf (range_start r') = (Some 2025, Some 0, Some 26) /\
  civilOf (range_end r') = (Some 2025, Some 1, Some 1).
Proof. vm_compute. repeat split. Qed.

Example test_getPreviousWeekRange :
  let r := getPreviousWeekRange (newDateTime 2025 0 5 0 0 0 0) in
  civilOf (range_start r) = (Some 2024, Some 11, Some 29) /\
  civilOf (range_end r) = (Some 2025, Some 0, Some 4) /\
  label r = "Dec 29, 2024 - Jan 4, 2025"%string.
Proof. vm_compute. repeat split. Qed.

Example test_getMonthRange :
  let jan := getMonthRange (newDateTime 2025 0 15 0 0 0 0) in
  let feb25 := getMonthRange (newDateTime 2025 1 15 0 0 0 0) in
  let feb24 := getMonthRange (newDateTime 2024 1 15 0 0 0 0) in
  range_start jan = newDateTime 2025 0 1 0 0 0 0 /\
  range_end jan = newDateTime 2025 0 31 23 59 59 999 /\
  getDate (range_end feb25) = Some 28 /\
  getDate (range_end feb24) = Some 29.
Proof. vm_compute. repeat split. Qed.

Example test_getPeriodConfig :
  let d := newDateTime 2025 0 15 0 0 0 0 in
  comparisonLabel (getPeriodConfig "wtd" d) = "vs 4-week avg"%string /\
  comparisonLabel (getPeriodConfig "wow" d) = "vs last week"%string /\
  comparisonRange (getPeriodConfig "mom" d)
  = getMonthRange (newDateTime 2024 11 1 0 0 0 0) /\
  civilOf (range_end (currentRange (getPeriodConfig "mtd" d)))
  = (Some 2025, Some 0, Some 15).
Proof. vm_compute. repeat split. Qed.

Example test_samePeriodLastMonth_mid_month :
  let r := getSamePeriodLastMonth (rangeOfMonthDays 2025 0 15) in
  civilOf (range_start r) = (Some 2024, Some 11, Some 1) /\
  civilOf (range_end r) = (Some 2024, Some 11, Some 15).
Proof. vm_compute. repeat split. Qed.

End UnitTests.
